(** * python3-ldap: the search filter engine ([ldap3/operation/search.py])

    A shallow embedding of the filter parser, compiler and decompiler, of the
    search request builder and of the entry decoder, followed by the
    properties established about them.

    Conventions of the embedding.
    - A Python [str] is a [string]; a character is a code point below 256.
    - A raised exception is the [Raise] case of [result]; the exception
      classes that this module can raise are the constructors of [exn].
    - The [FilterNode] objects built by [parse_filter] live in an object
      store ([heap]); a reference is an index into the store and Python's
      [None] is [None].
    - An octet string of a response is the list of its bytes; the text
      that [str()] reads from it is a parameter of the decoder. *)

From Stdlib Require Import Ascii String ZArith Lia.
From stdpp Require Import base option list strings pretty gmap.


(** ** Exceptions *)

Inductive exn : Type :=
  | LDAPException (msg : string)
  | ValueError (msg : string)
  | AttributeError (msg : string)
  | IndexError (msg : string)
  | KeyError (key : string)
  | TypeError (msg : string)
  | ValueConstraintError
  | RecursionError.

Inductive result (A : Type) : Type :=
  | Ok (a : A)
  | Raise (e : exn).
Arguments Ok {A} a.
Arguments Raise {A} e.

#[global] Instance result_ret : MRet result := fun _ a => Ok a.
#[global] Instance result_bind : MBind result := fun _ _ f r =>
  match r with
  | Ok a => f a
  | Raise e => Raise e
  end.

(** ** The built-in [str] methods the module uses *)

Module PyStr.

(** Truth value of a string: empty is false. *)
Definition truthy (s : string) : bool :=
  match s with
  | EmptyString => false
  | String _ _ => true
  end.

(** [s.startswith(p)]. *)
Fixpoint startswith (p s : string) : bool :=
  match p, s with
  | EmptyString, _ => true
  | String a p', String b s' => if Ascii.eqb a b then startswith p' s' else false
  | String _ _, EmptyString => false
  end.

(** [sub in s]. *)
Fixpoint contains (sub s : string) : bool :=
  match s with
  | EmptyString => startswith sub EmptyString
  | String _ s' => startswith sub s || contains sub s'
  end.

(** [s.endswith(suf)]. *)
Fixpoint endswith (suf s : string) : bool :=
  String.eqb s suf ||
  match s with
  | EmptyString => false
  | String _ s' => endswith suf s'
  end.

(** [s[n:]]. *)
Fixpoint drop (n : nat) (s : string) : string :=
  match n, s with
  | O, _ => s
  | S _, EmptyString => EmptyString
  | S n', String _ s' => drop n' s'
  end.

(** [s[:n]]. *)
Fixpoint take (n : nat) (s : string) : string :=
  match n, s with
  | O, _ => EmptyString
  | S _, EmptyString => EmptyString
  | S n', String c s' => String c (take n' s')
  end.

(** [s[start:stop]] for non-negative bounds. *)
Definition slice (start stop : nat) (s : string) : string :=
  take (stop - start) (drop start s).

(** [s[:-n]] for [n > 0]. *)
Definition drop_last (n : nat) (s : string) : string :=
  take (String.length s - n) s.

(** [s.partition(sep)]: the part before the first [sep], [sep] itself and
    the part after it; [(s, '', '')] when [sep] does not occur. *)
Fixpoint partition (sep s : string) : string * string * string :=
  match s with
  | EmptyString => (EmptyString, EmptyString, EmptyString)
  | String c s' =>
      if startswith sep s then (EmptyString, sep, drop (String.length sep) s)
      else let '(l, m, r) := partition sep s' in (String c l, m, r)
  end.

(** [s.split(sep)] for a non-empty [sep]: the occurrences of [sep] are
    found left to right and do not overlap.  [skip] counts the characters
    of a found separator that are still to be passed over. *)
Fixpoint split_from (sep : string) (skip : nat) (s : string) : list string :=
  match s with
  | EmptyString => [EmptyString]
  | String c s' =>
      match skip with
      | S k => split_from sep k s'
      | O =>
          if startswith sep s
          then EmptyString :: split_from sep (String.length sep - 1) s'
          else match split_from sep 0 s' with
               | seg :: segs => String c seg :: segs
               | [] => [String c EmptyString]
               end
      end
  end.

Definition split (sep s : string) : list string := split_from sep 0 s.

(** [s.replace(old, new)] for a non-empty [old]. *)
Fixpoint replace_from (old new : string) (skip : nat) (s : string) : string :=
  match s with
  | EmptyString => EmptyString
  | String c s' =>
      match skip with
      | S k => replace_from old new k s'
      | O =>
          if startswith old s
          then new +:+ replace_from old new (String.length old - 1) s'
          else String c (replace_from old new 0 s')
      end
  end.

Definition replace (old new s : string) : string := replace_from old new 0 s.

(** [s.count(sub)] for a non-empty [sub]. *)
Fixpoint count_from (sub : string) (skip : nat) (s : string) : nat :=
  match s with
  | EmptyString => 0
  | String _ s' =>
      match skip with
      | S k => count_from sub k s'
      | O =>
          if startswith sub s
          then S (count_from sub (String.length sub - 1) s')
          else count_from sub 0 s'
      end
  end.

Definition count (sub s : string) : nat := count_from sub 0 s.

(** The characters [str.strip()] removes (those for which [str.isspace]
    holds), among the code points below 256. *)
Definition isspace (c : ascii) : bool :=
  let n := nat_of_ascii c in
  ((9 <=? n) && (n <=? 13)) || ((28 <=? n) && (n <=? 32))
  || (n =? 133) || (n =? 160).

Fixpoint lstrip (s : string) : string :=
  match s with
  | EmptyString => EmptyString
  | String c s' => if isspace c then lstrip s' else s
  end.

Fixpoint rstrip (s : string) : string :=
  match s with
  | EmptyString => EmptyString
  | String c s' =>
      match rstrip s' with
      | EmptyString => if isspace c then EmptyString else String c EmptyString
      | r => String c r
      end
  end.

(** [s.strip()]. *)
Definition strip (s : string) : string := rstrip (lstrip s).

(** [s.lower()] on the code points below 256. *)
Definition lower_char (c : ascii) : ascii :=
  let n := nat_of_ascii c in
  if ((65 <=? n) && (n <=? 90))
     || ((192 <=? n) && (n <=? 222) && negb (n =? 215))
  then ascii_of_nat (n + 32) else c.

Fixpoint lower (s : string) : string :=
  match s with
  | EmptyString => EmptyString
  | String c s' => String (lower_char c) (lower s')
  end.

(** [sep.join(parts)]. *)
Fixpoint join (sep : string) (parts : list string) : string :=
  match parts with
  | [] => EmptyString
  | [p] => p
  | p :: ps => p +:+ sep +:+ join sep ps
  end.

(** [string.whitespace], the constant of the [string] module. *)
Definition whitespace : string :=
  String " "%char (String "009"%char (String "010"%char (String "013"%char
    (String "011"%char (String "012"%char EmptyString))))).

End PyStr.

(** ** Sequences: indexing, slicing, unpacking *)

Module PySeq.

(** [l[0]]. *)
Definition first {A} (l : list A) : result A :=
  match l with
  | x :: _ => Ok x
  | [] => Raise (IndexError "list index out of range")
  end.

(** [l[-1]]. *)
Definition last {A} (l : list A) : result A :=
  match List.rev l with
  | x :: _ => Ok x
  | [] => Raise (IndexError "list index out of range")
  end.

(** [l[1:-1]]. *)
Definition interior {A} (l : list A) : list A :=
  List.firstn (length l - 1 - 1) (List.skipn 1 l).

(** [a, b, c = l]. *)
Definition unpack3 {A} (l : list A) : result (A * A * A) :=
  match l with
  | [a; b; c] => Ok (a, b, c)
  | _ =>
      if length l <? 3
      then Raise (ValueError ("not enough values to unpack (expected 3, got "
                              +:+ pretty (length l) +:+ ")"))
      else Raise (ValueError "too many values to unpack (expected 3)")
  end.

End PySeq.

(** ** [validate_assertion_value] *)

Definition NUL : string := String "000"%char EmptyString.

Definition validate_assertion_value (value : string) : string :=
  let value := PyStr.strip value in
  let value := if PyStr.contains "\2a" value
               then PyStr.replace "\2a" "*" value else value in
  let value := if PyStr.contains "\2A" value
               then PyStr.replace "\2A" "*" value else value in
  let value := if PyStr.contains "\28" value
               then PyStr.replace "\28" "(" value else value in
  let value := if PyStr.contains "\29" value
               then PyStr.replace "\29" ")" value else value in
  let value := if PyStr.contains "\5c" value
               then PyStr.replace "\5c" "\" value else value in
  let value := if PyStr.contains "\5C" value
               then PyStr.replace "\5C" "\" value else value in
  (* the result of this last [replace] is not assigned *)
  let _ := if PyStr.contains "\00" value
           then PyStr.replace "\00" NUL value else value in
  value.

(** ** The filter tree *)

Inductive Tag : Type :=
  | ROOT | AND | OR | NOT
  | MATCH_APPROX | MATCH_GREATER_OR_EQUAL | MATCH_LESS_OR_EQUAL
  | MATCH_EXTENSIBLE | MATCH_PRESENT | MATCH_SUBSTRING | MATCH_EQUAL.

#[global] Instance Tag_eq_dec : EqDecision Tag.
Proof. solve_decision. Defined.

Inductive ScannerState : Type :=
  | SEARCH_OPEN | SEARCH_OPEN_OR_CLOSE | SEARCH_MATCH_OR_CLOSE
  | SEARCH_MATCH_OR_CONTROL.

#[global] Instance ScannerState_eq_dec : EqDecision ScannerState.
Proof. solve_decision. Defined.

(** The assertion dictionaries, by the set of keys [evaluate_match] gives
    them.  A value that may be [None] is an [option]. *)
Inductive Assertion : Type :=
  | AttrValue (attr value : string)
  | ExtensibleAssertion (attr : option string) (value : string)
      (matchingRule : option string) (dnAttributes : option bool)
  | PresentAssertion (attr : string)
  | SubstringAssertion (attr : string) (initial : option string)
      (any : list string) (final : option string).

(** A [FilterNode] object; [parent] and [elements] hold references. *)
Record FilterNode : Type := mkFilterNode {
  tag : Tag;
  parent : option nat;
  assertion : option Assertion;
  elements : list nat
}.

(** [FilterNode(tag, assertion)]. *)
Definition new_FilterNode (t : Tag) (a : option Assertion) : FilterNode :=
  {| tag := t; parent := None; assertion := a; elements := [] |}.

Abbreviation heap := (list FilterNode).

(** Attribute access through a reference that may be [None]. *)
Definition deref (h : heap) (r : option nat) (attribute : string)
  : result (nat * FilterNode) :=
  match r with
  | None =>
      Raise (AttributeError
               ("'NoneType' object has no attribute '" +:+ attribute +:+ "'"))
  | Some i =>
      match h !! i with
      | Some n => Ok (i, n)
      | None => Raise (AttributeError "dangling reference")
      end
  end.

(** [self.append(filter_node)], for a node that is not yet in the store:
    the node gets [self] as parent and is added to the elements of [self];
    the call returns (a reference to) the node. *)
Definition append (h : heap) (self : option nat) (filter_node : FilterNode)
  : result (heap * nat) :=
  '(i, n) ← deref h self "append";
  let r := length h in
  let child := {| tag := tag filter_node; parent := Some i;
                  assertion := assertion filter_node;
                  elements := elements filter_node |} in
  let self' := {| tag := tag n; parent := parent n;
                  assertion := assertion n;
                  elements := elements n ++ [r] |} in
  Ok (<[i := self']> h ++ [child], r).

(** The object graph below a reference, read back as a value.  The nodes of
    a store built by [append] have their children at larger indices, so the
    number of nodes is enough fuel. *)
#[warnings="-register-all"]
Inductive FilterTree : Type :=
  | Tree (t : Tag) (a : option Assertion) (children : list FilterTree).

Fixpoint tree_of (fuel : nat) (h : heap) (r : nat) : option FilterTree :=
  match fuel with
  | O => None
  | S fuel' =>
      n ← h !! r;
      children ← mapM (tree_of fuel' h) (elements n);
      Some (Tree (tag n) (assertion n) children)
  end.

(** The shape of a store built by [append]: the elements of a node are
    references to nodes of the store that were made after it. *)
Definition heap_wf (h : heap) : Prop :=
  forall i n, h !! i = Some n ->
    Forall (fun j => i < j /\ j < length h) (elements n).

(** A result other than the [RecursionError] that stands for a tree that
    cannot be read. *)
Definition no_rec {A} (r : result A) : Prop := r <> Raise RecursionError.

(** [ROOT] has a child. *)
Definition root_has_child (h : heap) : Prop :=
  exists root, h !! 0 = Some root /\ elements root <> [].

(** ** [evaluate_match] *)

Definition option_truthy (o : option string) : bool :=
  match o with
  | Some s => PyStr.truthy s
  | None => false
  end.

(** [x.strip() if x else None]. *)
Definition strip_if (o : option string) : option string :=
  match o with
  | Some s => if PyStr.truthy s then Some (PyStr.strip s) else None
  | None => None
  end.

(** [validate_assertion_value(x) if x else None]. *)
Definition validate_if (s : string) : option string :=
  if PyStr.truthy s then Some (validate_assertion_value s) else None.

(** [x.lower().strip() == 'dn']. *)
Definition is_dn (s : string) : bool :=
  String.eqb (PyStr.strip (PyStr.lower s)) "dn".

Definition invalid_extensible {A} : result A :=
  Raise (LDAPException "invalid extensible filter").

(** The three variables [attribute_name], [dn_attributes], [matching_rule]
    after the case analysis of the extensible branch. *)
Definition extensible_parts (extended_filter_list : list string)
  : result (option string * option bool * option string) :=
  match extended_filter_list with
  | [] => Raise (IndexError "list index out of range")
  | e0 :: _ =>
      if String.eqb e0 ""
      then
        match extended_filter_list with
        | [_; e1] =>
            if negb (is_dn e1)
            then Ok (None, None, Some (validate_assertion_value e1))
            else invalid_extensible
        | [_; e1; e2] =>
            if is_dn e1
            then Ok (None, Some true, Some (validate_assertion_value e2))
            else invalid_extensible
        | _ => invalid_extensible
        end
      else if length extended_filter_list <=? 3
      then
        match extended_filter_list with
        | [_] => Ok (Some e0, None, None)
        | [_; e1] =>
            if is_dn e1
            then Ok (Some e0, Some true, None)
            else Ok (Some e0, None, Some (validate_assertion_value e1))
        | [_; e1; e2] =>
            if is_dn e1
            then Ok (Some e0, Some true, Some (validate_assertion_value e2))
            else invalid_extensible
        | _ => invalid_extensible
        end
      else Ok (None, None, None)
  end.

Definition evaluate_match (match_ : string) : result FilterNode :=
  let match_ := PyStr.strip match_ in
  if PyStr.contains "~=" match_ then
    '(left_part, _, right_part) ← PySeq.unpack3 (PyStr.split "~=" match_);
    Ok (new_FilterNode MATCH_APPROX
          (Some (AttrValue (PyStr.strip left_part)
                   (validate_assertion_value right_part))))
  else if PyStr.contains ">=" match_ then
    let '(left_part, _, right_part) := PyStr.partition ">=" match_ in
    Ok (new_FilterNode MATCH_GREATER_OR_EQUAL
          (Some (AttrValue (PyStr.strip left_part)
                   (validate_assertion_value right_part))))
  else if PyStr.contains "<=" match_ then
    let '(left_part, _, right_part) := PyStr.partition "<=" match_ in
    Ok (new_FilterNode MATCH_LESS_OR_EQUAL
          (Some (AttrValue (PyStr.strip left_part)
                   (validate_assertion_value right_part))))
  else if PyStr.contains ":=" match_ then
    let '(left_part, _, right_part) := PyStr.partition ":=" match_ in
    let extended_filter_list := PyStr.split ":" left_part in
    '(attribute_name, dn_attributes, matching_rule) ←
      extensible_parts extended_filter_list;
    if negb (option_truthy attribute_name) && negb (option_truthy matching_rule)
    then invalid_extensible
    else
      Ok (new_FilterNode MATCH_EXTENSIBLE
            (Some (ExtensibleAssertion (strip_if attribute_name)
                     (validate_assertion_value right_part)
                     (strip_if matching_rule) dn_attributes)))
  else if PyStr.endswith "=*" match_ then
    Ok (new_FilterNode MATCH_PRESENT
          (Some (PresentAssertion (PyStr.drop_last 2 match_))))
  else if PyStr.contains "=" match_ && PyStr.contains "*" match_ then
    let '(left_part, _, right_part) := PyStr.partition "=" match_ in
    let substrings := PyStr.split "*" right_part in
    first ← PySeq.first substrings;
    last ← PySeq.last substrings;
    let initial := validate_if first in
    let final := validate_if last in
    let any_string :=
      List.map validate_assertion_value
        (List.filter PyStr.truthy (PySeq.interior substrings)) in
    Ok (new_FilterNode MATCH_SUBSTRING
          (Some (SubstringAssertion left_part initial any_string final)))
  else if PyStr.contains "=" match_ then
    let '(left_part, _, right_part) := PyStr.partition "=" match_ in
    Ok (new_FilterNode MATCH_EQUAL
          (Some (AttrValue (PyStr.strip left_part)
                   (validate_assertion_value right_part))))
  else Raise (LDAPException "invalid matching assertion").

(** ** [parse_filter] *)

(** The local variables of the scanning loop ([root] is reference 0). *)
Record Scan : Type := mkScan {
  state : ScannerState;
  store : heap;
  current_node : option nat;
  start_pos : option nat;
  skip_white_space : bool;
  just_closed : bool
}.

(** [c in chars] for a single character [c]. *)
Definition char_in (c : ascii) (chars : string) : bool :=
  PyStr.contains (String c EmptyString) chars.

(** Truth value of [start_pos]: [None] and [0] are false. *)
Definition pos_truthy (p : option nat) : bool :=
  match p with
  | Some (S _) => true
  | _ => false
  end.

Definition root_ref : nat := 0.

(** One iteration of [for pos, c in enumerate(search_filter)]. *)
Definition scan_char (search_filter : string) (s : Scan) (pos : nat)
    (c : ascii) : result Scan :=
  if skip_white_space s && char_in c PyStr.whitespace then Ok s
  else if (bool_decide (state s = SEARCH_OPEN)
           || bool_decide (state s = SEARCH_OPEN_OR_CLOSE))
          && Ascii.eqb c "(" then
    Ok {| state := SEARCH_MATCH_OR_CONTROL; store := store s;
          current_node := current_node s; start_pos := start_pos s;
          skip_white_space := skip_white_space s; just_closed := false |}
  else if bool_decide (state s = SEARCH_MATCH_OR_CONTROL)
          && char_in c "&!|" then
    let t := if Ascii.eqb c "&" then AND
             else if Ascii.eqb c "|" then OR else NOT in
    '(h, r) ← append (store s) (current_node s) (new_FilterNode t None);
    Ok {| state := SEARCH_OPEN; store := h;
          current_node := Some r; start_pos := start_pos s;
          skip_white_space := skip_white_space s;
          just_closed := just_closed s |}
  else if (bool_decide (state s = SEARCH_MATCH_OR_CLOSE)
           || bool_decide (state s = SEARCH_OPEN_OR_CLOSE))
          && Ascii.eqb c ")" then
    if just_closed s then
      '(_, n) ← deref (store s) (current_node s) "parent";
      Ok {| state := SEARCH_OPEN_OR_CLOSE; store := store s;
            current_node := parent n; start_pos := None;
            skip_white_space := skip_white_space s;
            just_closed := just_closed s |}
    else
      let end_pos := pos in
      h ← (if pos_truthy (start_pos s) then
             '(_, n) ← deref (store s) (current_node s) "tag";
             if bool_decide (tag n = NOT) && (0 <? length (elements n))
             then Raise (LDAPException "Not clause in filter cannot be multiple")
             else
               leaf ← evaluate_match
                        (PyStr.slice (default 0 (start_pos s)) end_pos
                           search_filter);
               '(h, _) ← append (store s) (current_node s) leaf;
               Ok h
           else Ok (store s));
      Ok {| state := SEARCH_OPEN_OR_CLOSE; store := h;
            current_node := current_node s; start_pos := None;
            skip_white_space := true; just_closed := true |}
  else if (bool_decide (state s = SEARCH_MATCH_OR_CLOSE)
           || bool_decide (state s = SEARCH_MATCH_OR_CONTROL))
          && negb (char_in c "()") then
    Ok {| state := SEARCH_MATCH_OR_CLOSE; store := store s;
          current_node := current_node s;
          start_pos := if pos_truthy (start_pos s) then start_pos s
                       else Some pos;
          skip_white_space := false; just_closed := just_closed s |}
  else Raise (LDAPException "malformed filter").

(** The loop over the characters that remain, the first at [pos]. *)
Fixpoint scan (search_filter : string) (rest : string) (pos : nat) (s : Scan)
  : result Scan :=
  match rest with
  | EmptyString => Ok s
  | String c rest' =>
      s' ← scan_char search_filter s pos c;
      scan search_filter rest' (S pos) s'
  end.

Definition initial_scan : Scan :=
  {| state := SEARCH_OPEN_OR_CLOSE; store := [new_FilterNode ROOT None];
     current_node := Some root_ref; start_pos := None;
     skip_white_space := true; just_closed := false |}.

(** The scan has not yet given [ROOT] a child: the cursor is on [ROOT]
    and the first clause is being read. *)
Definition pending_at_root (s : Scan) : Prop :=
  current_node s = Some 0 /\ just_closed s = false
  /\ (exists root, store s !! 0 = Some root /\ tag root = ROOT)
  /\ (state s = SEARCH_MATCH_OR_CONTROL
      \/ (state s = SEARCH_MATCH_OR_CLOSE
          /\ pos_truthy (start_pos s) = true
          /\ skip_white_space s = false)).

(** The result of [parse_filter] is the [root] object; it is returned here
    as the tree that hangs from it.  Reading that tree does not fail on a
    store that the scan built; the exit for it keeps the function total. *)
Definition parse_filter (search_filter : string) : result FilterTree :=
  let search_filter := PyStr.strip search_filter in
  if PyStr.truthy search_filter
     && (PyStr.count "(" search_filter =? PyStr.count ")" search_filter)
     && PyStr.startswith "(" search_filter
     && PyStr.endswith ")" search_filter
  then
    s ← scan search_filter search_filter 0 initial_scan;
    '(_, root) ← deref (store s) (Some root_ref) "elements";
    if negb (length (elements root) =? 1)
    then Raise (LDAPException "missing boolean operator in filter")
    else
      match tree_of (length (store s)) (store s) root_ref with
      | Some t => Ok t
      | None => Raise RecursionError
      end
  else Raise (LDAPException "invalid filter").

(** ** The wire structures

    Modelled from the spec: the ASN.1 containers of [ldap3.protocol.rfc4511]
    are used as typed records and choices only, and are embedded as such:
    text fields as strings, the two limits as non-negative integers, the
    flags as booleans, a sequence as a list.  A [Filter] is a choice with
    exactly one alternative set, named as [getName()] names it; the
    [dnAttributes] flag of an extensible match is false when it is built
    from [None]. *)

Inductive Substring : Type :=
  | Initial (v : string)
  | Any (v : string)
  | Final (v : string).

#[warnings="-register-all"]
Inductive Filter : Type :=
  | F_and (filters : list Filter)
  | F_or (filters : list Filter)
  | F_notFilter (innerNotFilter : Filter)
  | F_equalityMatch (attributeDesc assertionValue : string)
  | F_substringFilter (type_ : string) (substrings : list Substring)
  | F_greaterOrEqual (attributeDesc assertionValue : string)
  | F_lessOrEqual (attributeDesc assertionValue : string)
  | F_present (attributeDesc : string)
  | F_approxMatch (attributeDesc assertionValue : string)
  | F_extensibleMatch (matchingRule : option string) (type_ : option string)
      (matchValue : string) (dnAttributes : bool).

Inductive Scope : Type :=
  | Scope_baseObject | Scope_singleLevel | Scope_wholeSubtree.

Inductive DerefAliases : Type :=
  | neverDerefAliases | derefInSearching | derefFindingBaseObj | derefAlways.

Module SearchRequest.
Record t : Type := mk {
  baseObject : string;
  scope : Scope;
  derefAliases : DerefAliases;
  sizeLimit : N;
  timeLimit : N;
  typesOnly : bool;
  filter : Filter;
  attributes : list string
}.
End SearchRequest.

(** ** [compile_filter] *)

(** [assertion['attr']] and [assertion['value']] of a node.  The parser
    gives every leaf the keys of its tag; for a hand-built node that lacks
    them the subscript fails. *)
Definition attr_and_value (a : option Assertion) : result (string * string) :=
  match a with
  | Some (AttrValue attr value) => Ok (attr, value)
  | Some (ExtensibleAssertion (Some attr) value _ _) => Ok (attr, value)
  | Some (ExtensibleAssertion None _ _ _) =>
      Raise (TypeError "attribute description is None")
  | Some (PresentAssertion _) | Some (SubstringAssertion _ _ _ _) =>
      Raise (KeyError "value")
  | None => Raise (TypeError "'NoneType' object is not subscriptable")
  end.

(** The substring components, in the order they are stored. *)
Definition compile_substrings (initial : option string) (any : list string)
    (final : option string) : list Substring :=
  (if option_truthy initial then [Initial (default "" initial)] else [])
  ++ List.map Any any
  ++ (if option_truthy final then [Final (default "" final)] else []).

(** [x if x else <unset>] for an optional component. *)
Definition keep_truthy (o : option string) : option string :=
  if option_truthy o then o else None.

Fixpoint compile_filter (filter_node : FilterTree) : result Filter :=
  match filter_node with
  | Tree t a children =>
      let compile_all :=
        fix compile_all (l : list FilterTree) : result (list Filter) :=
          match l with
          | [] => Ok []
          | element :: l' =>
              f ← compile_filter element;
              fs ← compile_all l';
              Ok (f :: fs)
          end in
      match t with
      | AND => fs ← compile_all children; Ok (F_and fs)
      | OR => fs ← compile_all children; Ok (F_or fs)
      | NOT =>
          match children with
          | [] => Raise (IndexError "list index out of range")
          | element :: _ => f ← compile_filter element; Ok (F_notFilter f)
          end
      | MATCH_APPROX =>
          '(attr, value) ← attr_and_value a; Ok (F_approxMatch attr value)
      | MATCH_GREATER_OR_EQUAL =>
          '(attr, value) ← attr_and_value a; Ok (F_greaterOrEqual attr value)
      | MATCH_LESS_OR_EQUAL =>
          '(attr, value) ← attr_and_value a; Ok (F_lessOrEqual attr value)
      | MATCH_EXTENSIBLE =>
          match a with
          | Some (ExtensibleAssertion attr value matchingRule dnAttributes) =>
              Ok (F_extensibleMatch (keep_truthy matchingRule)
                    (keep_truthy attr) value (default false dnAttributes))
          | Some _ => Raise (KeyError "matchingRule")
          | None => Raise (TypeError "'NoneType' object is not subscriptable")
          end
      | MATCH_PRESENT =>
          match a with
          | Some (PresentAssertion attr) | Some (AttrValue attr _)
          | Some (SubstringAssertion attr _ _ _)
          | Some (ExtensibleAssertion (Some attr) _ _ _) => Ok (F_present attr)
          | Some (ExtensibleAssertion None _ _ _) =>
              Raise (TypeError "attribute description is None")
          | None => Raise (TypeError "'NoneType' object is not subscriptable")
          end
      | MATCH_SUBSTRING =>
          match a with
          | Some (SubstringAssertion attr initial any final) =>
              Ok (F_substringFilter attr (compile_substrings initial any final))
          | Some _ => Raise (KeyError "initial")
          | None => Raise (TypeError "'NoneType' object is not subscriptable")
          end
      | MATCH_EQUAL =>
          '(attr, value) ← attr_and_value a; Ok (F_equalityMatch attr value)
      | ROOT => Raise (LDAPException "unknown filter")
      end
  end.

(** [parse_filter(search_filter).elements[0]]. *)
Definition elements_0 (root : FilterTree) : result FilterTree :=
  match root with
  | Tree _ _ children => PySeq.first children
  end.

Definition build_filter (search_filter : string) : result Filter :=
  root ← parse_filter search_filter;
  element ← elements_0 root;
  compile_filter element.

(** The [attributes] argument of [search_operation], by Python type. *)
Inductive PyAttributes : Type :=
  | PyList (items : list string)
  | PyTuple (items : list string)
  | PyStrValue (s : string)
  | PyNone.

(** [isinstance(v, list)]. *)
Definition isinstance_list (v : PyAttributes) : bool :=
  match v with
  | PyList _ => true
  | _ => false
  end.

(** One [Selector] for each item that iterating over the argument yields. *)
Definition build_attribute_selection (attribute_list : PyAttributes)
  : result (list string) :=
  match attribute_list with
  | PyList items | PyTuple items => Ok items
  | PyStrValue s =>
      Ok (List.map (fun c => String c EmptyString) (list_ascii_of_string s))
  | PyNone => Raise (TypeError "'NoneType' object is not iterable")
  end.

Section Operation.

(** The constants imported from [ldap3], whose definitions are in the
    package's [__init__] module. *)
Variables SEARCH_SCOPE_BASE_OBJECT SEARCH_SCOPE_SINGLE_LEVEL
          SEARCH_SCOPE_WHOLE_SUBTREE : Z.
Variables SEARCH_NEVER_DEREFERENCE_ALIASES SEARCH_DEREFERENCE_IN_SEARCHING
          SEARCH_DEREFERENCE_FINDING_BASE_OBJECT SEARCH_DEREFERENCE_ALWAYS : Z.
Variable NO_ATTRIBUTES : string.

(** Modelled from the spec: [Integer0ToMax] of [ldap3.protocol.rfc4511] is
    the type of "size limit and time limit (non-negative integers)", an
    [INTEGER (0 .. maxInt)]; a value above [maxInt] is refused when the
    integer is built, with the constraint error of the ASN.1 library. *)
Variable maxInt : N.

Definition Integer0ToMax (value : N) : result N :=
  if (value <=? maxInt)%N then Ok value else Raise ValueConstraintError.

Definition search_operation (search_base search_filter : string)
    (search_scope dereference_aliases : Z) (attributes : PyAttributes)
    (size_limit time_limit : N) (types_only : bool)
  : result SearchRequest.t :=
  scope ←
    (if Z.eqb search_scope SEARCH_SCOPE_BASE_OBJECT then Ok Scope_baseObject
     else if Z.eqb search_scope SEARCH_SCOPE_SINGLE_LEVEL
          then Ok Scope_singleLevel
     else if Z.eqb search_scope SEARCH_SCOPE_WHOLE_SUBTREE
          then Ok Scope_wholeSubtree
     else Raise (LDAPException "invalid scope type"));
  deref_aliases ←
    (if Z.eqb dereference_aliases SEARCH_NEVER_DEREFERENCE_ALIASES
     then Ok neverDerefAliases
     else if Z.eqb dereference_aliases SEARCH_DEREFERENCE_IN_SEARCHING
          then Ok derefInSearching
     else if Z.eqb dereference_aliases SEARCH_DEREFERENCE_FINDING_BASE_OBJECT
          then Ok derefFindingBaseObj
     else if Z.eqb dereference_aliases SEARCH_DEREFERENCE_ALWAYS
          then Ok derefAlways
     else Raise (LDAPException "invalid dereference aliases type"));
  sizeLimit ← Integer0ToMax size_limit;
  timeLimit ← Integer0ToMax time_limit;
  root ← parse_filter search_filter;
  element ← elements_0 root;
  compiled ← compile_filter element;
  let attributes :=
    if negb (isinstance_list attributes) then PyList [NO_ATTRIBUTES]
    else attributes in
  selection ← build_attribute_selection attributes;
  Ok {| SearchRequest.baseObject := search_base;
        SearchRequest.scope := scope;
        SearchRequest.derefAliases := deref_aliases;
        SearchRequest.sizeLimit := sizeLimit;
        SearchRequest.timeLimit := timeLimit;
        SearchRequest.typesOnly := if types_only then true else false;
        SearchRequest.filter := compiled;
        SearchRequest.attributes := selection |}.

End Operation.

(** ** [filter_to_string] *)

(** Modelled from the spec: [ava_to_dict] of [ldap3.protocol.convert], which
    the decompiler uses to read an attribute value assertion, gives the
    attribute description and the assertion value as text ("equality/
    ordering/approximate matches: (attr<op>value)"). *)
Record AvaDict : Type := mkAvaDict { attribute : string; value : string }.

Definition ava_to_dict (attributeDesc assertionValue : string) : AvaDict :=
  {| attribute := attributeDesc; value := assertionValue |}.

(** One iteration of the loop over the substring components; the text
    built so far is threaded through because [any] looks at its end. *)
Definition substring_to_string (filter_string : string) (substring : Substring)
  : string :=
  match substring with
  | Initial v =>
      if PyStr.truthy v then filter_string +:+ v +:+ "*" else filter_string
  | Any v =>
      if PyStr.truthy v
      then (filter_string
            +:+ (if PyStr.endswith "*" filter_string then v else "*" +:+ v))
           +:+ "*"
      else filter_string
  | Final v =>
      if PyStr.truthy v then filter_string +:+ "*" +:+ v else filter_string
  end.

Section Decompiler.

(** [str()] of an extensible match structure, the text the ASN.1 library
    prints for it. *)
Variable matching_rule_assertion_to_string :
  option string -> option string -> string -> bool -> string.

Fixpoint filter_to_string (filter_object : Filter) : string :=
  let concat_all :=
    fix concat_all (l : list Filter) : string :=
      match l with
      | [] => EmptyString
      | f :: l' => filter_to_string f +:+ concat_all l'
      end in
  match filter_object with
  | F_and filters => ("(" +:+ "&" +:+ concat_all filters) +:+ ")"
  | F_or filters => ("(" +:+ "!" +:+ concat_all filters) +:+ ")"
  | F_notFilter inner => ("(" +:+ "!" +:+ filter_to_string inner) +:+ ")"
  | F_equalityMatch a v =>
      let ava := ava_to_dict a v in
      ("(" +:+ attribute ava +:+ "=" +:+ value ava) +:+ ")"
  | F_substringFilter type_ substrings =>
      fold_left substring_to_string substrings ("(" +:+ type_ +:+ "=")
      +:+ ")"
  | F_greaterOrEqual a v =>
      let ava := ava_to_dict a v in
      ("(" +:+ attribute ava +:+ ">=" +:+ value ava) +:+ ")"
  | F_lessOrEqual a v =>
      let ava := ava_to_dict a v in
      ("(" +:+ attribute ava +:+ "<=" +:+ value ava) +:+ ")"
  | F_present a => ("(" +:+ a +:+ "=*") +:+ ")"
  | F_approxMatch a v =>
      let ava := ava_to_dict a v in
      ("(" +:+ attribute ava +:+ "~=" +:+ value ava) +:+ ")"
  | F_extensibleMatch matchingRule type_ matchValue dnAttributes =>
      ("(" +:+ matching_rule_assertion_to_string matchingRule type_
                 matchValue dnAttributes) +:+ ")"
  end.

(** [filter_to_string(compile_filter(parse_filter(F).elements[0]))]. *)
Definition decompile_compiled (F : string) : result string :=
  compiled ← build_filter F;
  Ok (filter_to_string compiled).

End Decompiler.

(** ** The entry decoder *)

(** Modelled from the spec: the values of an entry response are octet
    strings ("list of text values", "a parallel raw-bytes attribute map").
    A value is embedded as the octets it carries: [bytes(val)] gives them
    and [if val] tests that there is at least one. *)
Abbreviation octets := (list Byte.byte).

(** An attribute of an entry response: its description and its values. *)
Record PartialAttribute : Type := mkPartialAttribute {
  type : octets;
  vals : list octets
}.

Module SearchResultEntry.
Record t : Type := mk {
  object : octets;
  attributes : list PartialAttribute
}.
End SearchResultEntry.

Module EntryDict.
Record t : Type := mk {
  dn : string;
  attributes : gmap string (option (list string));
  raw_attributes : gmap string (option (list octets))
}.
End EntryDict.

(** [bool(val)] for an octet string. *)
Definition truthy_octets (val : octets) : bool :=
  match val with
  | [] => false
  | _ :: _ => true
  end.

(** [None] stands for Python's [None]. *)
Definition decode_raw_vals (vals : list octets) : option (list octets) :=
  match vals with
  | _ :: _ => Some vals
  | [] => None
  end.

Section Decoder.

(** [str()] of the three kinds of octet string of an entry: the text that
    the ASN.1 library decodes from the octets of a distinguished name, of
    an attribute description and of an attribute value. *)
Variables str_LDAPDN str_AttributeDescription str_AttributeValue
  : octets -> string.

(** The test is on the value, the text is taken afterwards. *)
Definition decode_vals (vals : list octets) : option (list string) :=
  match vals with
  | _ :: _ =>
      Some (List.map str_AttributeValue (List.filter truthy_octets vals))
  | [] => None
  end.

Definition attributes_to_dict (attribute_list : list PartialAttribute)
  : gmap string (option (list string)) :=
  fold_left (fun attributes attribute =>
               <[str_AttributeDescription (type attribute)
                 := decode_vals (vals attribute)]> attributes)
    attribute_list ∅.

Definition raw_attributes_to_dict (attribute_list : list PartialAttribute)
  : gmap string (option (list octets)) :=
  fold_left (fun attributes attribute =>
               <[str_AttributeDescription (type attribute)
                 := decode_raw_vals (vals attribute)]> attributes)
    attribute_list ∅.

Definition search_result_entry_response_to_dict (response : SearchResultEntry.t)
  : EntryDict.t :=
  {| EntryDict.dn := str_LDAPDN (SearchResultEntry.object response);
     EntryDict.attributes :=
       attributes_to_dict (SearchResultEntry.attributes response);
     EntryDict.raw_attributes :=
       raw_attributes_to_dict (SearchResultEntry.attributes response) |}.

End Decoder.

(** Two decoders to run the code on: one octet, one character; and text
    in us-ascii, the other octets passed over. *)
Definition decode_latin1 (val : octets) : string := string_of_list_byte val.

Definition decode_ascii_ignore (val : octets) : string :=
  string_of_list_byte
    (List.filter (fun b => (Byte.to_N b <? 128)%N) val).

(** ** Shapes used to state the properties *)

(** The assertion that [evaluate_match] builds for a tag: the keys of the
    tag, and for an extensible match an attribute or a matching rule and a
    [dnAttributes] that is [None] or [True]. *)
Definition leaf_fits (t : Tag) (a : option Assertion) : bool :=
  match t, a with
  | (MATCH_APPROX | MATCH_GREATER_OR_EQUAL | MATCH_LESS_OR_EQUAL
     | MATCH_EQUAL), Some (AttrValue _ _) => true
  | MATCH_EXTENSIBLE, Some (ExtensibleAssertion attr _ rule dn) =>
      (bool_decide (is_Some attr) || bool_decide (is_Some rule))
      && negb (bool_decide (dn = Some false))
  | MATCH_PRESENT, Some (PresentAssertion _) => true
  | MATCH_SUBSTRING, Some (SubstringAssertion _ _ _ _) => true
  | _, _ => false
  end.

(** A result other than a given exception. *)
Definition avoids {A} (e : exn) (r : result A) : Prop := r <> Raise e.

(** The three boolean operators. *)
Definition is_operator (t : Tag) : bool :=
  match t with
  | AND | OR | NOT => true
  | _ => false
  end.

(** A node below [ROOT] as the parser builds it: an operator without
    assertion, or a leaf with the assertion of its tag and no elements. *)
Definition node_ok (n : FilterNode) : Prop :=
  if is_operator (tag n) then assertion n = None
  else leaf_fits (tag n) (assertion n) = true /\ elements n = [].

(** A tree below [ROOT] as a finished parse leaves it: every operator has
    at least one operand, every leaf has the assertion of its tag and no
    children. *)
Fixpoint well_formed (t : FilterTree) : bool :=
  match t with
  | Tree tg a children =>
      if is_operator tg
      then bool_decide (a = None)
           && match children with [] => false | _ :: _ => true end
           && forallb well_formed children
      else leaf_fits tg a
           && match children with [] => true | _ :: _ => false end
  end.

(** The store as the parser builds it: [ROOT] at reference 0, below it
    operators and leaves, and every parent an operator or [ROOT]. *)
Record heap_inv (h : heap) : Prop := mk_heap_inv {
  hinv_root :
    exists root, h !! 0 = Some root /\ tag root = ROOT
                 /\ assertion root = None;
  hinv_nodes : forall i n, h !! S i = Some n -> node_ok n;
  hinv_parent :
    forall i n p, h !! i = Some n -> parent n = Some (S p) ->
      exists m, h !! S p = Some m /\ is_operator (tag m) = true
}.

(** What the scanning loop keeps true of its variables, before the
    character at [pos] is read: the cursor is never on a leaf; an operator
    without operand is the one under the cursor, and a clause or a group
    is then open; outside the state that follows a [)] the flag
    [just_closed] is down, and a clause that is being read has its start
    recorded. *)
Record scan_inv (pos : nat) (s : Scan) : Prop := mk_scan_inv {
  inv_heap : heap_inv (store s);
  inv_cursor :
    forall i, current_node s = Some (S i) ->
      exists n, store s !! S i = Some n /\ is_operator (tag n) = true;
  inv_empty :
    forall i n, store s !! S i = Some n -> is_operator (tag n) = true ->
      elements n = [] ->
      current_node s = Some (S i) /\ state s <> SEARCH_OPEN_OR_CLOSE;
  inv_open :
    state s <> SEARCH_OPEN_OR_CLOSE -> just_closed s = false /\ 1 <= pos;
  inv_token :
    state s = SEARCH_MATCH_OR_CLOSE -> pos_truthy (start_pos s) = true
}.

(** A string of white space, as [str.strip()] sees it. *)
Fixpoint all_space (s : string) : bool :=
  match s with
  | EmptyString => true
  | String c s' => PyStr.isspace c && all_space s'
  end.

(** Text without white space and without the characters that have a
    meaning in a filter. *)
Definition plain_char (c : ascii) : bool :=
  negb (PyStr.isspace c) && negb (char_in c "()&|!=<>~:*\").

Fixpoint plain (s : string) : bool :=
  match s with
  | EmptyString => true
  | String c s' => plain_char c && plain s'
  end.

(** The compiled filters whose text parses back to them: conjunctions
    with at least one operand, negations, and equality, ordering and
    presence matches on plain text. *)
Fixpoint comes_back (f : Filter) : bool :=
  match f with
  | F_and filters =>
      match filters with
      | [] => false
      | _ :: _ => forallb comes_back filters
      end
  | F_notFilter inner => comes_back inner
  | F_equalityMatch a v | F_greaterOrEqual a v | F_lessOrEqual a v =>
      plain a && plain v
  | F_present a => plain a
  | _ => false
  end.

(** The tree that compiles to a filter of [comes_back] (the other
    alternatives are not used). *)
Fixpoint filter_tree (f : Filter) : FilterTree :=
  match f with
  | F_and filters => Tree AND None (List.map filter_tree filters)
  | F_or filters => Tree OR None (List.map filter_tree filters)
  | F_notFilter inner => Tree NOT None [filter_tree inner]
  | F_equalityMatch a v => Tree MATCH_EQUAL (Some (AttrValue a v)) []
  | F_greaterOrEqual a v =>
      Tree MATCH_GREATER_OR_EQUAL (Some (AttrValue a v)) []
  | F_lessOrEqual a v => Tree MATCH_LESS_OR_EQUAL (Some (AttrValue a v)) []
  | F_present a => Tree MATCH_PRESENT (Some (PresentAssertion a)) []
  | F_approxMatch a v => Tree MATCH_APPROX (Some (AttrValue a v)) []
  | F_substringFilter a _ =>
      Tree MATCH_SUBSTRING (Some (SubstringAssertion a None [] None)) []
  | F_extensibleMatch rule a v dn =>
      Tree MATCH_EXTENSIBLE (Some (ExtensibleAssertion a v rule (Some dn))) []
  end.

(** The store after [self.append(node)], when [self] is in the store. *)
Definition push (h : heap) (i : nat) (node : FilterNode) : heap :=
  match append h (Some i) node with
  | Ok (h', _) => h'
  | Raise _ => h
  end.

(** The store after a whole tree has been appended under node [i], node
    after node, each operator before its operands: the order in which the
    scan makes the nodes. *)
Fixpoint graft (t : FilterTree) (h : heap) (i : nat) : heap :=
  match t with
  | Tree tg a children =>
      let r := length h in
      fold_left (fun h' c => graft c h' r) children
        (push h i (new_FilterNode tg a))
  end.

(** The node at reference [r] and the nodes below it make up the tree. *)
#[warnings="-register-all"]
Inductive represents (h : heap) : nat -> FilterTree -> Prop :=
  | represents_node (r : nat) (n : FilterNode) (children : list FilterTree) :
      h !! r = Some n ->
      Forall2 (represents h) (elements n) children ->
      represents h r (Tree (tag n) (assertion n) children).

(** The texts of a list of filters, one after the other. *)
Definition concat_texts (m : option string -> option string -> string -> bool -> string)
    (filters : list Filter) : string :=
  fold_right (fun f acc => filter_to_string m f +:+ acc) EmptyString filters.

(** The scan of the text of a filter, from a place where a filter may
    begin and with the cursor on node [i], appends the tree of the filter
    under the cursor and leaves the scanner as after any closed filter. *)
Definition scans_to_tree
    (m : option string -> option string -> string -> bool -> string)
    (f : Filter) : Prop :=
  forall (sf : string) (pos : nat) (post : string) (st : ScannerState)
         (sk jc : bool) (h : heap) (i : nat) (n : FilterNode),
    PyStr.drop pos sf = filter_to_string m f +:+ post ->
    st = SEARCH_OPEN \/ st = SEARCH_OPEN_OR_CLOSE ->
    heap_wf h ->
    h !! i = Some n ->
    (tag n = NOT -> elements n = []) ->
    scan sf (filter_to_string m f) pos
      {| state := st; store := h; current_node := Some i; start_pos := None;
         skip_white_space := sk; just_closed := jc |}
    = Ok {| state := SEARCH_OPEN_OR_CLOSE;
            store := graft (filter_tree f) h i;
            current_node := Some i; start_pos := None;
            skip_white_space := true; just_closed := true |}.

(** The first filter under [ROOT] is a negation: the first element of
    [ROOT] is reference 1 and the node there has the tag [NOT]. *)
Definition first_is_not (h : heap) : Prop :=
  (exists root rest, h !! 0 = Some root /\ elements root = 1 :: rest)
  /\ exists n1, h !! 1 = Some n1 /\ tag n1 = NOT.

(** The exceptions that leave [parse_filter]: the six errors of the filter
    grammar, and the two built-in ones. *)
Definition parse_exception (e : exn) : Prop :=
  (exists msg,
     e = LDAPException msg
     /\ msg ∈ ["invalid filter"; "malformed filter";
               "missing boolean operator in filter";
               "Not clause in filter cannot be multiple";
               "invalid matching assertion"; "invalid extensible filter"])
  \/ (exists msg, e = ValueError msg)
  \/ (exists msg, e = AttributeError msg).

(** A result that, when it is an exception, is one of a given kind. *)
Definition raises_only {A} (P : exn -> Prop) (r : result A) : Prop :=
  forall e, r = Raise e -> P e.

(** The text before [:=] in an extensible match:
    [attr[:dn][:matchingRule]]. *)
Definition extensible_left (attr : string) (flag rule : option string)
  : string :=
  attr +:+ from_option (fun d => ":" +:+ d) "" flag
       +:+ from_option (fun r => ":" +:+ r) "" rule.

(** The matching rule of the assertion, from the text of the rule. *)
Definition rule_of_text (rule : option string) : option string :=
  r ← rule;
  if decide (validate_assertion_value r = "") then None
  else Some (PyStr.strip (validate_assertion_value r)).

(** A component of a substring filter as it can be written in a filter:
    plain text, not empty. *)
Definition text_component (s : string) : bool := plain s && PyStr.truthy s.

(** The text of the [any] components after a text that ends with [*]. *)
Definition anys_text (any : list string) : string :=
  fold_right (fun x acc => x +:+ "*" +:+ acc) "" any.

(** The text after [=] that [filter_to_string] writes for the components
    [compile_substrings initial any final]. *)
Definition substrings_text (initial : option string) (any : list string)
    (final : option string) : string :=
  let fin := from_option (fun s => "*" +:+ s) "" final in
  match initial, any with
  | Some s, _ => s +:+ "*" +:+ anys_text any +:+ fin
  | None, x :: xs => "*" +:+ x +:+ "*" +:+ anys_text xs +:+ fin
  | None, [] => fin
  end.

(** * Properties *)

(** Inversion of a successful bind. *)
Lemma bind_Ok {A B} (r : result A) (f : A -> result B) (b : B) :
  r ≫= f = Ok b -> exists a, r = Ok a /\ f a = Ok b.
Proof. destruct r as [a|e]; [|discriminate]. intros H. now exists a. Qed.

Ltac bind_inv H :=
  let a := fresh "a" in
  let Ha := fresh "Ha" in
  apply bind_Ok in H; destruct H as (a & Ha & H).

(** ** Facts about the string methods *)

Section StringFacts.

Lemma app_cons c (s t : string) : String c s +:+ t = String c (s +:+ t).
Proof. reflexivity. Qed.

Lemma app_empty_l (s : string) : "" +:+ s = s.
Proof. reflexivity. Qed.

Lemma startswith_split (p s : string) :
  PyStr.startswith p s = true -> s = p +:+ PyStr.drop (String.length p) s.
Proof.
  revert s. induction p as [|a p IH]; intros s H.
  - reflexivity.
  - destruct s as [|b s]; simpl in H; [discriminate|].
    destruct (Ascii.eqb a b) eqn:E; [|discriminate].
    apply Ascii.eqb_eq in E. subst b.
    rewrite app_cons. simpl. f_equal. now apply IH.
Qed.

Lemma startswith_empty_r (p : string) :
  PyStr.startswith p "" = true -> p = "".
Proof. destruct p; [reflexivity|discriminate]. Qed.

(** When the separator occurs, [partition] cuts the string around it. *)
Lemma partition_found (sep s : string) :
  PyStr.contains sep s = true ->
  exists l r, PyStr.partition sep s = (l, sep, r) /\ s = l +:+ sep +:+ r.
Proof.
  induction s as [|c s IH]; intros H.
  - simpl in H. apply startswith_empty_r in H. subst sep.
    exists "", "". split; reflexivity.
  - simpl in H. cbn [PyStr.partition].
    destruct (PyStr.startswith sep (String c s)) eqn:E.
    + exists "", (PyStr.drop (String.length sep) (String c s)).
      split; [reflexivity|]. rewrite app_empty_l.
      now apply startswith_split.
    + simpl in H. destruct (IH H) as (l & r & Hp & Hs).
      rewrite Hp. exists (String c l), r. split; [reflexivity|].
      rewrite app_cons. now f_equal.
Qed.

(** The left part that [partition] returns for a one-character separator
    does not contain the separator: the cut is at its first occurrence. *)
Lemma partition_left_free (c : ascii) (s l m r : string) :
  PyStr.partition (String c "") s = (l, m, r) ->
  PyStr.contains (String c "") l = false.
Proof.
  revert l m r. induction s as [|b s IH]; intros l m r H.
  - simpl in H. now inversion H.
  - cbn [PyStr.partition] in H.
    destruct (PyStr.startswith (String c "") (String b s)) eqn:E.
    + now inversion H.
    + destruct (PyStr.partition (String c "") s) as [[l' m'] r'] eqn:Hp.
      specialize (IH l' m' r' eq_refl).
      inversion H; subst. simpl. simpl in E.
      destruct (Ascii.eqb c b); [discriminate|].
      simpl. exact IH.
Qed.

Lemma split_from_nonempty (sep : string) (skip : nat) (s : string) :
  PyStr.split_from sep skip s <> [].
Proof.
  revert skip. induction s as [|b s IH]; intros skip; simpl.
  - discriminate.
  - destruct skip; [|apply IH].
    destruct (PyStr.startswith sep (String b s)); [discriminate|].
    destruct (PyStr.split_from sep 0 s); discriminate.
Qed.

Lemma join_cons_nonempty (sep p : string) (ps : list string) :
  ps <> [] -> PyStr.join sep (p :: ps) = p +:+ sep +:+ PyStr.join sep ps.
Proof. destruct ps; [congruence|reflexivity]. Qed.

Lemma join_cons_head (sep : string) c (p : string) (ps : list string) :
  PyStr.join sep (String c p :: ps) = String c (PyStr.join sep (p :: ps)).
Proof. destruct ps; reflexivity. Qed.



End StringFacts.

(** ** Facts about indexing and slicing *)




(** ** The leaf classifier *)

(** C1, at the input of the claim.  The clause [cn~=Bob] holds the
    operator once, so [split] gives two parts and unpacking them into three
    names raises [ValueError]: no approximate-match node is built. *)
Theorem evaluate_match_approx_unpack_fails :
  evaluate_match "cn~=Bob"
  = Raise (ValueError "not enough values to unpack (expected 3, got 2)").
Proof. vm_compute. reflexivity. Qed.

(** The approximate branch returns a node only for a clause that holds the
    operator exactly twice, and then the text between the two is lost. *)
Lemma evaluate_match_approx_two_operators :
  evaluate_match "cn~=Bo~=b"
  = Ok (new_FilterNode MATCH_APPROX (Some (AttrValue "cn" "b"))).
Proof. vm_compute. reflexivity. Qed.

(** The sibling branch for [>=], which uses [partition], splits on the
    first occurrence as the text of the classifier describes. *)
Lemma evaluate_match_greater_or_equal_partition :
  evaluate_match "cn>=Bob"
  = Ok (new_FilterNode MATCH_GREATER_OR_EQUAL (Some (AttrValue "cn" "Bob"))).
Proof. vm_compute. reflexivity. Qed.

(** C3, at the input of the claim.  The result of the last [replace] is not
    assigned, so the sequence [\00] stays in the value and no NUL character
    appears. *)
Theorem validate_assertion_value_keeps_00 :
  validate_assertion_value "a\00b" = "a\00b"
  /\ PyStr.contains NUL (validate_assertion_value "a\00b") = false.
Proof. split; vm_compute; reflexivity. Qed.

(** The other escape sequences are replaced. *)
Lemma validate_assertion_value_other_escapes :
  validate_assertion_value " \2a\2A\28\29\5c\5C " = "**()\\".
Proof. vm_compute. reflexivity. Qed.



(** ** The parser *)

(** C4, at two inputs.  Both strings pass the checks made before the scan
    (not empty, as many [(] as [)], first character [(], last one [)]).
    The first reaches the approximate branch of the classifier and leaves
    with the [ValueError] of the failed unpacking; in the second the cursor
    has gone from [ROOT] to its parent, which is [None], when [&] asks it to
    append a node, and the scan leaves with [AttributeError].  Neither is an
    [LDAPException]. *)
Theorem parse_filter_other_exceptions :
  parse_filter "(cn~=Bob)"
  = Raise (ValueError "not enough values to unpack (expected 3, got 2)")
  /\ parse_filter "(a=b))(&(c=d)"
     = Raise (AttributeError "'NoneType' object has no attribute 'append'").
Proof. split; vm_compute; reflexivity. Qed.

(** A third way out: a third [)] in a row asks [None] for its parent. *)
Lemma parse_filter_parent_of_None :
  parse_filter "(a=b)))((&(c=d)"
  = Raise (AttributeError "'NoneType' object has no attribute 'parent'").
Proof. vm_compute. reflexivity. Qed.

(** C5, as the code has it: the scanner is in the state that expects a
    match or a control character after [(], and [)] is neither, so the scan
    stops with "malformed filter" before the children of [ROOT] are
    counted. *)
Theorem parse_filter_empty_parentheses :
  parse_filter "()" = Raise (LDAPException "malformed filter").
Proof. vm_compute. reflexivity. Qed.

(** C5 as stated does not hold. *)
Lemma parse_filter_empty_parentheses_counterexample :
  parse_filter "()"
  <> Raise (LDAPException "missing boolean operator in filter").
Proof. vm_compute. discriminate. Qed.

(** The count of the children of [ROOT] is what rejects two filters side by
    side. *)
Lemma parse_filter_two_top_level_filters :
  parse_filter "(cn=a)(sn=b)"
  = Raise (LDAPException "missing boolean operator in filter").
Proof. vm_compute. reflexivity. Qed.

(** C8, at an input where the second child of [NOT] is an operator node.
    The test that guards [NOT] is made where a leaf is appended, not where
    [&], [|] or [!] appends a node: the filter parses, [NOT] ends with two
    children, and compiling keeps the first one only. *)
Theorem parse_filter_not_with_two_children :
  parse_filter "(!(cn=Bob)(&(sn=X)))"
  = Ok (Tree ROOT None
          [Tree NOT None
             [Tree MATCH_EQUAL (Some (AttrValue "cn" "Bob")) [];
              Tree AND None
                [Tree MATCH_EQUAL (Some (AttrValue "sn" "X")) []]]])
  /\ build_filter "(!(cn=Bob)(&(sn=X)))"
     = Ok (F_notFilter (F_equalityMatch "cn" "Bob")).
Proof. split; vm_compute; reflexivity. Qed.

(** The two inputs of C8: a second leaf under [NOT] is refused, a single
    child is accepted. *)
Lemma parse_filter_not_second_leaf :
  parse_filter "(!(cn=Bob)(sn=X))"
  = Raise (LDAPException "Not clause in filter cannot be multiple").
Proof. vm_compute. reflexivity. Qed.

Lemma parse_filter_not_one_child :
  parse_filter "(!(cn=Bob))"
  = Ok (Tree ROOT None
          [Tree NOT None [Tree MATCH_EQUAL (Some (AttrValue "cn" "Bob")) []]]).
Proof. vm_compute. reflexivity. Qed.

(** The step that appends a leaf, in general: on a first [)] with a token
    pending, a cursor on a [NOT] node that has a child stops the scan. *)
Lemma scan_char_not_second_leaf (search_filter : string) (s : Scan)
    (pos i : nat) (n : FilterNode) :
  state s = SEARCH_MATCH_OR_CLOSE \/ state s = SEARCH_OPEN_OR_CLOSE ->
  just_closed s = false ->
  pos_truthy (start_pos s) = true ->
  current_node s = Some i ->
  store s !! i = Some n ->
  tag n = NOT ->
  elements n <> [] ->
  scan_char search_filter s pos ")"
  = Raise (LDAPException "Not clause in filter cannot be multiple").
Proof.
  intros Hst Hjc Hsp Hcur Hn Htag Hel.
  unfold scan_char. rewrite Hjc, Hsp, Hcur.
  replace (char_in ")" PyStr.whitespace) with false by reflexivity.
  rewrite andb_false_r. unfold deref. rewrite Hn. cbn.
  rewrite Htag.
  destruct (elements n) as [|e es]; [congruence|].
  destruct Hst as [-> | ->]; reflexivity.
Qed.

(** *** The store of the scan

    The store that a scan leaves is one that [append] built, so reading
    the tree below [ROOT] with one unit of fuel for each node succeeds:
    [parse_filter] never takes its [RecursionError] exit. *)

Lemma evaluate_match_elements (clause : string) (n : FilterNode) :
  evaluate_match clause = Ok n -> elements n = [].
Proof.
  unfold evaluate_match. intros H.
  repeat first
    [ discriminate H
    | progress (inversion H; subst; clear H); reflexivity
    | bind_inv H
    | match type of H with
      | context [if ?b then _ else _] => destruct b
      | context [let '(_, _) := ?p in _] => destruct p
      | context [match ?x with _ => _ end] => destruct x
      end ].
Qed.

Lemma append_wf (h h' : heap) (self : option nat) (node : FilterNode)
    (r : nat) :
  heap_wf h -> elements node = [] ->
  append h self node = Ok (h', r) ->
  heap_wf h' /\ length h' = S (length h).
Proof.
  intros Hwf Hel H. unfold append in H. bind_inv H.
  destruct a as [i n]. inversion H; subst; clear H.
  unfold deref in Ha. destruct self as [i'|]; [|discriminate].
  destruct (h !! i') as [n'|] eqn:Hi; [|discriminate].
  inversion Ha; subst; clear Ha.
  assert (Hlt : i < length h) by (eapply lookup_lt_Some; eassumption).
  split.
  - intros j m Hj. rewrite length_app, length_insert. cbn [length].
    destruct (decide (j = length h)) as [->|Hne].
    + rewrite lookup_app_r in Hj by (rewrite length_insert; lia).
      rewrite length_insert, Nat.sub_diag in Hj.
      inversion Hj; subst. cbn. rewrite Hel. constructor.
    + assert (Hj' : j < length h).
      { apply lookup_lt_Some in Hj.
        rewrite length_app, length_insert in Hj. cbn in Hj. lia. }
      rewrite lookup_app_l in Hj by (rewrite length_insert; lia).
      destruct (decide (j = i)) as [->|Hji].
      * rewrite list_lookup_insert_eq in Hj by lia.
        inversion Hj; subst. cbn. apply Forall_app. split.
        -- eapply Forall_impl; [apply (Hwf i n Hi)|]. cbn. intros; lia.
        -- repeat constructor; lia.
      * rewrite list_lookup_insert_ne in Hj by congruence.
        eapply Forall_impl; [apply (Hwf j m Hj)|]. cbn. intros; lia.
  - rewrite length_app, length_insert. cbn. lia.
Qed.

Lemma scan_char_wf (search_filter : string) (s s' : Scan) (pos : nat)
    (c : ascii) :
  heap_wf (store s) -> scan_char search_filter s pos c = Ok s' ->
  heap_wf (store s') /\ length (store s) <= length (store s').
Proof.
  intros Hwf H. unfold scan_char in H.
  repeat match type of H with
         | (if ?b then _ else _) = _ => destruct b
         end;
    try discriminate H.
  - inversion H; subst. auto.
  - inversion H; subst. auto.
  - bind_inv H. destruct a as [h r]. inversion H; subst; clear H. cbn.
    apply append_wf in Ha; [|assumption|reflexivity].
    destruct Ha as [? Hlen]. rewrite Hlen. split; [assumption|lia].
  - bind_inv H. destruct a as [? n]. inversion H; subst; clear H. auto.
  - bind_inv H. inversion H; subst; clear H. cbn.
    destruct (pos_truthy (start_pos s)).
    + bind_inv Ha. destruct a0 as [? n].
      destruct (bool_decide (tag n = NOT) && (0 <? length (elements n)));
        [discriminate|].
      bind_inv Ha. bind_inv Ha. destruct a1 as [h ?].
      inversion Ha; subst; clear Ha.
      apply evaluate_match_elements in Ha1.
      apply append_wf in Ha2; [|assumption..].
      destruct Ha2 as [? Hlen]. rewrite Hlen. split; [assumption|lia].
    + inversion Ha; subst. auto.
  - inversion H; subst. auto.
Qed.

Lemma scan_wf (search_filter rest : string) (pos : nat) (s s' : Scan) :
  heap_wf (store s) -> scan search_filter rest pos s = Ok s' ->
  heap_wf (store s') /\ length (store s) <= length (store s').
Proof.
  revert pos s. induction rest as [|c rest IH]; intros pos s Hwf H.
  - inversion H; subst. auto.
  - cbn [scan] in H. bind_inv H.
    destruct (scan_char_wf _ _ _ _ _ Hwf Ha) as [Hwf' Hlen].
    destruct (IH _ _ Hwf' H) as [? ?]. split; [assumption|lia].
Qed.

Lemma tree_of_wf (h : heap) :
  heap_wf h ->
  forall fuel r, r < length h -> length h - r <= fuel ->
    is_Some (tree_of fuel h r).
Proof.
  intros Hwf. induction fuel as [|fuel IH]; intros r Hr Hfuel; [lia|].
  destruct (lookup_lt_is_Some_2 h r Hr) as [n Hn].
  cbn [tree_of]. rewrite Hn. cbn.
  assert (Hch : is_Some (mapM (tree_of fuel h) (elements n))).
  { apply mapM_is_Some. eapply Forall_impl; [apply (Hwf r n Hn)|].
    cbn. intros j [? ?]. apply IH; lia. }
  destruct Hch as [children ->]. cbn. eauto.
Qed.

(** A scan of a whole filter that ends leaves a store whose tree can be
    read. *)
Lemma scan_tree_of (search_filter : string) (s : Scan) :
  scan search_filter search_filter 0 initial_scan = Ok s ->
  is_Some (tree_of (length (store s)) (store s) root_ref).
Proof.
  intros H. apply scan_wf in H.
  - destruct H as [Hwf Hlen]. cbn in Hlen.
    apply tree_of_wf; [assumption|unfold root_ref; lia..].
  - intros i n Hi. destruct i; [|discriminate].
    inversion Hi; subst. constructor.
Qed.

(** No step of the parser raises [RecursionError] either, so that exit is
    never taken. *)

Lemma no_rec_bind {A B} (r : result A) (f : A -> result B) :
  no_rec r -> (forall a, no_rec (f a)) -> no_rec (r ≫= f).
Proof.
  destruct r as [a|e]; intros Hr Hf; cbn; [apply Hf|].
  intros H. apply Hr. now inversion H.
Qed.

Ltac no_rec_step :=
  first
    [ apply no_rec_bind; [|intros ?]
    | match goal with
      | |- no_rec (Ok _) => discriminate
      | |- no_rec (Raise _) => discriminate
      | |- no_rec invalid_extensible => discriminate
      | |- no_rec (if ?b then _ else _) => destruct b
      | |- no_rec (let '(_, _) := ?p in _) => destruct p
      | |- no_rec (match ?x with _ => _ end) => destruct x
      end ].

Lemma evaluate_match_no_rec (clause : string) : no_rec (evaluate_match clause).
Proof.
  unfold evaluate_match, PySeq.unpack3, PySeq.first, PySeq.last,
    extensible_parts.
  repeat no_rec_step.
Qed.

Lemma deref_no_rec (h : heap) (r : option nat) (attribute : string) :
  no_rec (deref h r attribute).
Proof. unfold deref. repeat no_rec_step. Qed.

Lemma append_no_rec (h : heap) (self : option nat) (node : FilterNode) :
  no_rec (append h self node).
Proof. unfold append. apply no_rec_bind; [apply deref_no_rec|]. intros [? ?]. discriminate. Qed.

Lemma scan_char_no_rec (search_filter : string) (s : Scan) (pos : nat)
    (c : ascii) :
  no_rec (scan_char search_filter s pos c).
Proof.
  unfold scan_char.
  repeat first
    [ apply deref_no_rec | apply append_no_rec | apply evaluate_match_no_rec
    | no_rec_step ].
Qed.

Lemma scan_no_rec (search_filter rest : string) (pos : nat) (s : Scan) :
  no_rec (scan search_filter rest pos s).
Proof.
  revert pos s. induction rest as [|c rest IH]; intros pos s; cbn [scan].
  - discriminate.
  - apply no_rec_bind; [apply scan_char_no_rec|]. intros s'. apply IH.
Qed.

Lemma no_rec_bind_Ok {A B} (r : result A) (f : A -> result B) :
  no_rec r -> (forall a, r = Ok a -> no_rec (f a)) -> no_rec (r ≫= f).
Proof.
  destruct r as [a|e]; intros Hr Hf; cbn; [now apply Hf|].
  intros H. apply Hr. now inversion H.
Qed.

Lemma parse_filter_no_RecursionError (search_filter : string) :
  parse_filter search_filter <> Raise RecursionError.
Proof.
  unfold parse_filter.
  destruct (_ && _); [|discriminate].
  apply no_rec_bind_Ok; [apply scan_no_rec|]. intros s Hscan.
  apply no_rec_bind; [apply deref_no_rec|]. intros [? root].
  destruct (negb _); [discriminate|].
  destruct (scan_tree_of _ _ Hscan) as [t ->]. discriminate.
Qed.

(** *** The children of [ROOT]

    A scan that ends has given [ROOT] a child: the string starts with [(],
    what follows is an operator, which is appended to [ROOT], or a clause,
    which is appended when its [)] comes, and the string ends with [)].
    The count of the children at the end of [parse_filter] can therefore
    only refuse a [ROOT] with several children. *)

Lemma append_keeps_child (h h' : heap) (self : option nat) (node : FilterNode)
    (r : nat) :
  root_has_child h -> append h self node = Ok (h', r) -> root_has_child h'.
Proof.
  intros (root & Hroot & Hne) H. unfold append in H. bind_inv H.
  destruct a as [i n]. inversion H; subst; clear H.
  unfold deref in Ha. destruct self as [i'|]; [|discriminate].
  destruct (h !! i') as [n'|] eqn:Hi; [|discriminate].
  inversion Ha; subst; clear Ha.
  assert (Hlt : i < length h) by (eapply lookup_lt_Some; eassumption).
  destruct (decide (i = 0)) as [->|Hi0].
  - eexists. split.
    + rewrite lookup_app_l by (rewrite length_insert; lia).
      apply list_lookup_insert_eq. lia.
    + cbn. intros Happ. apply app_eq_nil in Happ. destruct Happ; discriminate.
  - exists root. split; [|assumption].
    rewrite lookup_app_l by (rewrite length_insert; lia).
    rewrite list_lookup_insert_ne by congruence. exact Hroot.
Qed.

Lemma append_to_root (h h' : heap) (node : FilterNode) (r : nat) :
  append h (Some 0) node = Ok (h', r) -> root_has_child h'.
Proof.
  intros H. unfold append in H. bind_inv H.
  destruct a as [i n]. inversion H; subst; clear H.
  unfold deref in Ha. destruct (h !! 0) as [n'|] eqn:Hi; [|discriminate].
  inversion Ha; subst; clear Ha.
  assert (Hlt : 0 < length h) by (eapply lookup_lt_Some; eassumption).
  eexists. split.
  - rewrite lookup_app_l by (rewrite length_insert; lia).
    apply list_lookup_insert_eq. lia.
  - cbn. intros Happ. apply app_eq_nil in Happ. destruct Happ; discriminate.
Qed.

Lemma scan_char_keeps_child (search_filter : string) (s s' : Scan)
    (pos : nat) (c : ascii) :
  root_has_child (store s) -> scan_char search_filter s pos c = Ok s' ->
  root_has_child (store s').
Proof.
  intros Hc H. unfold scan_char in H.
  repeat match type of H with
         | (if ?b then _ else _) = _ => destruct b
         end;
    try discriminate H.
  - inversion H; subst. assumption.
  - inversion H; subst. assumption.
  - bind_inv H. destruct a as [h r]. inversion H; subst; clear H. cbn.
    eapply append_keeps_child; eassumption.
  - bind_inv H. destruct a as [? n]. inversion H; subst; clear H. assumption.
  - bind_inv H. inversion H; subst; clear H. cbn.
    destruct (pos_truthy (start_pos s)).
    + bind_inv Ha. destruct a0 as [? n].
      destruct (bool_decide (tag n = NOT) && (0 <? length (elements n)));
        [discriminate|].
      bind_inv Ha. bind_inv Ha. destruct a1 as [h ?].
      inversion Ha; subst; clear Ha.
      eapply append_keeps_child; eassumption.
    + inversion Ha; subst. assumption.
  - inversion H; subst. assumption.
Qed.

Lemma pos_truthy_start (sp : option nat) (pos : nat) :
  1 <= pos -> pos_truthy (if pos_truthy sp then sp else Some pos) = true.
Proof.
  intros Hpos. destruct (pos_truthy sp) eqn:E; [exact E|].
  destruct pos; [lia|reflexivity].
Qed.

Lemma scan_char_pending (search_filter : string) (s s' : Scan) (pos : nat)
    (c : ascii) :
  1 <= pos -> pending_at_root s ->
  scan_char search_filter s pos c = Ok s' ->
  root_has_child (store s') \/ pending_at_root s'.
Proof.
  intros Hpos (Hcur & Hjc & (root & Hroot & Htag) & Hst) H.
  destruct s as [st h cur sp sk jc]. cbn in *. subst cur jc.
  unfold scan_char in H. cbn [state store current_node start_pos
                                skip_white_space just_closed] in H.
  destruct Hst as [-> | (-> & Hsp & ->)].
  - (* a match or a control character is expected *)
    destruct (sk && char_in c PyStr.whitespace).
    { inversion H; subst. right. repeat split; eauto. }
    repeat (case_bool_decide; try congruence). cbn [orb andb] in H.
    destruct (char_in c "&!|").
    { bind_inv H. destruct a as [h' r]. inversion H; subst. left. cbn.
      eapply append_to_root; eassumption. }
    destruct (negb (char_in c "()")); [|discriminate].
    inversion H; subst. right. repeat split; cbn; eauto.
    right. repeat split. now apply pos_truthy_start.
  - (* a clause is being read *)
    rewrite Hsp in H. cbn [andb] in H.
    repeat (case_bool_decide; try congruence). cbn [orb andb] in H.
    destruct (Ascii.eqb c ")").
    { bind_inv H. inversion H; subst. left. cbn.
      unfold deref in Ha. rewrite Hroot in Ha. cbn in Ha.
      rewrite Htag in Ha.
      rewrite bool_decide_false in Ha by discriminate. cbn in Ha.
      bind_inv Ha. bind_inv Ha. destruct a1 as [h' ?].
      inversion Ha; subst. eapply append_to_root; eassumption. }
    destruct (negb (char_in c "()")); [|discriminate].
    inversion H; subst. right. repeat split; cbn; eauto.
Qed.

Lemma scan_char_pending_close (search_filter : string) (s s' : Scan)
    (pos : nat) :
  pending_at_root s ->
  scan_char search_filter s pos ")" = Ok s' ->
  root_has_child (store s').
Proof.
  intros (Hcur & Hjc & (root & Hroot & Htag) & Hst) H.
  destruct s as [st h cur sp sk jc]. cbn in *. subst cur jc.
  unfold scan_char in H. cbn [state store current_node start_pos
                                skip_white_space just_closed] in H.
  replace (char_in ")" PyStr.whitespace) with false in H by reflexivity.
  rewrite andb_false_r in H.
  replace (Ascii.eqb ")" "(") with false in H by reflexivity.
  replace (Ascii.eqb ")" ")") with true in H by reflexivity.
  replace (char_in ")" "&!|") with false in H by reflexivity.
  replace (char_in ")" "()") with true in H by reflexivity.
  destruct Hst as [-> | (-> & Hsp & ->)].
  - repeat (case_bool_decide; try congruence). cbn in H. discriminate.
  - rewrite Hsp in H.
    repeat (case_bool_decide; try congruence). cbn [orb andb] in H.
    bind_inv H. inversion H; subst. cbn.
    unfold deref in Ha. rewrite Hroot in Ha. cbn in Ha.
    rewrite Htag in Ha.
    rewrite bool_decide_false in Ha by discriminate. cbn in Ha.
    bind_inv Ha. bind_inv Ha. destruct a1 as [h' ?].
    inversion Ha; subst. eapply append_to_root; eassumption.
Qed.

Lemma scan_keeps_child (search_filter rest : string) (pos : nat)
    (s s' : Scan) :
  root_has_child (store s) -> scan search_filter rest pos s = Ok s' ->
  root_has_child (store s').
Proof.
  revert pos s. induction rest as [|c rest IH]; intros pos s Hc H.
  - inversion H; subst. assumption.
  - cbn [scan] in H. bind_inv H.
    eapply IH; [|eassumption]. eapply scan_char_keeps_child; eassumption.
Qed.

(** The characters before the last [)] leave the scan with a child under
    [ROOT] or still on the first clause; the last [)] settles it. *)
Lemma scan_pending (search_filter rest : string) (pos : nat) (s s' : Scan) :
  1 <= pos -> pending_at_root s ->
  scan search_filter (rest +:+ ")") pos s = Ok s' ->
  root_has_child (store s').
Proof.
  revert pos s. induction rest as [|c rest IH]; intros pos s Hpos Hp H.
  - cbn in H. bind_inv H. inversion H; subst.
    eapply scan_char_pending_close; eassumption.
  - rewrite app_cons in H. cbn [scan] in H. bind_inv H.
    destruct (scan_char_pending _ _ _ _ _ Hpos Hp Ha) as [Hc|Hp'].
    + eapply scan_keeps_child; eassumption.
    + eapply IH; [|eassumption..]. lia.
Qed.

Lemma endswith_split (suf s : string) :
  PyStr.endswith suf s = true -> exists a, s = a +:+ suf.
Proof.
  induction s as [|c s IH]; cbn [PyStr.endswith]; intros H.
  - rewrite orb_false_r in H. apply String.eqb_eq in H. subst suf.
    now exists "".
  - apply orb_true_iff in H. destruct H as [H|H].
    + apply String.eqb_eq in H. subst suf. now exists "".
    + destruct (IH H) as [a ->]. now exists (String c a).
Qed.

(** A filter that passes the checks made before the scan and is scanned to
    the end has given [ROOT] a child. *)
Lemma scan_root_has_child (search_filter : string) (s : Scan) :
  PyStr.startswith "(" search_filter = true ->
  PyStr.endswith ")" search_filter = true ->
  scan search_filter search_filter 0 initial_scan = Ok s ->
  root_has_child (store s).
Proof.
  intros Hstart Hend H.
  destruct search_filter as [|c rest]; [discriminate|].
  change (PyStr.startswith "(" (String c rest))
    with (if Ascii.eqb "(" c then true else false) in Hstart.
  destruct (Ascii.eqb "(" c) eqn:Ec; [|discriminate].
  apply Ascii.eqb_eq in Ec. subst c.
  cbn [PyStr.endswith] in Hend.
  replace (String.eqb (String "(" rest) ")") with false in Hend.
  2:{ symmetry. apply String.eqb_neq. destruct rest; discriminate. }
  cbn [orb] in Hend. destruct (endswith_split _ _ Hend) as [a Ha].
  remember (String "("%char rest) as whole eqn:Hw.
  rewrite Hw in H at 2. cbn [scan] in H. bind_inv H.
  vm_compute in Ha0. inversion Ha0; subst a0; clear Ha0.
  rewrite Ha in H.
  eapply scan_pending; [| |exact H]; [lia|].
  repeat split; cbn; eauto.
Qed.

(** Hence, past the checks made before the scan, [parse_filter] reports a
    missing boolean operator only for a [ROOT] with several children. *)
Lemma parse_filter_root_not_childless (search_filter : string) (s : Scan)
    (root : FilterNode) :
  PyStr.startswith "(" search_filter = true ->
  PyStr.endswith ")" search_filter = true ->
  scan search_filter search_filter 0 initial_scan = Ok s ->
  store s !! 0 = Some root ->
  1 <= length (elements root).
Proof.
  intros Hstart Hend H Hroot.
  destruct (scan_root_has_child _ _ Hstart Hend H) as (root' & Hr & Hne).
  rewrite Hroot in Hr. inversion Hr; subst root'.
  destruct (elements root); [congruence|cbn; lia].
Qed.

(** ** Compiling and decompiling *)

(** C2, at the disjunction of the claim.  The decompiler writes [!] for
    [or], so the text it gives for the compiled filter is a negation with
    two operands, which the parser refuses: the text does not parse back
    to the tree of the filter. *)
Theorem filter_to_string_or_not_reparsed
    (matching_rule_assertion_to_string :
       option string -> option string -> string -> bool -> string) :
  parse_filter "(|(cn=a)(cn=b))"
  = Ok (Tree ROOT None
          [Tree OR None
             [Tree MATCH_EQUAL (Some (AttrValue "cn" "a")) [];
              Tree MATCH_EQUAL (Some (AttrValue "cn" "b")) []]])
  /\ decompile_compiled matching_rule_assertion_to_string "(|(cn=a)(cn=b))"
     = Ok "(!(cn=a)(cn=b))"
  /\ parse_filter "(!(cn=a)(cn=b))"
     = Raise (LDAPException "Not clause in filter cannot be multiple").
Proof. repeat split; vm_compute; reflexivity. Qed.

(** With one operand the text parses, to a negation instead of the
    disjunction. *)
Lemma filter_to_string_or_one_operand
    (matching_rule_assertion_to_string :
       option string -> option string -> string -> bool -> string) :
  decompile_compiled matching_rule_assertion_to_string "(|(cn=a))"
  = Ok "(!(cn=a))"
  /\ parse_filter "(!(cn=a))"
     = Ok (Tree ROOT None
             [Tree NOT None [Tree MATCH_EQUAL (Some (AttrValue "cn" "a")) []]]).
Proof. split; vm_compute; reflexivity. Qed.

(** A conjunction does come back. *)
Lemma filter_to_string_and_reparsed
    (matching_rule_assertion_to_string :
       option string -> option string -> string -> bool -> string) :
  decompile_compiled matching_rule_assertion_to_string "(&(cn=a)(cn=b))"
  = Ok "(&(cn=a)(cn=b))".
Proof. vm_compute. reflexivity. Qed.

(** ** The search request *)

Section OperationFacts.

Variables SEARCH_SCOPE_BASE_OBJECT SEARCH_SCOPE_SINGLE_LEVEL
          SEARCH_SCOPE_WHOLE_SUBTREE : Z.
Variables SEARCH_NEVER_DEREFERENCE_ALIASES SEARCH_DEREFERENCE_IN_SEARCHING
          SEARCH_DEREFERENCE_FINDING_BASE_OBJECT SEARCH_DEREFERENCE_ALWAYS : Z.
Variable NO_ATTRIBUTES : string.
Variable maxInt : N.

Local Abbreviation search_operation' :=
  (search_operation SEARCH_SCOPE_BASE_OBJECT SEARCH_SCOPE_SINGLE_LEVEL
     SEARCH_SCOPE_WHOLE_SUBTREE SEARCH_NEVER_DEREFERENCE_ALIASES
     SEARCH_DEREFERENCE_IN_SEARCHING SEARCH_DEREFERENCE_FINDING_BASE_OBJECT
     SEARCH_DEREFERENCE_ALWAYS NO_ATTRIBUTES maxInt).

(** C10.  The filter of a request that [search_operation] builds is the
    one [build_filter] returns for the same string. *)
Theorem search_operation_filter_is_build_filter
    (search_base search_filter : string)
    (search_scope dereference_aliases : Z) (attributes : PyAttributes)
    (size_limit time_limit : N) (types_only : bool)
    (request : SearchRequest.t) :
  search_operation' search_base search_filter search_scope
    dereference_aliases attributes size_limit time_limit types_only
  = Ok request ->
  build_filter search_filter = Ok (SearchRequest.filter request).
Proof.
  unfold search_operation, build_filter. intros H.
  do 8 bind_inv H. inversion H; subst; clear H. cbn.
  rewrite Ha3. cbn. rewrite Ha4. cbn. exact Ha5.
Qed.

(** The other way round: with a scope and a dereferencing policy that are
    among the constants and limits that are not above [maxInt], a filter
    that [build_filter] accepts gives a request, and the request carries
    that filter. *)
Lemma search_operation_returns
    (search_base search_filter : string)
    (search_scope dereference_aliases : Z) (attributes : PyAttributes)
    (size_limit time_limit : N) (types_only : bool) (compiled : Filter) :
  build_filter search_filter = Ok compiled ->
  search_scope = SEARCH_SCOPE_BASE_OBJECT
  \/ search_scope = SEARCH_SCOPE_SINGLE_LEVEL
  \/ search_scope = SEARCH_SCOPE_WHOLE_SUBTREE ->
  dereference_aliases = SEARCH_NEVER_DEREFERENCE_ALIASES
  \/ dereference_aliases = SEARCH_DEREFERENCE_IN_SEARCHING
  \/ dereference_aliases = SEARCH_DEREFERENCE_FINDING_BASE_OBJECT
  \/ dereference_aliases = SEARCH_DEREFERENCE_ALWAYS ->
  (size_limit <= maxInt)%N -> (time_limit <= maxInt)%N ->
  exists request,
    search_operation' search_base search_filter search_scope
      dereference_aliases attributes size_limit time_limit types_only
    = Ok request
    /\ SearchRequest.filter request = compiled.
Proof.
  intros Hb Hscope Hderef Hsize Htime. unfold search_operation.
  assert (Hs : exists sc,
             (if Z.eqb search_scope SEARCH_SCOPE_BASE_OBJECT
              then Ok Scope_baseObject
              else if Z.eqb search_scope SEARCH_SCOPE_SINGLE_LEVEL
                   then Ok Scope_singleLevel
              else if Z.eqb search_scope SEARCH_SCOPE_WHOLE_SUBTREE
                   then Ok Scope_wholeSubtree
              else Raise (LDAPException "invalid scope type")) = Ok sc).
  { repeat match goal with
           | |- context [Z.eqb ?a ?b] => destruct (Z.eqb_spec a b)
           end; eauto.
    exfalso. intuition congruence. }
  destruct Hs as [sc ->].
  assert (Hd : exists da,
             (if Z.eqb dereference_aliases SEARCH_NEVER_DEREFERENCE_ALIASES
              then Ok neverDerefAliases
              else if Z.eqb dereference_aliases SEARCH_DEREFERENCE_IN_SEARCHING
                   then Ok derefInSearching
              else if Z.eqb dereference_aliases
                        SEARCH_DEREFERENCE_FINDING_BASE_OBJECT
                   then Ok derefFindingBaseObj
              else if Z.eqb dereference_aliases SEARCH_DEREFERENCE_ALWAYS
                   then Ok derefAlways
              else Raise (LDAPException "invalid dereference aliases type"))
             = Ok da).
  { repeat match goal with
           | |- context [Z.eqb ?a ?b] => destruct (Z.eqb_spec a b)
           end; eauto.
    exfalso. intuition congruence. }
  destruct Hd as [da ->]. cbn.
  unfold Integer0ToMax.
  rewrite (proj2 (N.leb_le _ _) Hsize), (proj2 (N.leb_le _ _) Htime). cbn.
  unfold build_filter in Hb. do 2 bind_inv Hb.
  rewrite Ha. cbn. rewrite Ha0. cbn. rewrite Hb. cbn.
  destruct attributes; cbn; eauto.
Qed.

(** C6, as the code has it.  The test is on the type of the argument
    alone: a list, empty or not, is passed on as it is and gives one
    selector for each of its items; anything that is not a list gives the
    single selector [NO_ATTRIBUTES]. *)
Theorem search_operation_attribute_selection
    (search_base search_filter : string)
    (search_scope dereference_aliases : Z) (attributes : PyAttributes)
    (size_limit time_limit : N) (types_only : bool)
    (request : SearchRequest.t) :
  search_operation' search_base search_filter search_scope
    dereference_aliases attributes size_limit time_limit types_only
  = Ok request ->
  SearchRequest.attributes request
  = match attributes with
    | PyList items => items
    | _ => [NO_ATTRIBUTES]
    end.
Proof.
  unfold search_operation. intros H.
  do 8 bind_inv H. inversion H; subst; clear H. cbn.
  destruct attributes; cbn in Ha6; now inversion Ha6.
Qed.

End OperationFacts.

(** The theorem of C10 at a request for the subtree below [o=test]. *)
Lemma search_operation_filter_is_build_filter_witness :
  build_filter "(&(cn=Bob)(sn=*))"
  = Ok (F_and [F_equalityMatch "cn" "Bob"; F_present "sn"]).
Proof.
  apply (search_operation_filter_is_build_filter 0 1 2 0 1 2 3 "1.1" 2147483647
           "o=test" "(&(cn=Bob)(sn=*))" 2 3 (PyList ["cn"; "sn"]) 10 0 false
           {| SearchRequest.baseObject := "o=test";
              SearchRequest.scope := Scope_wholeSubtree;
              SearchRequest.derefAliases := derefAlways;
              SearchRequest.sizeLimit := 10;
              SearchRequest.timeLimit := 0;
              SearchRequest.typesOnly := false;
              SearchRequest.filter :=
                F_and [F_equalityMatch "cn" "Bob"; F_present "sn"];
              SearchRequest.attributes := ["cn"; "sn"] |}).
  vm_compute. reflexivity.
Defined.

(** The theorem of C6 at the empty list. *)
Lemma search_operation_attribute_selection_witness :
  SearchRequest.attributes
    {| SearchRequest.baseObject := "o=test";
       SearchRequest.scope := Scope_baseObject;
       SearchRequest.derefAliases := neverDerefAliases;
       SearchRequest.sizeLimit := 0;
       SearchRequest.timeLimit := 0;
       SearchRequest.typesOnly := true;
       SearchRequest.filter := F_present "objectClass";
       SearchRequest.attributes := [] |}
  = [].
Proof.
  apply (search_operation_attribute_selection 0 1 2 0 1 2 3 "1.1" 2147483647
           "o=test" "(objectClass=*)" 0 0 (PyList []) 0 0 true).
  vm_compute. reflexivity.
Defined.

(** An argument that is not a list gives the single selector. *)
Lemma search_operation_not_a_list :
  search_operation 0 1 2 0 1 2 3 "1.1" 2147483647
    "o=test" "(objectClass=*)" 0 0 PyNone 0 0 true
  = Ok {| SearchRequest.baseObject := "o=test";
          SearchRequest.scope := Scope_baseObject;
          SearchRequest.derefAliases := neverDerefAliases;
          SearchRequest.sizeLimit := 0;
          SearchRequest.timeLimit := 0;
          SearchRequest.typesOnly := true;
          SearchRequest.filter := F_present "objectClass";
          SearchRequest.attributes := ["1.1"] |}.
Proof. vm_compute. reflexivity. Qed.

(** C6 as stated does not hold: with the empty list the request has no
    selector at all. *)
Lemma search_operation_empty_list_counterexample :
  ~ exists request,
      search_operation 0 1 2 0 1 2 3 "1.1" 2147483647
        "o=test" "(cn=a)" 2 3 (PyList []) 0 0 false = Ok request
      /\ SearchRequest.attributes request = ["1.1"].
Proof.
  intros (request & H & Hsel). vm_compute in H.
  inversion H; subst. discriminate Hsel.
Qed.

Lemma search_operation_empty_list :
  SearchRequest.attributes <$>
    (match search_operation 0 1 2 0 1 2 3 "1.1" 2147483647
             "o=test" "(cn=a)" 2 3 (PyList []) 0 0 false with
     | Ok request => Some request
     | Raise _ => None
     end)
  = Some [].
Proof. vm_compute. reflexivity. Qed.

(** ** The entry decoder *)

Section DecoderFacts.

Variables str_LDAPDN str_AttributeDescription str_AttributeValue
  : octets -> string.

Local Abbreviation attributes_to_dict' :=
  (attributes_to_dict str_AttributeDescription str_AttributeValue).

Lemma attributes_to_dict_snoc (l : list PartialAttribute) (a : PartialAttribute) :
  attributes_to_dict' (l ++ [a])
  = <[str_AttributeDescription (type a)
      := decode_vals str_AttributeValue (vals a)]> (attributes_to_dict' l).
Proof. unfold attributes_to_dict. now rewrite fold_left_app. Qed.

Lemma filter_truthy_octets (l : list octets) :
  List.filter truthy_octets l = filter (fun v => v <> []) l.
Proof.
  induction l as [|x l IH]; [reflexivity|].
  cbn [List.filter]. rewrite IH.
  destruct x; simpl.
  - rewrite filter_cons_False; [reflexivity|]. intros H. now apply H.
  - rewrite filter_cons_True; [reflexivity|]. discriminate.
Qed.

Lemma decode_vals_cases (vs : list octets) :
  decode_vals str_AttributeValue vs
  = match vs with
    | [] => None
    | _ :: _ => Some (str_AttributeValue <$> filter (fun v => v <> []) vs)
    end.
Proof.
  destruct vs; [reflexivity|]. unfold decode_vals.
  now rewrite filter_truthy_octets.
Qed.

(** C7, as the code has it.  The key of the decoded map for a name is
    there as soon as the response has an attribute whose description
    reads as that name; its value comes from the last such attribute and
    is [None] when that attribute has no values, else the texts of its
    values that hold at least one octet, in their order.  The test is on
    the octets, so a value whose text is empty stays in the list. *)
Theorem entry_attributes_lookup (response : SearchResultEntry.t)
    (name : string) :
  EntryDict.attributes
    (search_result_entry_response_to_dict str_LDAPDN str_AttributeDescription
       str_AttributeValue response) !! name
  = match last (filter (fun a => str_AttributeDescription (type a) = name)
                  (SearchResultEntry.attributes response)) with
    | None => None
    | Some a =>
        Some (match vals a with
              | [] => None
              | _ :: _ =>
                  Some (str_AttributeValue
                          <$> filter (fun v => v <> []) (vals a))
              end)
    end.
Proof.
  cbn [search_result_entry_response_to_dict EntryDict.attributes].
  induction (SearchResultEntry.attributes response) as [|a l IH] using rev_ind.
  - reflexivity.
  - rewrite attributes_to_dict_snoc, filter_app.
    destruct (decide (str_AttributeDescription (type a) = name)) as [Heq|Hne].
    + rewrite filter_cons_True by exact Heq. rewrite filter_nil, last_snoc.
      subst name. rewrite lookup_insert_eq. now rewrite decode_vals_cases.
    + rewrite filter_cons_False by exact Hne. rewrite filter_nil, app_nil_r.
      rewrite lookup_insert_ne by exact Hne. exact IH.
Qed.

End DecoderFacts.

(** C7 as stated does not hold: an attribute without values is a key of
    the map; its value is [None]. *)
Lemma entry_attributes_no_values_counterexample :
  EntryDict.attributes
    (search_result_entry_response_to_dict decode_latin1 decode_latin1
       decode_latin1
       {| SearchResultEntry.object := list_byte_of_string "cn=Bob,o=test";
          SearchResultEntry.attributes :=
            [ {| type := list_byte_of_string "cn";
                 vals := [list_byte_of_string "Bob"] |};
              {| type := list_byte_of_string "mail"; vals := [] |} ] |})
  !! "mail"
  <> None.
Proof. vm_compute. discriminate. Qed.

Lemma entry_attributes_no_values :
  EntryDict.attributes
    (search_result_entry_response_to_dict decode_latin1 decode_latin1
       decode_latin1
       {| SearchResultEntry.object := list_byte_of_string "cn=Bob,o=test";
          SearchResultEntry.attributes :=
            [ {| type := list_byte_of_string "cn";
                 vals := [list_byte_of_string "Bob"; []] |};
              {| type := list_byte_of_string "mail"; vals := [] |};
              {| type := list_byte_of_string "sn"; vals := [[]] |} ] |})
  = {[ "cn" := Some ["Bob"]; "mail" := None; "sn" := Some [] ]}.
Proof. vm_compute. reflexivity. Qed.

(** A value that holds an octet and reads as the empty text is kept. *)
Lemma entry_attributes_empty_text :
  EntryDict.attributes
    (search_result_entry_response_to_dict decode_ascii_ignore
       decode_ascii_ignore decode_ascii_ignore
       {| SearchResultEntry.object := list_byte_of_string "cn=Bob,o=test";
          SearchResultEntry.attributes :=
            [ {| type := list_byte_of_string "cn";
                 vals := [[Byte.xe9]; list_byte_of_string "Bob"; []] |} ] |})
  = {[ "cn" := Some [""; "Bob"] ]}.
Proof. vm_compute. reflexivity. Qed.

(** * Further properties *)

(** ** More facts about the string methods *)

Lemma app_empty_r (s : string) : s +:+ "" = s.
Proof. induction s as [|c s IH]; [reflexivity|]. rewrite app_cons. now f_equal. Qed.

Lemma app_assoc_str (a b c : string) : (a +:+ b) +:+ c = a +:+ b +:+ c.
Proof.
  induction a as [|x a IH]; [reflexivity|]. rewrite !app_cons. now f_equal.
Qed.

Lemma length_app_str (a b : string) :
  String.length (a +:+ b) = String.length a + String.length b.
Proof.
  induction a as [|x a IH]; [reflexivity|]. rewrite app_cons. cbn. now f_equal.
Qed.

Lemma startswith_app (p a b : string) :
  PyStr.startswith p a = true -> PyStr.startswith p (a +:+ b) = true.
Proof.
  revert a. induction p as [|x p IH]; intros a H; [reflexivity|].
  destruct a as [|y a]; [discriminate|]. rewrite app_cons. cbn in *.
  destruct (Ascii.eqb x y); [|discriminate]. now apply IH.
Qed.

Lemma startswith_self_app (p b : string) : PyStr.startswith p (p +:+ b) = true.
Proof.
  induction p as [|x p IH]; [reflexivity|]. rewrite app_cons. cbn.
  now rewrite Ascii.eqb_refl.
Qed.

Lemma startswith_contains (p s : string) :
  PyStr.startswith p s = true -> PyStr.contains p s = true.
Proof. destruct s; cbn; intros ->; reflexivity. Qed.

Lemma startswith_tail (a : ascii) (p s : string) :
  PyStr.startswith (String a p) s = true ->
  exists s', s = String a s' /\ PyStr.startswith p s' = true.
Proof.
  destruct s as [|b s]; [discriminate|]. cbn.
  destruct (Ascii.eqb a b) eqn:E; [|discriminate].
  apply Ascii.eqb_eq in E. subst b. eauto.
Qed.

(** A string that holds [a p] holds [p], and holds [a]. *)
Lemma contains_tail (a : ascii) (p s : string) :
  PyStr.contains (String a p) s = true -> PyStr.contains p s = true.
Proof.
  induction s as [|b s IH]; [discriminate|].
  cbn [PyStr.contains]. intros H. apply orb_true_iff in H.
  destruct H as [H|H].
  - apply startswith_tail in H. destruct H as (s' & Hs & Hp).
    inversion Hs; subst. apply orb_true_iff. right.
    now apply startswith_contains.
  - apply orb_true_iff. right. now apply IH.
Qed.

Lemma contains_head (a : ascii) (p s : string) :
  PyStr.contains (String a p) s = true ->
  PyStr.contains (String a "") s = true.
Proof.
  induction s as [|b s IH]; [discriminate|].
  cbn [PyStr.contains]. intros H. apply orb_true_iff in H.
  apply orb_true_iff. destruct H as [H|H].
  - left. apply startswith_tail in H. destruct H as (s' & Hs & _).
    inversion Hs; subst. cbn. now rewrite Ascii.eqb_refl.
  - right. now apply IH.
Qed.

Lemma contains_app_l (p a b : string) :
  PyStr.contains p a = true -> PyStr.contains p (a +:+ b) = true.
Proof.
  induction a as [|x a IH]; intros H.
  - cbn in H. apply startswith_empty_r in H. subst p.
    rewrite app_empty_l. destruct b; reflexivity.
  - rewrite app_cons. cbn [PyStr.contains] in *.
    apply orb_true_iff in H. apply orb_true_iff. destruct H as [H|H].
    + left. rewrite <- app_cons. now apply startswith_app.
    + right. now apply IH.
Qed.

Lemma contains_app_r (p a b : string) :
  PyStr.contains p b = true -> PyStr.contains p (a +:+ b) = true.
Proof.
  intros H. induction a as [|x a IH]; [exact H|].
  rewrite app_cons. cbn [PyStr.contains]. apply orb_true_iff. now right.
Qed.

Lemma endswith_contains (suf s : string) :
  PyStr.endswith suf s = true -> PyStr.contains suf s = true.
Proof.
  intros H. apply endswith_split in H. destruct H as [a ->].
  apply contains_app_r. apply startswith_contains.
  rewrite <- (app_empty_r suf) at 2. apply startswith_self_app.
Qed.

Lemma endswith_app (suf a : string) : PyStr.endswith suf (a +:+ suf) = true.
Proof.
  induction a as [|x a IH].
  - rewrite app_empty_l. destruct suf; cbn [PyStr.endswith];
      rewrite String.eqb_refl; reflexivity.
  - rewrite app_cons. cbn [PyStr.endswith]. rewrite IH. apply orb_true_r.
Qed.

Lemma take_app_str (a b : string) : PyStr.take (String.length a) (a +:+ b) = a.
Proof.
  induction a as [|x a IH]; [destruct b; reflexivity|].
  rewrite app_cons. cbn. now f_equal.
Qed.

Lemma drop_app_str (a b : string) : PyStr.drop (String.length a) (a +:+ b) = b.
Proof. induction a as [|x a IH]; [reflexivity|]. rewrite app_cons. exact IH. Qed.

Lemma drop_last_app (a suf : string) :
  PyStr.drop_last (String.length suf) (a +:+ suf) = a.
Proof.
  unfold PyStr.drop_last. rewrite length_app_str.
  replace (String.length a + String.length suf - String.length suf)
    with (String.length a) by lia.
  apply take_app_str.
Qed.

(** [partition] always cuts the string into its three results. *)
Lemma partition_app (sep s l m r : string) :
  PyStr.partition sep s = (l, m, r) -> s = l +:+ m +:+ r.
Proof.
  revert l m r. induction s as [|c s IH]; intros l m r H.
  - cbn in H. now inversion H.
  - cbn [PyStr.partition] in H.
    destruct (PyStr.startswith sep (String c s)) eqn:E.
    + inversion H; subst. rewrite app_empty_l. now apply startswith_split.
    + destruct (PyStr.partition sep s) as [[l' m'] r'] eqn:Hp.
      specialize (IH l' m' r' eq_refl). inversion H; subst.
      rewrite app_cons. now f_equal.
Qed.

(** The separator does not occur in the left part, whatever its length:
    the cut is at the first occurrence. *)
Lemma partition_left_free_any (sep s l m r : string) :
  sep <> "" ->
  PyStr.partition sep s = (l, m, r) ->
  PyStr.contains sep l = false \/ m = "".
Proof.
  intros Hsep. revert l m r. induction s as [|c s IH]; intros l m r H.
  - cbn in H. inversion H; subst. now right.
  - cbn [PyStr.partition] in H.
    destruct (PyStr.startswith sep (String c s)) eqn:E.
    + injection H as <- <- <-. left. destruct sep; [congruence|reflexivity].
    + destruct (PyStr.partition sep s) as [[l' m'] r'] eqn:Hp.
      pose proof (partition_app _ _ _ _ _ Hp) as Hs.
      specialize (IH l' m' r' eq_refl). inversion H; subst l m r.
      destruct IH as [IH|IH]; [|now right]. left.
      cbn [PyStr.contains]. rewrite IH, orb_false_r.
      destruct (PyStr.startswith sep (String c l')) eqn:E'; [|reflexivity].
      apply (startswith_app _ _ (m' +:+ r')) in E'.
      rewrite app_cons, <- Hs in E'. congruence.
Qed.

(** ** The leaf classifier, rule by rule *)

Lemma extensible_parts_dn (l : list string) (a : option string)
    (dn : option bool) (r : option string) :
  extensible_parts l = Ok (a, dn, r) -> dn <> Some false.
Proof.
  unfold extensible_parts, invalid_extensible. intros H.
  repeat match type of H with
         | context [if ?b then _ else _] => destruct b
         | context [match ?x with _ => _ end] => destruct x
         end;
    try discriminate H; inversion H; subst; discriminate.
Qed.

Lemma strip_if_is_Some (o : option string) :
  option_truthy o = true -> is_Some (strip_if o).
Proof.
  destruct o as [s|]; [|discriminate]. cbn. intros ->. eauto.
Qed.

Lemma evaluate_match_fresh (clause : string) (n : FilterNode) :
  evaluate_match clause = Ok n ->
  parent n = None /\ elements n = []
  /\ leaf_fits (tag n) (assertion n) = true.
Proof.
  unfold evaluate_match. intros H.
  destruct (PyStr.contains "~=" _).
  { bind_inv H. destruct a as [[? ?] ?]. inversion H; subst. now cbn. }
  destruct (PyStr.contains ">=" _).
  { destruct (PyStr.partition _ _) as [[? ?] ?]. inversion H; subst. now cbn. }
  destruct (PyStr.contains "<=" _).
  { destruct (PyStr.partition _ _) as [[? ?] ?]. inversion H; subst. now cbn. }
  destruct (PyStr.contains ":=" _).
  { destruct (PyStr.partition _ _) as [[? ?] ?]. bind_inv H.
    destruct a as [[an dn] mr].
    destruct (negb (option_truthy an) && negb (option_truthy mr)) eqn:E;
      [discriminate|].
    inversion H; subst. cbn. repeat split.
    apply extensible_parts_dn in Ha.
    rewrite (bool_decide_false _ Ha). cbn. rewrite andb_true_r.
    apply orb_true_iff.
    apply andb_false_iff in E. destruct E as [E|E];
      apply negb_false_iff, strip_if_is_Some in E.
    - left. now apply bool_decide_true.
    - right. now apply bool_decide_true. }
  destruct (PyStr.endswith "=*" _).
  { inversion H; subst. now cbn. }
  destruct (PyStr.contains "=" _ && PyStr.contains "*" _).
  { destruct (PyStr.partition _ _) as [[? ?] ?]. do 2 bind_inv H.
    inversion H; subst. now cbn. }
  destruct (PyStr.contains "=" _); [|discriminate].
  destruct (PyStr.partition _ _) as [[? ?] ?]. inversion H; subst. now cbn.
Qed.

(** What [evaluate_match] returns is a fresh leaf: no parent, no elements,
    one of the seven match tags, and the assertion of that tag. *)
Theorem evaluate_match_leaf (clause : string) (n : FilterNode) :
  evaluate_match clause = Ok n ->
  parent n = None /\ elements n = []
  /\ leaf_fits (tag n) (assertion n) = true.
Proof. exact (evaluate_match_fresh clause n). Qed.

Lemma evaluate_match_leaf_witness :
  parent (new_FilterNode MATCH_EQUAL (Some (AttrValue "cn" "Bob"))) = None
  /\ elements (new_FilterNode MATCH_EQUAL (Some (AttrValue "cn" "Bob"))) = []
  /\ leaf_fits (tag (new_FilterNode MATCH_EQUAL (Some (AttrValue "cn" "Bob"))))
       (assertion (new_FilterNode MATCH_EQUAL (Some (AttrValue "cn" "Bob"))))
     = true.
Proof. apply (evaluate_match_leaf "cn=Bob"). vm_compute. reflexivity. Defined.

Lemma avoids_bind {A B} (e : exn) (r : result A) (f : A -> result B) :
  avoids e r -> (forall a, avoids e (f a)) -> avoids e (r ≫= f).
Proof.
  destruct r as [a|e']; intros Hr Hf; cbn; [apply Hf|].
  intros H. apply Hr. now inversion H.
Qed.

Lemma evaluate_match_with_eq (clause : string) :
  PyStr.contains "=" (PyStr.strip clause) = true ->
  avoids (LDAPException "invalid matching assertion") (evaluate_match clause).
Proof.
  intros Heq.
  unfold evaluate_match, PySeq.unpack3, PySeq.first, PySeq.last,
    extensible_parts, invalid_extensible.
  rewrite Heq, andb_true_l.
  repeat first
    [ apply avoids_bind; [|intros ?]
    | match goal with
      | |- avoids _ (Ok _) => discriminate
      | |- avoids _ (Raise _) => discriminate
      | |- avoids _ (if ?b then _ else _) => destruct b
      | |- avoids _ (let '(_, _) := ?p in _) => destruct p
      | |- avoids _ (match ?x with _ => _ end) => destruct x
      end ].
Qed.

(** A clause without [=] matches no rule; with one it matches a rule, and
    whatever that rule does, it is not this failure. *)
Theorem evaluate_match_invalid_iff (clause : string) :
  evaluate_match clause = Raise (LDAPException "invalid matching assertion")
  <-> PyStr.contains "=" (PyStr.strip clause) = false.
Proof.
  split.
  - intros H. destruct (PyStr.contains "=" (PyStr.strip clause)) eqn:Heq;
      [|reflexivity].
    exfalso. exact (evaluate_match_with_eq _ Heq H).
  - unfold evaluate_match. set (m := PyStr.strip clause). intros Heq.
    assert (H2 : forall a, PyStr.contains (String a "=") m = false).
    { intros a. destruct (PyStr.contains (String a "=") m) eqn:E;
        [|reflexivity].
      apply contains_tail in E. congruence. }
    rewrite !H2.
    destruct (PyStr.endswith "=*" m) eqn:E.
    { apply endswith_contains, contains_head in E. congruence. }
    rewrite Heq. reflexivity.
Qed.

Lemma evaluate_match_ends_with_star (clause attr : string) :
  PyStr.contains "~=" (PyStr.strip clause) = false ->
  PyStr.contains ">=" (PyStr.strip clause) = false ->
  PyStr.contains "<=" (PyStr.strip clause) = false ->
  PyStr.contains ":=" (PyStr.strip clause) = false ->
  PyStr.strip clause = attr +:+ "=*" ->
  evaluate_match clause
  = Ok (new_FilterNode MATCH_PRESENT (Some (PresentAssertion attr))).
Proof.
  intros H1 H2 H3 H4 Hm. unfold evaluate_match.
  rewrite H1, H2, H3, H4, Hm, endswith_app.
  pose proof (drop_last_app attr "=*") as Hd.
  change (String.length "=*") with 2 in Hd. now rewrite Hd.
Qed.

(** Presence: a clause that the four earlier rules pass over and that ends
    with [=*] gives a presence leaf whose attribute is all the text before
    that suffix, untrimmed and possibly empty. *)
Theorem evaluate_match_present (clause attr : string) :
  PyStr.contains "~=" (PyStr.strip clause) = false ->
  PyStr.contains ">=" (PyStr.strip clause) = false ->
  PyStr.contains "<=" (PyStr.strip clause) = false ->
  PyStr.contains ":=" (PyStr.strip clause) = false ->
  PyStr.strip clause = attr +:+ "=*" ->
  evaluate_match clause
  = Ok (new_FilterNode MATCH_PRESENT (Some (PresentAssertion attr))).
Proof. exact (evaluate_match_ends_with_star clause attr). Qed.

Lemma evaluate_match_present_witness :
  evaluate_match " objectClass=* "
  = Ok (new_FilterNode MATCH_PRESENT (Some (PresentAssertion "objectClass"))).
Proof. apply evaluate_match_present; reflexivity. Defined.

(** Equality: a clause with [=], none of the four two-character operators
    and no [*] gives an equality leaf; the clause, trimmed, is cut at its
    first [=], the left part trimmed is the attribute and the right part
    normalized is the value. *)
Theorem evaluate_match_equal (clause : string) :
  PyStr.contains "~=" (PyStr.strip clause) = false ->
  PyStr.contains ">=" (PyStr.strip clause) = false ->
  PyStr.contains "<=" (PyStr.strip clause) = false ->
  PyStr.contains ":=" (PyStr.strip clause) = false ->
  PyStr.contains "*" (PyStr.strip clause) = false ->
  PyStr.contains "=" (PyStr.strip clause) = true ->
  exists left_part right_part : string,
    PyStr.strip clause = left_part +:+ "=" +:+ right_part
    /\ PyStr.contains "=" left_part = false
    /\ evaluate_match clause
       = Ok (new_FilterNode MATCH_EQUAL
               (Some (AttrValue (PyStr.strip left_part)
                        (validate_assertion_value right_part)))).
Proof.
  intros H1 H2 H3 H4 Hstar Heq.
  destruct (partition_found "=" _ Heq) as (l & r & Hp & Hm).
  exists l, r. split; [exact Hm|]. split.
  - exact (partition_left_free _ _ _ _ _ Hp).
  - unfold evaluate_match. rewrite H1, H2, H3, H4, Heq, Hstar.
    destruct (PyStr.endswith "=*" (PyStr.strip clause)) eqn:E.
    { apply endswith_contains, contains_tail in E. congruence. }
    cbn [andb]. now rewrite Hp.
Qed.

Lemma evaluate_match_equal_witness :
  exists left_part right_part : string,
    PyStr.strip " cn = Bob Smith " = left_part +:+ "=" +:+ right_part
    /\ PyStr.contains "=" left_part = false
    /\ evaluate_match " cn = Bob Smith "
       = Ok (new_FilterNode MATCH_EQUAL
               (Some (AttrValue (PyStr.strip left_part)
                        (validate_assertion_value right_part)))).
Proof. apply evaluate_match_equal; reflexivity. Defined.

(** Ordering: without [~=], a clause that holds [>=] gives a
    greater-or-equal leaf, and one that holds [<=] and no [>=] gives a
    less-or-equal leaf; the trimmed clause is cut at the first occurrence
    of the operator, whatever else it holds. *)
Theorem evaluate_match_ordering (clause : string) :
  PyStr.contains "~=" (PyStr.strip clause) = false ->
  (PyStr.contains ">=" (PyStr.strip clause) = true ->
   exists left_part right_part : string,
     PyStr.strip clause = left_part +:+ ">=" +:+ right_part
     /\ PyStr.contains ">=" left_part = false
     /\ evaluate_match clause
        = Ok (new_FilterNode MATCH_GREATER_OR_EQUAL
                (Some (AttrValue (PyStr.strip left_part)
                         (validate_assertion_value right_part)))))
  /\ (PyStr.contains ">=" (PyStr.strip clause) = false ->
      PyStr.contains "<=" (PyStr.strip clause) = true ->
      exists left_part right_part : string,
        PyStr.strip clause = left_part +:+ "<=" +:+ right_part
        /\ PyStr.contains "<=" left_part = false
        /\ evaluate_match clause
           = Ok (new_FilterNode MATCH_LESS_OR_EQUAL
                   (Some (AttrValue (PyStr.strip left_part)
                            (validate_assertion_value right_part))))).
Proof.
  intros H1. split.
  - intros H2. destruct (partition_found ">=" _ H2) as (l & r & Hp & Hm).
    exists l, r. split; [exact Hm|]. split.
    + destruct (partition_left_free_any ">=" _ _ _ _ ltac:(discriminate) Hp);
        [assumption|discriminate].
    + unfold evaluate_match. now rewrite H1, H2, Hp.
  - intros H2 H3. destruct (partition_found "<=" _ H3) as (l & r & Hp & Hm).
    exists l, r. split; [exact Hm|]. split.
    + destruct (partition_left_free_any "<=" _ _ _ _ ltac:(discriminate) Hp);
        [assumption|discriminate].
    + unfold evaluate_match. now rewrite H1, H2, H3, Hp.
Qed.

Lemma evaluate_match_ordering_witness :
  exists left_part right_part : string,
    PyStr.strip "uidNumber>=1000" = left_part +:+ ">=" +:+ right_part
    /\ PyStr.contains ">=" left_part = false
    /\ evaluate_match "uidNumber>=1000"
       = Ok (new_FilterNode MATCH_GREATER_OR_EQUAL
               (Some (AttrValue (PyStr.strip left_part)
                        (validate_assertion_value right_part)))).
Proof.
  apply (proj1 (evaluate_match_ordering "uidNumber>=1000" eq_refl)).
  reflexivity.
Defined.

(** [split] for a separator of any length: joining the parts with the
    separator gives the string back. *)
Lemma split_from_skip (sep : string) (k : nat) (s : string) :
  PyStr.split_from sep k s = PyStr.split_from sep 0 (PyStr.drop k s).
Proof.
  revert k. induction s as [|c s IH]; intros k.
  - destruct k; reflexivity.
  - destruct k; [reflexivity|]. cbn [PyStr.split_from PyStr.drop]. apply IH.
Qed.

Lemma length_drop_le (k : nat) (s : string) :
  String.length (PyStr.drop k s) <= String.length s.
Proof.
  revert k. induction s as [|c s IH]; intros k; destruct k; cbn; try lia.
  specialize (IH k). lia.
Qed.

Lemma split_join (sep s : string) :
  sep <> "" -> PyStr.join sep (PyStr.split sep s) = s.
Proof.
  intros Hsep. unfold PyStr.split.
  remember (String.length s) as n eqn:Hn.
  assert (Hle : String.length s <= n) by lia. clear Hn.
  revert s Hle. induction n as [|n IH]; intros s Hle.
  - destruct s; [reflexivity|cbn in Hle; lia].
  - destruct s as [|c s]; [reflexivity|]. cbn in Hle.
    cbn [PyStr.split_from].
    destruct (PyStr.startswith sep (String c s)) eqn:E.
    + destruct sep as [|a sep']; [congruence|].
      change (String.length (String a sep') - 1)
        with (String.length sep' - 0).
      rewrite Nat.sub_0_r, split_from_skip.
      rewrite join_cons_nonempty by apply split_from_nonempty.
      rewrite IH by (pose proof (length_drop_le (String.length sep') s); lia).
      rewrite app_empty_l. apply startswith_split in E.
      cbn [String.length PyStr.drop] in E. now rewrite <- E.
    + pose proof (split_from_nonempty sep 0 s) as Hne.
      specialize (IH s ltac:(lia)).
      destruct (PyStr.split_from sep 0 s) as [|seg segs]; [congruence|].
      rewrite join_cons_head. now f_equal.
Qed.

(** Approximate match: a clause that holds [~=] gives a node only when the
    operator cuts it into exactly three parts, that is when it occurs
    twice; the node then takes its attribute from the first part and its
    value from the third, and the part between the operators is dropped. *)
Theorem evaluate_match_approx (clause : string) (n : FilterNode) :
  PyStr.contains "~=" (PyStr.strip clause) = true ->
  evaluate_match clause = Ok n ->
  exists left_part middle right_part : string,
    PyStr.split "~=" (PyStr.strip clause) = [left_part; middle; right_part]
    /\ PyStr.strip clause
       = left_part +:+ "~=" +:+ middle +:+ "~=" +:+ right_part
    /\ n = new_FilterNode MATCH_APPROX
             (Some (AttrValue (PyStr.strip left_part)
                      (validate_assertion_value right_part))).
Proof.
  intros Hc H. unfold evaluate_match in H. rewrite Hc in H.
  bind_inv H. destruct a as [[l mid] r]. inversion H; subst; clear H.
  unfold PySeq.unpack3 in Ha.
  destruct (PyStr.split "~=" (PyStr.strip clause))
    as [|x [|y [|z [|? ?]]]] eqn:Hs; try discriminate Ha.
  inversion Ha; subst; clear Ha.
  exists l, mid, r. repeat split.
  pose proof (split_join "~=" (PyStr.strip clause) ltac:(discriminate)) as Hj.
  rewrite Hs in Hj. now rewrite <- Hj.
Qed.

Lemma evaluate_match_approx_witness :
  exists left_part middle right_part : string,
    PyStr.split "~=" (PyStr.strip "cn~=Bo~=b") = [left_part; middle; right_part]
    /\ PyStr.strip "cn~=Bo~=b"
       = left_part +:+ "~=" +:+ middle +:+ "~=" +:+ right_part
    /\ new_FilterNode MATCH_APPROX (Some (AttrValue "cn" "b"))
       = new_FilterNode MATCH_APPROX
           (Some (AttrValue (PyStr.strip left_part)
                    (validate_assertion_value right_part))).
Proof.
  apply (evaluate_match_approx "cn~=Bo~=b"); vm_compute; reflexivity.
Defined.

(** ** [FilterNode.append] *)

(** [append] on [None] fails.  On a node of the store it returns a new
    reference, at which the appended node is found with that node as its
    parent; the node appended to has the new reference as its last
    element, and no other node of the store changes. *)
Lemma append_spec (h : heap) (i : nat) (n node : FilterNode) :
  h !! i = Some n ->
  append h None node
  = Raise (AttributeError "'NoneType' object has no attribute 'append'")
  /\ exists h',
       append h (Some i) node = Ok (h', length h)
       /\ length h' = S (length h)
       /\ h' !! length h
          = Some {| tag := tag node; parent := Some i;
                    assertion := assertion node;
                    elements := elements node |}
       /\ h' !! i
          = Some {| tag := tag n; parent := parent n;
                    assertion := assertion n;
                    elements := elements n ++ [length h] |}
       /\ forall j, j <> i -> j <> length h -> h' !! j = h !! j.
Proof.
  intros Hn. split; [reflexivity|].
  unfold append, deref. rewrite Hn. cbn.
  assert (Hlt : i < length h) by (eapply lookup_lt_Some; eassumption).
  eexists. split; [reflexivity|]. repeat split.
  - rewrite length_app, length_insert. cbn. lia.
  - rewrite lookup_app_r by (rewrite length_insert; lia).
    now rewrite length_insert, Nat.sub_diag.
  - rewrite lookup_app_l by (rewrite length_insert; lia).
    apply list_lookup_insert_eq. lia.
  - intros j Hji Hjr. destruct (decide (j < length h)) as [Hj|Hj].
    + rewrite lookup_app_l by (rewrite length_insert; lia).
      apply list_lookup_insert_ne. congruence.
    + rewrite !lookup_ge_None_2; [reflexivity|lia|].
      rewrite length_app, length_insert. cbn. lia.
Qed.


(** The same, read from a call that returned. *)
Lemma append_inv (h h' : heap) (self : option nat) (node : FilterNode)
    (r : nat) :
  append h self node = Ok (h', r) ->
  exists i n,
    self = Some i /\ h !! i = Some n /\ r = length h /\ i < length h
    /\ length h' = S (length h)
    /\ h' !! r = Some {| tag := tag node; parent := Some i;
                         assertion := assertion node;
                         elements := elements node |}
    /\ h' !! i = Some {| tag := tag n; parent := parent n;
                         assertion := assertion n;
                         elements := elements n ++ [r] |}
    /\ forall j, j <> i -> j <> r -> h' !! j = h !! j.
Proof.
  intros H. destruct self as [i|]; [|discriminate].
  destruct (h !! i) as [n|] eqn:Hn.
  2:{ unfold append, deref in H. rewrite Hn in H. discriminate. }
  destruct (append_spec h i n node Hn)
    as (_ & h2 & Happ & Hlen & Hr & Hi & Ho).
  rewrite Happ in H. inversion H; subst.
  exists i, n. repeat split; try assumption.
  eapply lookup_lt_Some; eassumption.
Qed.

(** ** What the scan keeps true *)

Lemma leaf_fits_not_operator (t : Tag) (a : option Assertion) :
  leaf_fits t a = true -> is_operator t = false.
Proof. destruct t; cbn; congruence. Qed.

(** Appending, to [ROOT] or to an operator, an operator without assertion
    or a leaf that [evaluate_match] made keeps the store in shape. *)
Lemma append_heap_inv (h h' : heap) (i r : nat) (n node : FilterNode) :
  heap_inv h ->
  h !! i = Some n ->
  i = 0 \/ is_operator (tag n) = true ->
  node_ok node ->
  append h (Some i) node = Ok (h', r) ->
  heap_inv h'.
Proof.
  intros [Hroot Hnodes Hpar] Hn Hi Hok H.
  apply append_inv in H
    as (i' & n' & [= <-] & Hn' & -> & Hlt & Hlen & Hr & Hself & Ho).
  rewrite Hn in Hn'. injection Hn' as <-.
  assert (Htag : forall q m, h !! q = Some m ->
                   exists m', h' !! q = Some m' /\ tag m' = tag m
                              /\ assertion m' = assertion m).
  { intros q m Hq. destruct (decide (q = i)) as [->|Hqi].
    - rewrite Hn in Hq. injection Hq as <-. eexists. split; [exact Hself|].
      split; reflexivity.
    - exists m. rewrite Ho; [auto|assumption|].
      apply lookup_lt_Some in Hq. lia. }
  constructor.
  - destruct Hroot as (root & H0 & Ht & Ha).
    destruct (Htag 0 root H0) as (root' & H0' & Ht' & Ha').
    exists root'. repeat split; congruence.
  - intros j m Hj. destruct (decide (S j = length h)) as [Hjr|Hjr].
    + rewrite Hjr, Hr in Hj. injection Hj as <-. exact Hok.
    + destruct (decide (S j = i)) as [Hji|Hji].
      * rewrite Hji, Hself in Hj. injection Hj as <-.
        destruct Hi as [->|Hi]; [discriminate|].
        unfold node_ok. cbn. rewrite Hi.
        rewrite <- Hji in Hn. specialize (Hnodes j n Hn).
        unfold node_ok in Hnodes. now rewrite Hi in Hnodes.
      * rewrite Ho in Hj by assumption. eauto.
  - intros j m p Hj Hp.
    assert (Hold : exists m0, h !! S p = Some m0
                              /\ is_operator (tag m0) = true).
    { destruct (decide (j = length h)) as [Hjr|Hjr].
      - rewrite Hjr, Hr in Hj. injection Hj as <-. cbn in Hp.
        injection Hp as ->. destruct Hi as [?|Hi]; [discriminate|]. eauto.
      - destruct (decide (j = i)) as [Hji|Hji].
        + rewrite Hji, Hself in Hj. injection Hj as <-. cbn in Hp. eauto.
        + rewrite Ho in Hj by assumption. eauto. }
    destruct Hold as (m0 & Hm0 & Hop).
    destruct (Htag _ _ Hm0) as (m1 & Hm1 & Ht1 & _).
    exists m1. split; [assumption|congruence].
Qed.

Lemma state_after_close (st : ScannerState) (c : ascii) :
  (bool_decide (st = SEARCH_MATCH_OR_CLOSE)
   || bool_decide (st = SEARCH_OPEN_OR_CLOSE)) && Ascii.eqb c ")" = true ->
  st = SEARCH_MATCH_OR_CLOSE \/ st = SEARCH_OPEN_OR_CLOSE.
Proof.
  intros H. apply andb_true_iff in H as [H _].
  apply orb_true_iff in H as [H|H]; apply bool_decide_eq_true in H; auto.
Qed.

Lemma scan_char_inv (search_filter : string) (s s' : Scan) (pos : nat)
    (c : ascii) :
  scan_inv pos s -> scan_char search_filter s pos c = Ok s' ->
  scan_inv (S pos) s'.
Proof.
  intros [Hheap Hcur Hemp Hopen Htok] H.
  destruct s as [st h cur sp sk jc].
  cbn [state store current_node start_pos skip_white_space just_closed] in *.
  unfold scan_char in H.
  cbn [state store current_node start_pos skip_white_space just_closed] in H.
  destruct (sk && char_in c PyStr.whitespace).
  { (* white space is passed over *)
    inversion H; subst. constructor; cbn; auto.
    intros Hst. destruct (Hopen Hst). split; [assumption|lia]. }
  destruct ((bool_decide (st = SEARCH_OPEN)
             || bool_decide (st = SEARCH_OPEN_OR_CLOSE))
            && Ascii.eqb c "(").
  { (* an opening parenthesis *)
    inversion H; subst; clear H. constructor; cbn; auto.
    - intros i n Hi Hop He. destruct (Hemp i n Hi Hop He).
      split; [assumption|discriminate].
    - intros _. split; [reflexivity|lia].
    - discriminate. }
  destruct (bool_decide (st = SEARCH_MATCH_OR_CONTROL) && char_in c "&!|")
    eqn:E3.
  { (* an operator: a node is appended and the cursor goes down to it *)
    apply andb_true_iff in E3 as [Est _].
    apply bool_decide_eq_true in Est. subst st.
    destruct (Hopen ltac:(discriminate)) as [-> Hpos].
    bind_inv H. destruct a as [h' r]. inversion H; subst; clear H.
    set (t := if Ascii.eqb c "&" then AND
              else if Ascii.eqb c "|" then OR else NOT) in *.
    assert (Ht : is_operator t = true).
    { unfold t. destruct (Ascii.eqb c "&"); [reflexivity|].
      destruct (Ascii.eqb c "|"); reflexivity. }
    pose proof Ha as Happ.
    apply append_inv in Ha
      as (i & n & -> & Hn & -> & Hlt & Hlen & Hr & Hself & Ho).
    assert (Hi : i = 0 \/ is_operator (tag n) = true).
    { destruct i as [|i]; [now left|]. right.
      destruct (Hcur i eq_refl) as (n' & Hn' & Hop). congruence. }
    constructor; cbn.
    - eapply append_heap_inv; try eassumption.
      unfold node_ok. cbn. now rewrite Ht.
    - intros j Hj. injection Hj as Hj. rewrite <- Hj. eexists.
      split; [exact Hr|].
      exact Ht.
    - intros j m Hj Hop He. destruct (decide (S j = length h)) as [Hjr|Hjr].
      { split; [now rewrite Hjr|discriminate]. }
      exfalso. destruct (decide (S j = i)) as [Hji|Hji].
      + rewrite Hji, Hself in Hj. injection Hj as <-. cbn in He.
        apply app_eq_nil in He. destruct He; discriminate.
      + rewrite Ho in Hj by assumption.
        destruct (Hemp j m Hj Hop He) as [Hc _]. congruence.
    - intros _. split; [reflexivity|lia].
    - discriminate. }
  destruct ((bool_decide (st = SEARCH_MATCH_OR_CLOSE)
             || bool_decide (st = SEARCH_OPEN_OR_CLOSE))
            && Ascii.eqb c ")") eqn:E4.
  { apply state_after_close in E4. destruct jc.
    - (* a further closing parenthesis: the cursor goes up *)
      assert (Hst : st = SEARCH_OPEN_OR_CLOSE).
      { destruct (decide (st = SEARCH_OPEN_OR_CLOSE)) as [|Hne];
          [assumption|].
        destruct (Hopen Hne); discriminate. }
      subst st. bind_inv H. destruct a as [i n].
      inversion H; subst; clear H.
      unfold deref in Ha. destruct cur as [i'|]; [|discriminate].
      destruct (h !! i') as [n'|] eqn:Hn; [|discriminate].
      inversion Ha; subst; clear Ha.
      constructor; cbn; auto.
      + intros p Hp. destruct Hheap as [_ _ Hpar]. eauto.
      + intros j m Hj Hop He. destruct (Hemp j m Hj Hop He). congruence.
      + congruence.
      + discriminate.
    - (* the closing parenthesis of a clause *)
      bind_inv H. inversion H; subst; clear H. rename a into h'.
      destruct (pos_truthy sp) eqn:Hsp.
      + bind_inv Ha. destruct a as [i n].
        unfold deref in Ha0. destruct cur as [i'|]; [|discriminate].
        destruct (h !! i') as [n'|] eqn:Hn; [|discriminate].
        inversion Ha0; subst; clear Ha0.
        destruct (bool_decide (tag n = NOT) && (0 <? length (elements n)));
          [discriminate|].
        bind_inv Ha. rename a into leaf. bind_inv Ha.
        destruct a as [h2 r]. inversion Ha; subst; clear Ha.
        apply evaluate_match_fresh in Ha0 as (Hlp & Hle & Hlf).
        pose proof Ha1 as Happ.
        apply append_inv in Ha1
          as (i' & n' & [= <-] & Hn' & -> & Hlt & Hlen & Hr & Hself & Ho).
        rewrite Hn in Hn'. injection Hn' as <-.
        assert (Hi : i = 0 \/ is_operator (tag n) = true).
        { destruct i as [|i]; [now left|]. right.
          destruct (Hcur i eq_refl) as (n' & Hn' & Hop). congruence. }
        constructor; cbn.
        * eapply append_heap_inv; try eassumption.
          unfold node_ok. rewrite (leaf_fits_not_operator _ _ Hlf). auto.
        * intros j Hj. injection Hj as ->. eexists. split; [exact Hself|].
          cbn. destruct (Hcur j eq_refl) as (n' & Hn' & Hop). congruence.
        * intros j m Hj Hop He. exfalso.
          destruct (decide (S j = length h)) as [Hjr|Hjr].
          { rewrite Hjr, Hr in Hj. injection Hj as <-. cbn in Hop.
            rewrite (leaf_fits_not_operator _ _ Hlf) in Hop. discriminate. }
          destruct (decide (S j = i)) as [Hji|Hji].
          -- rewrite Hji, Hself in Hj. injection Hj as <-. cbn in He.
             apply app_eq_nil in He. destruct He; discriminate.
          -- rewrite Ho in Hj by assumption.
             destruct (Hemp j m Hj Hop He) as [Hc _]. congruence.
        * congruence.
        * discriminate.
      + inversion Ha; subst; clear Ha. constructor; cbn; auto.
        * intros j m Hj Hop He. exfalso.
          destruct (Hemp j m Hj Hop He) as [_ Hne].
          destruct E4 as [-> | ->]; [|congruence].
          specialize (Htok eq_refl). discriminate.
        * congruence.
        * discriminate. }
  destruct ((bool_decide (st = SEARCH_MATCH_OR_CLOSE)
             || bool_decide (st = SEARCH_MATCH_OR_CONTROL))
            && negb (char_in c "()")) eqn:E5; [|discriminate].
  (* a character of a clause *)
  inversion H; subst; clear H.
  assert (Hne : st <> SEARCH_OPEN_OR_CLOSE).
  { apply andb_true_iff in E5 as [E5 _].
    apply orb_true_iff in E5 as [E5|E5]; apply bool_decide_eq_true in E5;
      subst; discriminate. }
  destruct (Hopen Hne) as [Hjc Hpos].
  constructor; cbn; [exact Hheap|exact Hcur| | |].
  - intros j m Hj Hop He. destruct (Hemp j m Hj Hop He).
    split; [assumption|discriminate].
  - intros _. split; [assumption|lia].
  - intros _. now apply pos_truthy_start.
Qed.

Lemma scan_inv_initial : scan_inv 0 initial_scan.
Proof.
  constructor; cbn.
  - constructor.
    + exists (new_FilterNode ROOT None). repeat split.
    + intros i n Hi. destruct i; discriminate.
    + intros i n p Hi Hp. destruct i; [|destruct i; discriminate].
      injection Hi as <-. discriminate.
  - intros i Hi. discriminate.
  - intros i n Hi. destruct i; discriminate.
  - intros H. congruence.
  - discriminate.
Qed.

Lemma scan_scan_inv (search_filter rest : string) (pos : nat) (s s' : Scan) :
  scan_inv pos s -> scan search_filter rest pos s = Ok s' ->
  scan_inv (pos + String.length rest) s'.
Proof.
  revert pos s. induction rest as [|c rest IH]; intros pos s Hinv H.
  - inversion H; subst. cbn. now rewrite Nat.add_0_r.
  - cbn [scan] in H. bind_inv H. cbn [String.length].
    rewrite Nat.add_succ_r. apply (IH (S pos) a); [|assumption].
    eapply scan_char_inv; eassumption.
Qed.

(** After a [)] the scanner is in the state that follows a [)]. *)
Lemma scan_char_close_state (search_filter : string) (s s' : Scan)
    (pos : nat) :
  scan_char search_filter s pos ")" = Ok s' ->
  state s' = SEARCH_OPEN_OR_CLOSE.
Proof.
  unfold scan_char.
  replace (char_in ")" PyStr.whitespace) with false by reflexivity.
  replace (Ascii.eqb ")" "(") with false by reflexivity.
  replace (char_in ")" "&!|") with false by reflexivity.
  replace (char_in ")" "()") with true by reflexivity.
  rewrite !andb_false_r. cbn [negb].
  intros H. destruct (_ && _); [|discriminate].
  destruct (just_closed s); bind_inv H; [destruct a|];
    inversion H; reflexivity.
Qed.

Lemma scan_last_state (search_filter rest : string) (pos : nat)
    (s s' : Scan) :
  scan search_filter (rest +:+ ")") pos s = Ok s' ->
  state s' = SEARCH_OPEN_OR_CLOSE.
Proof.
  revert pos s. induction rest as [|c rest IH]; intros pos s H.
  - cbn in H. bind_inv H. inversion H; subst.
    eapply scan_char_close_state; eassumption.
  - rewrite app_cons in H. cbn [scan] in H. bind_inv H. eauto.
Qed.

(** ** The tree of a finished parse *)

Lemma FilterTree_ind_nested (P : FilterTree -> Prop) :
  (forall t a children, Forall P children -> P (Tree t a children)) ->
  forall t, P t.
Proof.
  intros H. fix IH 1. intros [t a children]. apply H.
  induction children as [|c cs IHcs]; constructor; [apply IH|exact IHcs].
Qed.

Lemma tree_of_well_formed (h : heap) :
  heap_inv h -> heap_wf h ->
  (forall i n, h !! S i = Some n -> is_operator (tag n) = true ->
     elements n <> []) ->
  forall fuel r t, tree_of fuel h (S r) = Some t -> well_formed t = true.
Proof.
  intros [_ Hnodes _] Hwf Hfull.
  induction fuel as [|fuel IH]; intros r t H; [discriminate|].
  cbn [tree_of] in H.
  destruct (h !! S r) as [n|] eqn:Hn; [|discriminate]. cbn in H.
  destruct (mapM (tree_of fuel h) (elements n)) as [children|] eqn:Hm;
    [|discriminate].
  cbn in H. injection H as <-. cbn [well_formed].
  pose proof (Hnodes r n Hn) as Hok. unfold node_ok in Hok.
  pose proof (length_mapM _ _ _ Hm) as Hlen.
  destruct (is_operator (tag n)) eqn:Hop.
  - rewrite Hok. rewrite bool_decide_true by reflexivity. cbn [andb].
    apply andb_true_iff. split.
    + specialize (Hfull r n Hn Hop).
      destruct children; [|reflexivity].
      destruct (elements n); [congruence|discriminate].
    + apply forallb_forall. intros child Hin.
      apply mapM_Some_1 in Hm.
      apply list_elem_of_In in Hin.
      destruct (proj1 (list_elem_of_lookup _ _) Hin) as [k Hk].
      destruct (Forall2_lookup_r _ _ _ _ _ Hm Hk) as (j & Hj & Ht).
      pose proof (Hwf (S r) n Hn) as Hall.
      rewrite Forall_forall in Hall.
      assert (Hjin : j ∈ elements n)
        by (apply list_elem_of_lookup; eauto).
      specialize (Hall j Hjin). destruct j as [|j]; [lia|]. eauto.
  - destruct Hok as [-> Hel]. rewrite Hel in Hlen.
    destruct children; [reflexivity|discriminate].
Qed.

Lemma parse_filter_well_formed (search_filter : string) (t : FilterTree) :
  parse_filter search_filter = Ok t ->
  exists child, t = Tree ROOT None [child] /\ well_formed child = true.
Proof.
  unfold parse_filter. set (sf := PyStr.strip search_filter). intros H.
  destruct (PyStr.truthy sf && _ && PyStr.startswith "(" sf
            && PyStr.endswith ")" sf) eqn:Hpre; [|discriminate].
  apply andb_true_iff in Hpre as [_ Hend].
  apply endswith_split in Hend as [body Hbody].
  bind_inv H. rename a into s, Ha into Hscan.
  pose proof (scan_scan_inv _ _ _ _ _ scan_inv_initial Hscan)
    as [Hheap _ Hemp _ _].
  assert (Hwf : heap_wf (store s)).
  { eapply scan_wf; [|exact Hscan]. intros i n Hi.
    destruct i; [|discriminate]. injection Hi as <-. constructor. }
  assert (Hst : state s = SEARCH_OPEN_OR_CLOSE).
  { rewrite Hbody in Hscan at 2. eapply scan_last_state. exact Hscan. }
  bind_inv H. destruct a as [? root]. unfold deref in Ha.
  destruct (store s !! root_ref) as [root'|] eqn:Hroot; [|discriminate].
  injection Ha as <- ->.
  destruct (negb (length (elements root) =? 1)) eqn:Hone; [discriminate|].
  apply negb_false_iff, Nat.eqb_eq in Hone.
  destruct (tree_of _ _ _) as [t'|] eqn:Ht; [|discriminate].
  injection H as <-.
  destruct (length (store s)) as [|fuel] eqn:Hlen; [discriminate|].
  cbn [tree_of] in Ht. unfold root_ref in *. rewrite Hroot in Ht. cbn in Ht.
  destruct (elements root) as [|j [|? ?]] eqn:Hel; try discriminate Hone.
  cbn in Ht.
  destruct (tree_of fuel (store s) j) as [child|] eqn:Hchild;
    [|discriminate].
  cbn in Ht. injection Ht as <-.
  destruct Hheap as [(root0 & Hroot0 & Htag & Hass) Hnodes Hpar].
  rewrite Hroot in Hroot0. injection Hroot0 as <-.
  exists child. rewrite Htag, Hass. split; [reflexivity|].
  pose proof (Hwf 0 root Hroot) as Hj. rewrite Hel in Hj.
  apply Forall_cons in Hj as [[Hj _] _].
  destruct j as [|j]; [lia|].
  eapply (tree_of_well_formed (store s)); [constructor; eauto|exact Hwf| |].
  - intros i n Hi Hop He. destruct (Hemp i n Hi Hop He). congruence.
  - exact Hchild.
Qed.

(** A filter that parses gives a [ROOT] with exactly one child, and below
    it every operator has at least one operand and no assertion, and every
    leaf is one that [evaluate_match] made, without children. *)
Theorem parse_filter_tree (search_filter : string) (t : FilterTree) :
  parse_filter search_filter = Ok t ->
  exists child, t = Tree ROOT None [child] /\ well_formed child = true.
Proof. exact (parse_filter_well_formed search_filter t). Qed.

Lemma parse_filter_tree_witness :
  exists child,
    Tree ROOT None
      [Tree AND None
         [Tree MATCH_EQUAL (Some (AttrValue "cn" "Bob")) [];
          Tree NOT None [Tree MATCH_PRESENT (Some (PresentAssertion "sn")) []]]]
    = Tree ROOT None [child]
    /\ well_formed child = true.
Proof.
  apply (parse_filter_tree "(&(cn=Bob)(!(sn=*)))"). vm_compute. reflexivity.
Defined.

(** [compile_filter] returns on such a tree. *)
Lemma compile_filter_well_formed (t : FilterTree) :
  well_formed t = true -> exists f, compile_filter t = Ok f.
Proof.
  induction t as [tg a children IH] using FilterTree_ind_nested.
  intros Hwf. cbn [well_formed] in Hwf.
  assert (Hall : forallb well_formed children = true ->
                 exists fs,
                   (fix compile_all (l : list FilterTree)
                      : result (list Filter) :=
                      match l with
                      | [] => Ok []
                      | element :: l' =>
                          f ← compile_filter element;
                          fs ← compile_all l';
                          Ok (f :: fs)
                      end) children = Ok fs).
  { clear Hwf. induction children as [|c cs IHcs]; intros Hf.
    - now exists [].
    - cbn in Hf. apply andb_true_iff in Hf as [Hc Hcs].
      apply Forall_cons in IH as [IHc IHrest].
      destruct (IHc Hc) as [f Hf]. destruct (IHcs IHrest Hcs) as [fs Hfs].
      exists (f :: fs). rewrite Hf. cbn. rewrite Hfs. reflexivity. }
  destruct (is_operator tg) eqn:Hop.
  - apply andb_true_iff in Hwf as [Hwf Hch].
    apply andb_true_iff in Hwf as [_ Hne].
    destruct (Hall Hch) as [fs Hfs].
    destruct tg; try discriminate Hop; cbn [compile_filter].
    + rewrite Hfs. cbn. eauto.
    + rewrite Hfs. cbn. eauto.
    + destruct children as [|c cs]; [discriminate|].
      apply Forall_cons in IH as [IHc _]. cbn in Hch.
      apply andb_true_iff in Hch as [Hc _].
      destruct (IHc Hc) as [f Hf]. rewrite Hf. cbn. eauto.
  - apply andb_true_iff in Hwf as [Hfit _].
    destruct tg; try discriminate Hop; try discriminate Hfit;
      destruct a as [[| | |]|]; try discriminate Hfit;
      cbn [compile_filter attr_and_value]; cbn; eauto.
Qed.

Lemma build_filter_parse_cases (search_filter : string) :
  match parse_filter search_filter with
  | Ok _ => exists compiled, build_filter search_filter = Ok compiled
  | Raise e => build_filter search_filter = Raise e
  end.
Proof.
  unfold build_filter.
  destruct (parse_filter search_filter) as [t|e] eqn:Hp; [|reflexivity].
  apply parse_filter_well_formed in Hp as (child & -> & Hwf).
  cbn. now apply compile_filter_well_formed.
Qed.

(** Whatever parses compiles: [build_filter] returns for every filter that
    [parse_filter] accepts, and otherwise raises the exception of the
    parser.  The compiler's own failures ("unknown filter", a missing
    operand or key) do not occur on parsed filters. *)
Theorem build_filter_follows_parse (search_filter : string) :
  match parse_filter search_filter with
  | Ok _ => exists compiled, build_filter search_filter = Ok compiled
  | Raise e => build_filter search_filter = Raise e
  end.
Proof. exact (build_filter_parse_cases search_filter). Qed.

(** ** A filter of one clause *)

Lemma rstrip_snoc (a : string) (c : ascii) :
  PyStr.isspace c = false ->
  PyStr.rstrip (a +:+ String c "") = a +:+ String c "".
Proof.
  intros Hc. induction a as [|x a IH].
  - rewrite app_empty_l. cbn [PyStr.rstrip]. now rewrite Hc.
  - rewrite app_cons. cbn [PyStr.rstrip]. rewrite IH.
    destruct a; reflexivity.
Qed.

(** A text in parentheses is left as it is by [strip]. *)
Lemma strip_parenthesized (body : string) :
  PyStr.strip ("(" +:+ body +:+ ")") = "(" +:+ body +:+ ")".
Proof.
  unfold PyStr.strip. rewrite app_cons, app_empty_l.
  change (PyStr.lstrip (String "(" (body +:+ ")")))
    with (String "("%char (body +:+ ")")).
  rewrite <- app_cons. now apply rstrip_snoc.
Qed.

Lemma contains_char_cons (c x : ascii) (s : string) :
  PyStr.contains (String c "") (String x s)
  = Ascii.eqb c x || PyStr.contains (String c "") s.
Proof. cbn. now destruct (Ascii.eqb c x). Qed.

Lemma count_char_cons (c x : ascii) (s : string) :
  PyStr.count (String c "") (String x s)
  = (if Ascii.eqb c x then 1 else 0) + PyStr.count (String c "") s.
Proof. unfold PyStr.count. cbn. now destruct (Ascii.eqb c x). Qed.

Lemma count_char_absent (c : ascii) (s : string) :
  PyStr.contains (String c "") s = false -> PyStr.count (String c "") s = 0.
Proof.
  induction s as [|x s IH]; [reflexivity|].
  rewrite contains_char_cons, count_char_cons. intros H.
  apply orb_false_iff in H as [-> H]. now rewrite IH.
Qed.

Lemma count_char_app (c : ascii) (a b : string) :
  PyStr.count (String c "") (a +:+ b)
  = PyStr.count (String c "") a + PyStr.count (String c "") b.
Proof.
  induction a as [|x a IH]; [reflexivity|].
  rewrite app_cons, !count_char_cons, IH. lia.
Qed.

Lemma scan_app (search_filter a b : string) (pos : nat) (s : Scan) :
  scan search_filter (a +:+ b) pos s
  = scan search_filter a pos s
    ≫= scan search_filter b (pos + String.length a).
Proof.
  revert pos s. induction a as [|c a IH]; intros pos s.
  - cbn. now rewrite Nat.add_0_r.
  - rewrite app_cons. cbn [scan String.length].
    destruct (scan_char search_filter s pos c) as [s'|e]; [|reflexivity].
    cbn. rewrite IH. now rewrite Nat.add_succ_r.
Qed.

(** Inside a clause every character that is not a parenthesis is taken as
    it comes and leaves the variables of the scan as they are. *)
Lemma scan_clause_chars (search_filter rest : string) (pos : nat) (s : Scan) :
  state s = SEARCH_MATCH_OR_CLOSE ->
  skip_white_space s = false ->
  pos_truthy (start_pos s) = true ->
  PyStr.contains "(" rest = false ->
  PyStr.contains ")" rest = false ->
  scan search_filter rest pos s = Ok s.
Proof.
  intros Hst Hsk Hsp. revert pos.
  induction rest as [|c rest IH]; intros pos Ho Hc; [reflexivity|].
  rewrite contains_char_cons in Ho, Hc.
  apply orb_false_iff in Ho as [Ho Ho'].
  apply orb_false_iff in Hc as [Hc Hc'].
  cbn [scan].
  assert (Hstep : scan_char search_filter s pos c = Ok s).
  { destruct s as [st h cur sp sk jc]. cbn in Hst, Hsk, Hsp. subst st sk.
    unfold scan_char.
    cbn [state store current_node start_pos skip_white_space just_closed].
    rewrite Hsp. cbn [andb].
    rewrite (Ascii.eqb_sym c "("), Ho, (Ascii.eqb_sym c ")"), Hc.
    rewrite !andb_false_r.
    rewrite (bool_decide_false (SEARCH_MATCH_OR_CLOSE = SEARCH_MATCH_OR_CONTROL))
      by discriminate.
    rewrite (bool_decide_true (SEARCH_MATCH_OR_CLOSE = SEARCH_MATCH_OR_CLOSE))
      by reflexivity.
    cbn [andb orb].
    unfold char_in. rewrite !contains_char_cons.
    rewrite (Ascii.eqb_sym c "("), Ho, (Ascii.eqb_sym c ")"), Hc.
    reflexivity. }
  rewrite Hstep. cbn. now apply IH.
Qed.

Lemma char_in_parens (c : ascii) :
  Ascii.eqb "(" c = false -> Ascii.eqb ")" c = false ->
  char_in c "()" = false.
Proof.
  intros Ho Hc. unfold char_in. rewrite !contains_char_cons.
  now rewrite (Ascii.eqb_sym c "("), Ho, (Ascii.eqb_sym c ")"), Hc.
Qed.

Lemma parse_filter_clause (c0 : ascii) (rest : string) :
  char_in c0 PyStr.whitespace = false ->
  char_in c0 "&!|" = false ->
  PyStr.contains "(" (String c0 rest) = false ->
  PyStr.contains ")" (String c0 rest) = false ->
  parse_filter ("(" +:+ String c0 rest +:+ ")")
  = (leaf ← evaluate_match (String c0 rest);
     Ok (Tree ROOT None [Tree (tag leaf) (assertion leaf) []])).
Proof.
  intros Hws Hctl Ho Hc. set (clause := String c0 rest) in *.
  unfold parse_filter. rewrite strip_parenthesized.
  set (sf := "(" +:+ clause +:+ ")").
  assert (Hpre : PyStr.truthy sf
                 && (PyStr.count "(" sf =? PyStr.count ")" sf)
                 && PyStr.startswith "(" sf && PyStr.endswith ")" sf = true).
  { unfold sf. rewrite <- (app_assoc_str "(" clause ")"), endswith_app.
    rewrite !count_char_app, !(count_char_absent _ clause) by assumption.
    reflexivity. }
  rewrite Hpre.
  assert (Hscan : scan sf sf 0 initial_scan
                  = (leaf ← evaluate_match clause;
                     '(h, _) ← append [new_FilterNode ROOT None] (Some 0) leaf;
                     Ok {| state := SEARCH_OPEN_OR_CLOSE; store := h;
                           current_node := Some 0; start_pos := None;
                           skip_white_space := true; just_closed := true |})).
  { unfold sf at 2. rewrite app_cons, app_empty_l. cbn [scan].
    change (scan_char sf initial_scan 0 "(")
      with (Ok {| state := SEARCH_MATCH_OR_CONTROL;
                  store := [new_FilterNode ROOT None];
                  current_node := Some 0; start_pos := None;
                  skip_white_space := true; just_closed := false |}).
    cbn [mbind result_bind]. rewrite scan_app.
    pose proof Ho as Ho'. pose proof Hc as Hc'.
    unfold clause in Ho', Hc'. rewrite contains_char_cons in Ho', Hc'.
    apply orb_false_iff in Ho' as [Ho0 Hor].
    apply orb_false_iff in Hc' as [Hc0 Hcr].
    assert (Hfirst :
              scan_char sf
                {| state := SEARCH_MATCH_OR_CONTROL;
                   store := [new_FilterNode ROOT None];
                   current_node := Some 0; start_pos := None;
                   skip_white_space := true; just_closed := false |} 1 c0
              = Ok {| state := SEARCH_MATCH_OR_CLOSE;
                      store := [new_FilterNode ROOT None];
                      current_node := Some 0; start_pos := Some 1;
                      skip_white_space := false; just_closed := false |}).
    { unfold scan_char.
      cbn [state store current_node start_pos skip_white_space just_closed].
      rewrite Hws, Hctl, (char_in_parens c0 Ho0 Hc0). reflexivity. }
    assert (Hmid :
              scan sf clause 1
                {| state := SEARCH_MATCH_OR_CONTROL;
                   store := [new_FilterNode ROOT None];
                   current_node := Some 0; start_pos := None;
                   skip_white_space := true; just_closed := false |}
              = Ok {| state := SEARCH_MATCH_OR_CLOSE;
                      store := [new_FilterNode ROOT None];
                      current_node := Some 0; start_pos := Some 1;
                      skip_white_space := false; just_closed := false |}).
    { unfold clause. cbn [scan]. rewrite Hfirst. cbn [mbind result_bind].
      apply scan_clause_chars; try reflexivity; assumption. }
    rewrite Hmid. cbn [mbind result_bind scan].
    unfold scan_char.
    cbn [state store current_node start_pos skip_white_space just_closed].
    cbn [andb].
    replace (PyStr.slice (default 0 (Some 1)) (1 + String.length clause) sf)
      with clause.
    2:{ unfold PyStr.slice, sf. change (default 0 (Some 1)) with 1.
        rewrite app_cons, app_empty_l. cbn [PyStr.drop].
        replace (1 + String.length clause - 1) with (String.length clause)
          by lia.
        now rewrite take_app_str. }
    change (Ascii.eqb ")" "(") with false.
    change (Ascii.eqb ")" ")") with true.
    change (char_in ")" "&!|") with false.
    cbn.
    destruct (evaluate_match clause) as [leaf|e]; [|reflexivity].
    reflexivity. }
  rewrite Hscan.
  destruct (evaluate_match clause) as [leaf|e] eqn:Hleaf; [|reflexivity].
  apply evaluate_match_fresh in Hleaf as (_ & Hel & _).
  cbn. rewrite Hel. reflexivity.
Qed.

(** A clause in parentheses parses to what [evaluate_match] makes of the
    clause, as the only child of [ROOT], and fails as [evaluate_match]
    fails.  The clause holds no parenthesis and does not begin with white
    space or with one of [&], [|], [!]. *)
Theorem parse_filter_single_clause (c0 : ascii) (rest : string) :
  char_in c0 PyStr.whitespace = false ->
  char_in c0 "&!|" = false ->
  PyStr.contains "(" (String c0 rest) = false ->
  PyStr.contains ")" (String c0 rest) = false ->
  parse_filter ("(" +:+ String c0 rest +:+ ")")
  = (leaf ← evaluate_match (String c0 rest);
     Ok (Tree ROOT None [Tree (tag leaf) (assertion leaf) []])).
Proof. exact (parse_filter_clause c0 rest). Qed.

Lemma parse_filter_single_clause_witness :
  parse_filter ("(" +:+ "cn=Bob" +:+ ")")
  = (leaf ← evaluate_match "cn=Bob";
     Ok (Tree ROOT None [Tree (tag leaf) (assertion leaf) []])).
Proof. apply parse_filter_single_clause; reflexivity. Defined.

(** ** White space around the input *)

Lemma lstrip_spaces (ws s : string) :
  all_space ws = true -> PyStr.lstrip (ws +:+ s) = PyStr.lstrip s.
Proof.
  induction ws as [|c ws IH]; intros H; [reflexivity|].
  cbn in H. apply andb_true_iff in H as [Hc Hws].
  rewrite app_cons. cbn [PyStr.lstrip]. rewrite Hc. now apply IH.
Qed.

Lemma rstrip_all_space (ws : string) :
  all_space ws = true -> PyStr.rstrip ws = "".
Proof.
  induction ws as [|c ws IH]; intros H; [reflexivity|].
  cbn in H. apply andb_true_iff in H as [Hc Hws].
  cbn [PyStr.rstrip]. now rewrite (IH Hws), Hc.
Qed.

Lemma rstrip_spaces (s ws : string) :
  all_space ws = true -> PyStr.rstrip (s +:+ ws) = PyStr.rstrip s.
Proof.
  intros H. induction s as [|c s IH].
  - rewrite app_empty_l. now apply rstrip_all_space.
  - rewrite app_cons. cbn [PyStr.rstrip]. now rewrite IH.
Qed.

Lemma lstrip_app (s ws : string) :
  all_space ws = true ->
  PyStr.lstrip (s +:+ ws) = PyStr.lstrip s +:+ ws
  \/ (PyStr.lstrip s = "" /\ PyStr.lstrip (s +:+ ws) = "").
Proof.
  intros H. induction s as [|c s IH].
  - right. split; [reflexivity|]. rewrite app_empty_l.
    clear -H. induction ws as [|c ws IH]; [reflexivity|].
    cbn in H. apply andb_true_iff in H as [Hc Hws].
    cbn [PyStr.lstrip]. rewrite Hc. now apply IH.
  - rewrite app_cons. cbn [PyStr.lstrip].
    destruct (PyStr.isspace c); [exact IH|]. left. now rewrite app_cons.
Qed.

(** [strip] does not see white space added before and after. *)
Lemma strip_spaces (before s after : string) :
  all_space before = true -> all_space after = true ->
  PyStr.strip (before +:+ s +:+ after) = PyStr.strip s.
Proof.
  intros Hb Ha. unfold PyStr.strip. rewrite lstrip_spaces by assumption.
  destruct (lstrip_app s after Ha) as [->|[Hs ->]].
  - now apply rstrip_spaces.
  - now rewrite Hs.
Qed.

(** White space before and after the input changes nothing: the three
    functions that read text trim it first. *)
Theorem surrounding_white_space_ignored (before s after : string) :
  all_space before = true -> all_space after = true ->
  parse_filter (before +:+ s +:+ after) = parse_filter s
  /\ evaluate_match (before +:+ s +:+ after) = evaluate_match s
  /\ validate_assertion_value (before +:+ s +:+ after)
     = validate_assertion_value s.
Proof.
  intros Hb Ha.
  unfold parse_filter, evaluate_match, validate_assertion_value.
  now rewrite !(strip_spaces before s after Hb Ha).
Qed.

Lemma surrounding_white_space_ignored_witness :
  parse_filter ("  " +:+ "(cn=Bob)" +:+ " ") = parse_filter "(cn=Bob)"
  /\ evaluate_match ("  " +:+ "cn=Bob" +:+ " ") = evaluate_match "cn=Bob"
  /\ validate_assertion_value ("  " +:+ "Bob" +:+ " ")
     = validate_assertion_value "Bob".
Proof.
  split; [|split].
  - apply (surrounding_white_space_ignored "  " "(cn=Bob)" " "); reflexivity.
  - apply (surrounding_white_space_ignored "  " "cn=Bob" " "); reflexivity.
  - apply (surrounding_white_space_ignored "  " "Bob" " "); reflexivity.
Defined.

(** ** Values without escapes *)

Lemma contains_char_lstrip (c : ascii) (s : string) :
  PyStr.contains (String c "") s = false ->
  PyStr.contains (String c "") (PyStr.lstrip s) = false.
Proof.
  induction s as [|x s IH]; [reflexivity|].
  intros H. cbn [PyStr.lstrip]. destruct (PyStr.isspace x); [|exact H].
  rewrite contains_char_cons in H. apply orb_false_iff in H as [_ H]. auto.
Qed.

Lemma contains_char_rstrip (c : ascii) (s : string) :
  PyStr.contains (String c "") s = false ->
  PyStr.contains (String c "") (PyStr.rstrip s) = false.
Proof.
  induction s as [|x s IH]; [reflexivity|].
  intros H. rewrite contains_char_cons in H.
  apply orb_false_iff in H as [Hx H]. specialize (IH H).
  cbn [PyStr.rstrip]. destruct (PyStr.rstrip s) as [|y r].
  - destruct (PyStr.isspace x); [reflexivity|].
    rewrite contains_char_cons, Hx. reflexivity.
  - rewrite contains_char_cons, Hx. exact IH.
Qed.

Lemma validate_unescaped (value : string) :
  PyStr.contains "\" value = false ->
  validate_assertion_value value = PyStr.strip value.
Proof.
  intros H. unfold validate_assertion_value.
  assert (Hs : PyStr.contains "\" (PyStr.strip value) = false).
  { unfold PyStr.strip. now apply contains_char_rstrip, contains_char_lstrip. }
  assert (Hesc : forall p, PyStr.contains (String "\" p) (PyStr.strip value)
                           = false).
  { intros p. destruct (PyStr.contains (String "\" p) _) eqn:E;
      [|reflexivity].
    apply contains_head in E. congruence. }
  now rewrite !Hesc.
Qed.

(** A value without backslash is trimmed and nothing else. *)
Theorem validate_assertion_value_no_backslash (value : string) :
  PyStr.contains "\" value = false ->
  validate_assertion_value value = PyStr.strip value.
Proof. exact (validate_unescaped value). Qed.

Lemma validate_assertion_value_no_backslash_witness :
  validate_assertion_value " Bob Smith " = PyStr.strip " Bob Smith ".
Proof. apply validate_assertion_value_no_backslash. reflexivity. Defined.

(** ** The two maps of an entry *)

Section EntryMaps.

Variables str_LDAPDN str_AttributeDescription str_AttributeValue
  : octets -> string.

Lemma raw_attributes_to_dict_snoc (l : list PartialAttribute)
    (a : PartialAttribute) :
  raw_attributes_to_dict str_AttributeDescription (l ++ [a])
  = <[str_AttributeDescription (type a) := decode_raw_vals (vals a)]>
      (raw_attributes_to_dict str_AttributeDescription l).
Proof. unfold raw_attributes_to_dict. now rewrite fold_left_app. Qed.

(** The decoded map and the raw map of an entry have the same keys, the
    names of the attributes of the response, and the decoded value of a
    name is made from its raw value: the texts of the raw values that
    hold at least one octet, in their order ([None] for [None]). *)
Theorem entry_maps_agree (response : SearchResultEntry.t) :
  let entry :=
    search_result_entry_response_to_dict str_LDAPDN str_AttributeDescription
      str_AttributeValue response in
  dom (EntryDict.attributes entry)
  = list_to_set
      ((fun a : PartialAttribute => str_AttributeDescription (type a))
         <$> SearchResultEntry.attributes response)
  /\ dom (EntryDict.raw_attributes entry)
     = list_to_set
         ((fun a : PartialAttribute => str_AttributeDescription (type a))
            <$> SearchResultEntry.attributes response)
  /\ forall name : string,
       EntryDict.attributes entry !! name
       = (fun raw : option (list octets) =>
            (fun values : list octets =>
               str_AttributeValue
                 <$> filter (fun v : octets => v <> []) values)
            <$> raw)
         <$> EntryDict.raw_attributes entry !! name.
Proof.
  cbn. induction (SearchResultEntry.attributes response) as [|a l IH]
    using rev_ind.
  - split; [|split].
    + unfold attributes_to_dict. cbn. now rewrite dom_empty_L.
    + unfold raw_attributes_to_dict. cbn. now rewrite dom_empty_L.
    + intros name. unfold attributes_to_dict, raw_attributes_to_dict. cbn.
      now rewrite !lookup_empty.
  - destruct IH as (IH1 & IH2 & IH3).
    rewrite attributes_to_dict_snoc, raw_attributes_to_dict_snoc.
    rewrite fmap_app, list_to_set_app_L, !dom_insert_L, IH1, IH2.
    cbn [fmap list_fmap list_to_set].
    rewrite union_empty_r_L.
    split; [apply (comm_L (∪))|]. split; [apply (comm_L (∪))|].
    intros name.
    destruct (decide (str_AttributeDescription (type a) = name)) as [<-|Hne].
    + rewrite !lookup_insert_eq. cbn. f_equal.
      destruct (vals a); [reflexivity|].
      unfold decode_vals, decode_raw_vals. cbn [fmap option_fmap option_map].
      now rewrite filter_truthy_octets.
    + rewrite !lookup_insert_ne by exact Hne. apply IH3.
Qed.

End EntryMaps.

(** ** The failures of [search_operation] *)

Section OperationFailures.

Variables SEARCH_SCOPE_BASE_OBJECT SEARCH_SCOPE_SINGLE_LEVEL
          SEARCH_SCOPE_WHOLE_SUBTREE : Z.
Variables SEARCH_NEVER_DEREFERENCE_ALIASES SEARCH_DEREFERENCE_IN_SEARCHING
          SEARCH_DEREFERENCE_FINDING_BASE_OBJECT SEARCH_DEREFERENCE_ALWAYS : Z.
Variable NO_ATTRIBUTES : string.
Variable maxInt : N.

Local Abbreviation search_operation' :=
  (search_operation SEARCH_SCOPE_BASE_OBJECT SEARCH_SCOPE_SINGLE_LEVEL
     SEARCH_SCOPE_WHOLE_SUBTREE SEARCH_NEVER_DEREFERENCE_ALIASES
     SEARCH_DEREFERENCE_IN_SEARCHING SEARCH_DEREFERENCE_FINDING_BASE_OBJECT
     SEARCH_DEREFERENCE_ALWAYS NO_ATTRIBUTES maxInt).

Local Abbreviation known_scope scope :=
  (scope = SEARCH_SCOPE_BASE_OBJECT \/ scope = SEARCH_SCOPE_SINGLE_LEVEL
   \/ scope = SEARCH_SCOPE_WHOLE_SUBTREE).

Local Abbreviation known_policy policy :=
  (policy = SEARCH_NEVER_DEREFERENCE_ALIASES
   \/ policy = SEARCH_DEREFERENCE_IN_SEARCHING
   \/ policy = SEARCH_DEREFERENCE_FINDING_BASE_OBJECT
   \/ policy = SEARCH_DEREFERENCE_ALWAYS).

Lemma scope_of_known (search_scope : Z) :
  known_scope search_scope ->
  exists sc,
    (if Z.eqb search_scope SEARCH_SCOPE_BASE_OBJECT then Ok Scope_baseObject
     else if Z.eqb search_scope SEARCH_SCOPE_SINGLE_LEVEL
          then Ok Scope_singleLevel
     else if Z.eqb search_scope SEARCH_SCOPE_WHOLE_SUBTREE
          then Ok Scope_wholeSubtree
     else Raise (LDAPException "invalid scope type")) = Ok sc.
Proof.
  intros Hs.
  repeat match goal with
         | |- context [Z.eqb ?a ?b] => destruct (Z.eqb_spec a b)
         end; eauto.
  exfalso. intuition congruence.
Qed.

Lemma policy_of_known (dereference_aliases : Z) :
  known_policy dereference_aliases ->
  exists da,
    (if Z.eqb dereference_aliases SEARCH_NEVER_DEREFERENCE_ALIASES
     then Ok neverDerefAliases
     else if Z.eqb dereference_aliases SEARCH_DEREFERENCE_IN_SEARCHING
          then Ok derefInSearching
     else if Z.eqb dereference_aliases SEARCH_DEREFERENCE_FINDING_BASE_OBJECT
          then Ok derefFindingBaseObj
     else if Z.eqb dereference_aliases SEARCH_DEREFERENCE_ALWAYS
          then Ok derefAlways
     else Raise (LDAPException "invalid dereference aliases type")) = Ok da.
Proof.
  intros Hp.
  repeat match goal with
         | |- context [Z.eqb ?a ?b] => destruct (Z.eqb_spec a b)
         end; eauto.
  exfalso. intuition congruence.
Qed.

(** The arguments are checked in the order scope, dereferencing policy,
    size limit, time limit, filter: an unknown scope is reported whatever
    the other arguments are, an unknown policy whatever the limits and
    the filter are, a limit above [maxInt] whatever the filter is, and
    with all four accepted the operation fails exactly as [parse_filter]
    fails and otherwise returns a request. *)
Theorem search_operation_failures
    (search_base search_filter : string)
    (search_scope dereference_aliases : Z) (attributes : PyAttributes)
    (size_limit time_limit : N) (types_only : bool) :
  (~ known_scope search_scope ->
   search_operation' search_base search_filter search_scope
     dereference_aliases attributes size_limit time_limit types_only
   = Raise (LDAPException "invalid scope type"))
  /\ (known_scope search_scope -> ~ known_policy dereference_aliases ->
      search_operation' search_base search_filter search_scope
        dereference_aliases attributes size_limit time_limit types_only
      = Raise (LDAPException "invalid dereference aliases type"))
  /\ (known_scope search_scope -> known_policy dereference_aliases ->
      (maxInt < size_limit \/ maxInt < time_limit)%N ->
      search_operation' search_base search_filter search_scope
        dereference_aliases attributes size_limit time_limit types_only
      = Raise ValueConstraintError)
  /\ (known_scope search_scope -> known_policy dereference_aliases ->
      (size_limit <= maxInt)%N -> (time_limit <= maxInt)%N ->
      match parse_filter search_filter with
      | Raise e =>
          search_operation' search_base search_filter search_scope
            dereference_aliases attributes size_limit time_limit types_only
          = Raise e
      | Ok _ =>
          exists request,
            search_operation' search_base search_filter search_scope
              dereference_aliases attributes size_limit time_limit types_only
            = Ok request
            /\ SearchRequest.sizeLimit request = size_limit
            /\ SearchRequest.timeLimit request = time_limit
      end).
Proof.
  split; [|split; [|split]].
  - intros Hs. unfold search_operation.
    repeat match goal with
           | |- context [Z.eqb ?a ?b] => destruct (Z.eqb_spec a b)
           end; try reflexivity; exfalso; apply Hs; auto.
  - intros Hs Hp. unfold search_operation.
    destruct (scope_of_known _ Hs) as [sc ->]. cbn.
    repeat match goal with
           | |- context [Z.eqb ?a ?b] => destruct (Z.eqb_spec a b)
           end; try reflexivity; exfalso; apply Hp; auto.
  - intros Hs Hp Hlimit. unfold search_operation.
    destruct (scope_of_known _ Hs) as [sc ->].
    destruct (policy_of_known _ Hp) as [da ->]. cbn.
    unfold Integer0ToMax.
    destruct (N.leb_spec size_limit maxInt) as [Hsize|Hsize];
      [|reflexivity].
    destruct (N.leb_spec time_limit maxInt) as [Htime|Htime];
      [|reflexivity].
    exfalso. lia.
  - intros Hs Hp Hsize Htime. unfold search_operation.
    destruct (scope_of_known _ Hs) as [sc ->].
    destruct (policy_of_known _ Hp) as [da ->]. cbn.
    unfold Integer0ToMax.
    rewrite (proj2 (N.leb_le _ _) Hsize), (proj2 (N.leb_le _ _) Htime). cbn.
    pose proof (build_filter_parse_cases search_filter) as Hb.
    unfold build_filter in Hb.
    destruct (parse_filter search_filter) as [root|e]; [|reflexivity].
    destruct Hb as [compiled Hb]. cbn in Hb |- *.
    destruct (elements_0 root) as [element|e]; [|discriminate]. cbn in Hb |- *.
    rewrite Hb. cbn.
    destruct attributes; cbn; eauto.
Qed.

End OperationFailures.

(** The theorem at a scope that is none of the three constants, at a size
    limit above [maxInt], and at a filter that does not parse. *)
Lemma search_operation_failures_witness :
  search_operation 0 1 2 0 1 2 3 "1.1" 2147483647
    "o=test" "(cn=Bob" 7 9 PyNone 0 0 false
  = Raise (LDAPException "invalid scope type")
  /\ search_operation 0 1 2 0 1 2 3 "1.1" 2147483647
       "o=test" "(cn=Bob" 2 3 PyNone 2147483648 0 false
     = Raise ValueConstraintError
  /\ search_operation 0 1 2 0 1 2 3 "1.1" 2147483647
       "o=test" "(cn=Bob" 2 3 PyNone 10 0 false
     = Raise (LDAPException "invalid filter").
Proof.
  split; [|split].
  - apply (proj1 (search_operation_failures 0 1 2 0 1 2 3 "1.1" 2147483647
                    "o=test" "(cn=Bob" 7 9 PyNone 0 0 false)).
    lia.
  - apply (proj1 (proj2 (proj2
             (search_operation_failures 0 1 2 0 1 2 3 "1.1" 2147483647
                "o=test" "(cn=Bob" 2 3 PyNone 2147483648 0 false))));
      lia.
  - exact (proj2 (proj2 (proj2
             (search_operation_failures 0 1 2 0 1 2 3 "1.1" 2147483647
                "o=test" "(cn=Bob" 2 3 PyNone 10 0 false)))
             ltac:(lia) ltac:(lia) ltac:(lia) ltac:(lia)).
Defined.

(** ** The store that a scan builds, as a tree *)

Lemma push_spec (h : heap) (i : nat) (n node : FilterNode) :
  h !! i = Some n ->
  append h (Some i) node = Ok (push h i node, length h)
  /\ length (push h i node) = S (length h)
  /\ push h i node !! length h
     = Some {| tag := tag node; parent := Some i;
               assertion := assertion node; elements := elements node |}
  /\ push h i node !! i
     = Some {| tag := tag n; parent := parent n; assertion := assertion n;
               elements := elements n ++ [length h] |}
  /\ forall j, j <> i -> j <> length h -> push h i node !! j = h !! j.
Proof.
  intros Hn. destruct (append_spec h i n node Hn) as (_ & h' & Happ & Hrest).
  unfold push. rewrite Happ. split; [reflexivity|exact Hrest].
Qed.

Lemma push_wf (h : heap) (i : nat) (n node : FilterNode) :
  heap_wf h -> elements node = [] -> h !! i = Some n ->
  heap_wf (push h i node).
Proof.
  intros Hwf Hel Hn. destruct (push_spec h i n node Hn) as (Happ & _).
  now destruct (append_wf _ _ _ _ _ Hwf Hel Happ).
Qed.

(** Reading the tree below a reference gives the tree that the nodes
    make up. *)
Lemma represents_tree_of (h : heap) (fuel : nat) :
  forall r t t',
    represents h r t -> tree_of fuel h r = Some t' -> t' = t.
Proof.
  induction fuel as [|fuel IH]; intros r t t' Hrep H; [discriminate|].
  cbn [tree_of] in H. inversion Hrep as [r' n children Hn Hch]; subst.
  rewrite Hn in H. cbn in H.
  destruct (mapM (tree_of fuel h) (elements n)) as [children'|] eqn:Hm;
    [|discriminate].
  cbn in H. injection H as <-. f_equal.
  apply mapM_Some_1 in Hm. clear Hrep Hn.
  remember (elements n) as els eqn:Hels. clear Hels n.
  revert children' Hm.
  induction Hch as [|j c js cs Hjc Hrest IHrest]; intros children' Hm.
  - now inversion Hm.
  - inversion Hm as [|? c' ? cs' Hc' Hcs']; subst. f_equal.
    + eapply IH; eassumption.
    + now apply IHrest.
Qed.

(** Nodes made later, and changes to nodes made earlier, leave the tree
    below a reference as it is. *)
Lemma represents_frame (h h' : heap) :
  heap_wf h ->
  forall t r,
    represents h r t ->
    (forall j, r <= j -> j < length h -> h' !! j = h !! j) ->
    represents h' r t.
Proof.
  intros Hwf t.
  induction t as [tg a children IH] using FilterTree_ind_nested.
  intros r Hrep Hsame.
  inversion Hrep as [r' n children' Hn Hch]; subst.
  assert (Hr : r < length h) by (eapply lookup_lt_Some; eassumption).
  constructor; [rewrite Hsame; [assumption|lia|assumption]|].
  pose proof (Hwf r n Hn) as Hbound.
  clear Hrep Hn.
  remember (elements n) as els eqn:Hels. clear Hels n.
  revert IH Hbound.
  induction Hch as [|j c js cs Hjc Hrest IHrest]; intros IH Hbound.
  - constructor.
  - apply Forall_cons in IH as [IHc IHcs].
    apply Forall_cons in Hbound as [[Hj1 Hj2] Hbs].
    constructor; [|now apply IHrest].
    apply IHc; [assumption|]. intros j' H1 H2. apply Hsame; lia.
Qed.

Lemma graft_children (r : nat) (children : list FilterTree) :
  Forall (fun t =>
            forall h i n, heap_wf h -> h !! i = Some n ->
              heap_wf (graft t h i)
              /\ length h < length (graft t h i)
              /\ (forall j, j < length h -> j <> i ->
                    graft t h i !! j = h !! j)
              /\ graft t h i !! i
                 = Some {| tag := tag n; parent := parent n;
                           assertion := assertion n;
                           elements := elements n ++ [length h] |}
              /\ represents (graft t h i) (length h) t) children ->
  forall hk m, heap_wf hk -> hk !! r = Some m ->
    let h' := fold_left (fun h' c => graft c h' r) children hk in
    heap_wf h' /\ length hk <= length h'
    /\ (forall j, j < length hk -> j <> r -> h' !! j = hk !! j)
    /\ exists idxs,
         h' !! r = Some {| tag := tag m; parent := parent m;
                           assertion := assertion m;
                           elements := elements m ++ idxs |}
         /\ Forall2 (represents h') idxs children
         /\ length idxs = length children.
Proof.
  induction children as [|c cs IHcs]; intros IH hk m Hwf Hm; cbn.
  - repeat split; try assumption; try lia.
    exists []. rewrite app_nil_r. split; [|split; [constructor|reflexivity]].
    rewrite Hm. now destruct m.
  - apply Forall_cons in IH as [IHc IHrest].
    destruct (IHc hk r m Hwf Hm) as (Hwf1 & Hlen1 & Hsame1 & Hr1 & Hrep1).
    destruct (IHcs IHrest _ _ Hwf1 Hr1)
      as (Hwf' & Hlen' & Hsame' & idxs & Hr' & Hreps & Hidx).
    assert (Hr : r < length hk) by (eapply lookup_lt_Some; eassumption).
    split; [assumption|]. split; [lia|]. split.
    { intros j Hj Hjr. rewrite Hsame' by (try assumption; lia). auto. }
    exists (length hk :: idxs). cbn in Hr'.
    rewrite <- app_assoc in Hr'. split; [exact Hr'|]. split.
    + constructor; [|assumption].
      eapply represents_frame; [exact Hwf1|exact Hrep1|].
      intros j H1 H2. apply Hsame'; lia.
    + cbn. now f_equal.
Qed.

(** Appending a tree under a node of the store leaves the nodes made
    before as they are, but for the new element of that node, and the
    nodes it makes make up the tree. *)
Lemma graft_spec (t : FilterTree) :
  forall h i n, heap_wf h -> h !! i = Some n ->
    heap_wf (graft t h i)
    /\ length h < length (graft t h i)
    /\ (forall j, j < length h -> j <> i -> graft t h i !! j = h !! j)
    /\ graft t h i !! i
       = Some {| tag := tag n; parent := parent n; assertion := assertion n;
                 elements := elements n ++ [length h] |}
    /\ represents (graft t h i) (length h) t.
Proof.
  induction t as [tg a children IH] using FilterTree_ind_nested.
  intros h i n Hwf Hn. cbn [graft].
  assert (Hi : i < length h) by (eapply lookup_lt_Some; eassumption).
  destruct (push_spec h i n (new_FilterNode tg a) Hn)
    as (_ & Hlen1 & Hr1 & Hi1 & Hsame1).
  pose proof (push_wf h i n (new_FilterNode tg a) Hwf eq_refl Hn) as Hwf1.
  destruct (graft_children (length h) children IH _ _ Hwf1 Hr1)
    as (Hwf' & Hlen' & Hsame' & idxs & Hr' & Hreps & _).
  cbv zeta in *. split; [assumption|]. split; [lia|]. split.
  { intros j Hj Hji. rewrite Hsame' by lia. apply Hsame1; lia. }
  split.
  { rewrite Hsame' by lia. exact Hi1. }
  cbn in Hr'.
  exact (represents_node _ _ _ children Hr' Hreps).
Qed.

(** The nodes at the cursor during and after the appending of the
    operands: the tag, the assertion and the parent of a node never
    change. *)
Lemma graft_keeps (t : FilterTree) (h : heap) (i j : nat) (n m : FilterNode) :
  heap_wf h -> h !! i = Some n -> h !! j = Some m ->
  exists m', graft t h i !! j = Some m' /\ tag m' = tag m
             /\ parent m' = parent m /\ assertion m' = assertion m.
Proof.
  intros Hwf Hn Hm.
  destruct (graft_spec t h i n Hwf Hn) as (_ & _ & Hsame & Hi & _).
  assert (Hj : j < length h) by (eapply lookup_lt_Some; eassumption).
  destruct (decide (j = i)) as [->|Hji].
  - rewrite Hn in Hm. injection Hm as <-. eexists. split; [exact Hi|].
    repeat split.
  - exists m. rewrite Hsame by assumption. auto.
Qed.

(** ** Plain text *)

Lemma contains_char_app (c : ascii) (a b : string) :
  PyStr.contains (String c "") (a +:+ b)
  = PyStr.contains (String c "") a || PyStr.contains (String c "") b.
Proof.
  induction a as [|x a IH]; [reflexivity|].
  rewrite app_cons, !contains_char_cons, IH. now rewrite orb_assoc.
Qed.

Lemma plain_no_special (s : string) (c : ascii) :
  plain s = true ->
  PyStr.isspace c = true \/ char_in c "()&|!=<>~:*\" = true ->
  PyStr.contains (String c "") s = false.
Proof.
  intros Hp Hc. induction s as [|x s IH]; [reflexivity|].
  cbn [plain] in Hp. apply andb_true_iff in Hp as [Hx Hs].
  rewrite contains_char_cons, (IH Hs), orb_false_r.
  destruct (Ascii.eqb c x) eqn:E; [|reflexivity].
  apply Ascii.eqb_eq in E. subst x. unfold plain_char in Hx.
  apply andb_true_iff in Hx as [H1 H2].
  destruct Hc as [Hc|Hc]; rewrite Hc in *; discriminate.
Qed.

(** [strip] leaves a string without white space as it is. *)
Lemma strip_no_space (s : string) :
  (forall c, PyStr.isspace c = true -> PyStr.contains (String c "") s = false) ->
  PyStr.strip s = s.
Proof.
  intros H. unfold PyStr.strip.
  assert (Hl : PyStr.lstrip s = s).
  { destruct s as [|x s]; [reflexivity|]. cbn [PyStr.lstrip].
    destruct (PyStr.isspace x) eqn:E; [|reflexivity].
    specialize (H x E). rewrite contains_char_cons, Ascii.eqb_refl in H.
    discriminate. }
  rewrite Hl. induction s as [|x s IH]; [reflexivity|].
  cbn [PyStr.rstrip]. rewrite IH.
  - destruct s; [|reflexivity].
    destruct (PyStr.isspace x) eqn:E; [|reflexivity].
    specialize (H x E). rewrite contains_char_cons, Ascii.eqb_refl in H.
    discriminate.
  - intros c Hc. specialize (H c Hc). rewrite contains_char_cons in H.
    now apply orb_false_iff in H as [_ H].
  - destruct s as [|y s]; [reflexivity|]. cbn [PyStr.lstrip].
    destruct (PyStr.isspace y) eqn:E; [|reflexivity].
    specialize (H y E). rewrite !contains_char_cons, Ascii.eqb_refl in H.
    rewrite orb_true_r in H. discriminate.
Qed.

Lemma plain_strip (s : string) : plain s = true -> PyStr.strip s = s.
Proof.
  intros Hp. apply strip_no_space. intros c Hc.
  apply plain_no_special; auto.
Qed.

Lemma plain_validate (v : string) :
  plain v = true -> validate_assertion_value v = v.
Proof.
  intros Hp. rewrite validate_unescaped.
  - now apply plain_strip.
  - apply plain_no_special; [assumption|]. now right.
Qed.

(** A separator that begins with a character the left part does not hold
    is found right after the left part. *)
Lemma partition_after (c0 : ascii) (sep' a r : string) :
  PyStr.contains (String c0 "") a = false ->
  PyStr.partition (String c0 sep') (a +:+ String c0 sep' +:+ r)
  = (a, String c0 sep', r).
Proof.
  intros H. induction a as [|x a IH].
  - rewrite app_empty_l.
    pose proof (startswith_self_app (String c0 sep') r) as Hs.
    pose proof (drop_app_str (String c0 sep') r) as Hd.
    rewrite app_cons in *. cbn [PyStr.partition]. now rewrite Hs, Hd.
  - rewrite contains_char_cons in H. apply orb_false_iff in H as [Hx H].
    rewrite app_cons. cbn [PyStr.partition PyStr.startswith].
    rewrite Hx. now rewrite (IH H).
Qed.

(** The clause of a match on plain text: [strip] leaves it as it is, and
    it holds a special character only where its operator has it. *)
Lemma clause_strip (a op v : string) :
  plain a = true -> plain v = true ->
  (forall c, PyStr.isspace c = true -> PyStr.contains (String c "") op = false) ->
  PyStr.strip (a +:+ op +:+ v) = a +:+ op +:+ v.
Proof.
  intros Ha Hv Hop. apply strip_no_space. intros c Hc.
  rewrite !contains_char_app, (Hop c Hc).
  rewrite !plain_no_special by auto. reflexivity.
Qed.

Lemma clause_without (c : ascii) (p a op v : string) :
  plain a = true -> plain v = true ->
  char_in c "()&|!=<>~:*\" = true ->
  PyStr.contains (String c "") op = false ->
  PyStr.contains (String c p) (a +:+ op +:+ v) = false.
Proof.
  intros Ha Hv Hc Hop.
  destruct (PyStr.contains (String c p) _) eqn:E; [|reflexivity].
  apply contains_head in E.
  rewrite !contains_char_app, Hop in E.
  rewrite !plain_no_special in E by auto. discriminate.
Qed.

Lemma no_space_char (c x : ascii) :
  PyStr.isspace x = false -> PyStr.isspace c = true -> Ascii.eqb c x = false.
Proof.
  intros Hx Hc. destruct (Ascii.eqb c x) eqn:E; [|reflexivity].
  apply Ascii.eqb_eq in E. congruence.
Qed.

Ltac operator_no_space :=
  let c := fresh "c" in
  let Hc := fresh "Hc" in
  intros c Hc; rewrite ?contains_char_cons;
  repeat match goal with
         | |- context [Ascii.eqb c ?x] =>
             rewrite (no_space_char c x) by (reflexivity || assumption)
         end;
  reflexivity.

Lemma evaluate_match_plain_equal (a v : string) :
  plain a = true -> plain v = true ->
  evaluate_match (a +:+ "=" +:+ v)
  = Ok (new_FilterNode MATCH_EQUAL (Some (AttrValue a v))).
Proof.
  intros Ha Hv. unfold evaluate_match.
  rewrite (clause_strip a "=" v Ha Hv) by operator_no_space.
  rewrite !(clause_without _ "=" a "=" v) by (assumption || reflexivity).
  destruct (PyStr.endswith "=*" _) eqn:E.
  { apply endswith_contains, contains_tail in E.
    rewrite (clause_without "*" "" a "=" v) in E by (assumption || reflexivity).
    discriminate. }
  rewrite (clause_without "*" "" a "=" v) by (assumption || reflexivity).
  rewrite andb_false_r.
  assert (Heq : PyStr.contains "=" (a +:+ "=" +:+ v) = true).
  { rewrite !contains_char_app. cbn. now rewrite orb_true_r. }
  rewrite Heq, (partition_after "=" "" a v).
  - now rewrite (plain_strip a Ha), (plain_validate v Hv).
  - apply plain_no_special; [assumption|]. now right.
Qed.

Lemma evaluate_match_plain_greater (a v : string) :
  plain a = true -> plain v = true ->
  evaluate_match (a +:+ ">=" +:+ v)
  = Ok (new_FilterNode MATCH_GREATER_OR_EQUAL (Some (AttrValue a v))).
Proof.
  intros Ha Hv. unfold evaluate_match.
  rewrite (clause_strip a ">=" v Ha Hv) by operator_no_space.
  rewrite (clause_without "~" "=" a ">=" v) by (assumption || reflexivity).
  assert (Hop : PyStr.contains ">=" (a +:+ ">=" +:+ v) = true).
  { apply contains_app_r, contains_app_l. reflexivity. }
  rewrite Hop, (partition_after ">" "=" a v).
  - now rewrite (plain_strip a Ha), (plain_validate v Hv).
  - apply plain_no_special; [assumption|]. now right.
Qed.

Lemma evaluate_match_plain_less (a v : string) :
  plain a = true -> plain v = true ->
  evaluate_match (a +:+ "<=" +:+ v)
  = Ok (new_FilterNode MATCH_LESS_OR_EQUAL (Some (AttrValue a v))).
Proof.
  intros Ha Hv. unfold evaluate_match.
  rewrite (clause_strip a "<=" v Ha Hv) by operator_no_space.
  rewrite (clause_without "~" "=" a "<=" v) by (assumption || reflexivity).
  rewrite (clause_without ">" "=" a "<=" v) by (assumption || reflexivity).
  assert (Hop : PyStr.contains "<=" (a +:+ "<=" +:+ v) = true).
  { apply contains_app_r, contains_app_l. reflexivity. }
  rewrite Hop, (partition_after "<" "=" a v).
  - now rewrite (plain_strip a Ha), (plain_validate v Hv).
  - apply plain_no_special; [assumption|]. now right.
Qed.

Lemma evaluate_match_plain_present (a : string) :
  plain a = true ->
  evaluate_match (a +:+ "=*")
  = Ok (new_FilterNode MATCH_PRESENT (Some (PresentAssertion a))).
Proof.
  intros Ha. apply evaluate_match_ends_with_star.
  all: rewrite <- (app_empty_r (a +:+ "=*")), app_assoc_str.
  all: rewrite (clause_strip a "=*" "" Ha eq_refl) by operator_no_space.
  1-4: apply clause_without; (assumption || reflexivity).
  reflexivity.
Qed.

(** ** The scan of the text of a filter *)

Lemma drop_drop (a b : nat) (s : string) :
  PyStr.drop (a + b) s = PyStr.drop b (PyStr.drop a s).
Proof.
  revert s. induction a as [|a IH]; intros s; [reflexivity|].
  destruct s as [|c s]; cbn [Nat.add PyStr.drop].
  - destruct b; reflexivity.
  - apply IH.
Qed.

Lemma drop_succ (pos : nat) (sf : string) (c : ascii) (rest : string) :
  PyStr.drop pos sf = String c rest -> PyStr.drop (S pos) sf = rest.
Proof.
  intros H. replace (S pos) with (pos + 1) by lia.
  now rewrite drop_drop, H.
Qed.

Lemma drop_past (pos : nat) (sf x rest : string) :
  PyStr.drop pos sf = x +:+ rest ->
  PyStr.drop (pos + String.length x) sf = rest.
Proof. intros H. now rewrite drop_drop, H, drop_app_str. Qed.

(** An opening parenthesis, where one may come. *)
Lemma scan_char_open (sf : string) (st : ScannerState) (h : heap)
    (cur : option nat) (sk jc : bool) (pos : nat) :
  st = SEARCH_OPEN \/ st = SEARCH_OPEN_OR_CLOSE ->
  scan_char sf {| state := st; store := h; current_node := cur;
                  start_pos := None; skip_white_space := sk;
                  just_closed := jc |} pos "("
  = Ok {| state := SEARCH_MATCH_OR_CONTROL; store := h; current_node := cur;
          start_pos := None; skip_white_space := sk; just_closed := false |}.
Proof.
  intros Hst. unfold scan_char.
  cbn [state store current_node start_pos skip_white_space just_closed].
  replace (char_in "(" PyStr.whitespace) with false by reflexivity.
  rewrite andb_false_r.
  destruct Hst as [-> | ->]; reflexivity.
Qed.

(** [&] or [!] after it: a node is made under the cursor, which goes down
    to it. *)
Lemma scan_char_operator (sf : string) (h : heap) (i : nat) (n : FilterNode)
    (sk : bool) (pos : nat) (c : ascii) (t : Tag) :
  (c = "&"%char /\ t = AND) \/ (c = "!"%char /\ t = NOT) ->
  h !! i = Some n ->
  scan_char sf {| state := SEARCH_MATCH_OR_CONTROL; store := h;
                  current_node := Some i; start_pos := None;
                  skip_white_space := sk; just_closed := false |} pos c
  = Ok {| state := SEARCH_OPEN; store := push h i (new_FilterNode t None);
          current_node := Some (length h); start_pos := None;
          skip_white_space := sk; just_closed := false |}.
Proof.
  intros Hc Hn. unfold scan_char.
  cbn [state store current_node start_pos skip_white_space just_closed].
  destruct (push_spec h i n (new_FilterNode t None) Hn) as (Happ & _).
  destruct Hc as [[-> ->]|[-> ->]].
  - replace (char_in "&" PyStr.whitespace) with false by reflexivity.
    rewrite andb_false_r. cbn [bool_decide].
    change (new_FilterNode (if Ascii.eqb "&" "&" then AND
                            else if Ascii.eqb "&" "|" then OR else NOT) None)
      with (new_FilterNode AND None).
    rewrite Happ. reflexivity.
  - replace (char_in "!" PyStr.whitespace) with false by reflexivity.
    rewrite andb_false_r.
    change (new_FilterNode (if Ascii.eqb "!" "&" then AND
                            else if Ascii.eqb "!" "|" then OR else NOT) None)
      with (new_FilterNode NOT None).
    rewrite Happ. reflexivity.
Qed.

(** A closing parenthesis right after another: the cursor goes up. *)
Lemma scan_char_ascend (sf : string) (h : heap) (r : nat) (m : FilterNode)
    (sk : bool) (pos : nat) :
  h !! r = Some m ->
  scan_char sf {| state := SEARCH_OPEN_OR_CLOSE; store := h;
                  current_node := Some r; start_pos := None;
                  skip_white_space := sk; just_closed := true |} pos ")"
  = Ok {| state := SEARCH_OPEN_OR_CLOSE; store := h;
          current_node := parent m; start_pos := None;
          skip_white_space := sk; just_closed := true |}.
Proof.
  intros Hm. unfold scan_char, deref.
  cbn [state store current_node start_pos skip_white_space just_closed].
  replace (char_in ")" PyStr.whitespace) with false by reflexivity.
  rewrite andb_false_r, Hm. reflexivity.
Qed.

(** A clause in parentheses, somewhere in the text: its leaf is appended
    under the cursor. *)
Lemma scan_clause (sf : string) (pos : nat) (post : string) (c0 : ascii)
    (rest : string) (st : ScannerState) (sk jc : bool) (h : heap) (i : nat)
    (n leaf : FilterNode) :
  PyStr.drop pos sf = "(" +:+ String c0 rest +:+ ")" +:+ post ->
  st = SEARCH_OPEN \/ st = SEARCH_OPEN_OR_CLOSE ->
  char_in c0 PyStr.whitespace = false ->
  char_in c0 "&!|" = false ->
  PyStr.contains "(" (String c0 rest) = false ->
  PyStr.contains ")" (String c0 rest) = false ->
  h !! i = Some n ->
  (tag n = NOT -> elements n = []) ->
  evaluate_match (String c0 rest) = Ok leaf ->
  scan sf ("(" +:+ String c0 rest +:+ ")") pos
    {| state := st; store := h; current_node := Some i; start_pos := None;
       skip_white_space := sk; just_closed := jc |}
  = Ok {| state := SEARCH_OPEN_OR_CLOSE; store := push h i leaf;
          current_node := Some i; start_pos := None;
          skip_white_space := true; just_closed := true |}.
Proof.
  intros Hdrop Hst Hws Hctl Ho Hc Hn Hnot Hleaf.
  set (clause := String c0 rest) in *.
  rewrite app_cons, app_empty_l in Hdrop |- *.
  pose proof (drop_succ _ _ _ _ Hdrop) as Hdrop1.
  cbn [scan]. rewrite scan_char_open by assumption.
  cbn [mbind result_bind]. rewrite scan_app.
  pose proof Ho as Ho'. pose proof Hc as Hc'.
  unfold clause in Ho', Hc'. rewrite contains_char_cons in Ho', Hc'.
  apply orb_false_iff in Ho' as [Ho0 Hor].
  apply orb_false_iff in Hc' as [Hc0 Hcr].
  assert (Hmid :
            scan sf clause (S pos)
              {| state := SEARCH_MATCH_OR_CONTROL; store := h;
                 current_node := Some i; start_pos := None;
                 skip_white_space := sk; just_closed := false |}
            = Ok {| state := SEARCH_MATCH_OR_CLOSE; store := h;
                    current_node := Some i; start_pos := Some (S pos);
                    skip_white_space := false; just_closed := false |}).
  { unfold clause. cbn [scan].
    assert (Hfirst :
              scan_char sf
                {| state := SEARCH_MATCH_OR_CONTROL; store := h;
                   current_node := Some i; start_pos := None;
                   skip_white_space := sk; just_closed := false |} (S pos) c0
              = Ok {| state := SEARCH_MATCH_OR_CLOSE; store := h;
                      current_node := Some i; start_pos := Some (S pos);
                      skip_white_space := false; just_closed := false |}).
    { unfold scan_char.
      cbn [state store current_node start_pos skip_white_space just_closed].
      rewrite Hws, Hctl, (char_in_parens c0 Ho0 Hc0), andb_false_r.
      reflexivity. }
    rewrite Hfirst. cbn [mbind result_bind].
    apply scan_clause_chars; try reflexivity; assumption. }
  rewrite Hmid. cbn [mbind result_bind scan].
  unfold scan_char, deref.
  cbn [state store current_node start_pos skip_white_space just_closed].
  rewrite Hn. cbn [andb].
  replace (PyStr.slice (default 0 (Some (S pos)))
             (S pos + String.length clause) sf) with clause.
  2:{ unfold PyStr.slice. change (default 0 (Some (S pos))) with (S pos).
      replace (S pos + String.length clause - S pos)
        with (String.length clause) by lia.
      now rewrite Hdrop1, take_app_str. }
  change (Ascii.eqb ")" "(") with false.
  change (Ascii.eqb ")" ")") with true.
  change (char_in ")" "&!|") with false.
  rewrite Hleaf.
  destruct (push_spec h i n leaf Hn) as (Happ & _).
  assert (Hguard : bool_decide (tag n = NOT) && (0 <? length (elements n))
                   = false).
  { destruct (decide (tag n = NOT)) as [Ht|Ht].
    - rewrite (Hnot Ht). apply andb_false_r.
    - now rewrite (bool_decide_false _ Ht). }
  cbn [mbind result_bind]. rewrite Hguard.
  cbn [mbind result_bind]. rewrite Happ. reflexivity.
Qed.

Lemma Filter_ind_nested (P : Filter -> Prop) :
  (forall filters, Forall P filters -> P (F_and filters)) ->
  (forall filters, Forall P filters -> P (F_or filters)) ->
  (forall inner, P inner -> P (F_notFilter inner)) ->
  (forall f, (forall filters, f <> F_and filters) ->
             (forall filters, f <> F_or filters) ->
             (forall inner, f <> F_notFilter inner) -> P f) ->
  forall f, P f.
Proof.
  intros Hand Hor Hnot Hleaf. fix IH 1. intros f.
  destruct f as [fs|fs|g| | | | | | |].
  - apply Hand. induction fs as [|c cs IHcs]; constructor; [apply IH|exact IHcs].
  - apply Hor. induction fs as [|c cs IHcs]; constructor; [apply IH|exact IHcs].
  - apply Hnot. apply IH.
  - apply Hleaf; discriminate.
  - apply Hleaf; discriminate.
  - apply Hleaf; discriminate.
  - apply Hleaf; discriminate.
  - apply Hleaf; discriminate.
  - apply Hleaf; discriminate.
  - apply Hleaf; discriminate.
Qed.

Section TextOfFilters.

Variable m : option string -> option string -> string -> bool -> string.

Lemma text_and (filters : list Filter) :
  filter_to_string m (F_and filters)
  = String "(" (String "&" (concat_texts m filters +:+ ")")).
Proof.
  change (String "(" (String "&" (concat_texts m filters +:+ ")")))
    with ("(" +:+ "&" +:+ concat_texts m filters +:+ ")").
  cbn [filter_to_string]. rewrite !app_assoc_str.
  match goal with
  | |- _ +:+ _ +:+ ?X +:+ _ = _ =>
      replace X with (concat_texts m filters); [reflexivity|]
  end.
  induction filters as [|f fs IH]; [reflexivity|].
  cbn [concat_texts fold_right]. f_equal; try exact IH.
Qed.

Lemma text_not (inner : Filter) :
  filter_to_string m (F_notFilter inner)
  = String "(" (String "!" (filter_to_string m inner +:+ ")")).
Proof.
  change (String "(" (String "!" (filter_to_string m inner +:+ ")")))
    with ("(" +:+ "!" +:+ filter_to_string m inner +:+ ")").
  cbn [filter_to_string]. now rewrite !app_assoc_str.
Qed.

Lemma whitespace_isspace (c : ascii) :
  PyStr.isspace c = false -> char_in c PyStr.whitespace = false.
Proof.
  intros H. unfold char_in, PyStr.whitespace.
  rewrite !contains_char_cons.
  repeat match goal with
         | |- context [Ascii.eqb c ?x] =>
             rewrite (Ascii.eqb_sym c x), (no_space_char x c) by
               (reflexivity || assumption)
         end.
  reflexivity.
Qed.

Lemma plain_char_first (c : ascii) :
  plain_char c = true ->
  char_in c PyStr.whitespace = false /\ char_in c "&!|" = false.
Proof.
  unfold plain_char. intros H. apply andb_true_iff in H as [Hs Hp].
  apply negb_true_iff in Hs, Hp. split; [now apply whitespace_isspace|].
  unfold char_in in *. rewrite !contains_char_cons in *.
  repeat match type of Hp with
         | _ || _ = false => apply orb_false_iff in Hp as [? Hp]
         end.
  repeat match goal with
         | H : Ascii.eqb c ?x = false |- context [Ascii.eqb c ?x] =>
             rewrite H
         end.
  reflexivity.
Qed.

(** The clause of a match on plain text, in parentheses. *)
Lemma scan_plain_clause (sf : string) (pos : nat) (post a v : string)
    (o0 : ascii) (op' : string) (st : ScannerState) (sk jc : bool) (h : heap)
    (i : nat) (n leaf : FilterNode) :
  plain a = true -> plain v = true ->
  char_in o0 PyStr.whitespace = false ->
  char_in o0 "&!|" = false ->
  PyStr.contains "(" (String o0 op') = false ->
  PyStr.contains ")" (String o0 op') = false ->
  PyStr.drop pos sf = "(" +:+ a +:+ String o0 op' +:+ v +:+ ")" +:+ post ->
  st = SEARCH_OPEN \/ st = SEARCH_OPEN_OR_CLOSE ->
  h !! i = Some n ->
  (tag n = NOT -> elements n = []) ->
  evaluate_match (a +:+ String o0 op' +:+ v) = Ok leaf ->
  scan sf ("(" +:+ a +:+ String o0 op' +:+ v +:+ ")") pos
    {| state := st; store := h; current_node := Some i; start_pos := None;
       skip_white_space := sk; just_closed := jc |}
  = Ok {| state := SEARCH_OPEN_OR_CLOSE; store := push h i leaf;
          current_node := Some i; start_pos := None;
          skip_white_space := true; just_closed := true |}.
Proof.
  intros Ha Hv Hws Hctl Ho Hc Hdrop Hst Hn Hnot Hleaf.
  replace (a +:+ String o0 op' +:+ v +:+ ")" +:+ post)
    with ((a +:+ String o0 op' +:+ v) +:+ ")" +:+ post) in Hdrop
    by (now rewrite !app_assoc_str).
  replace (a +:+ String o0 op' +:+ v +:+ ")")
    with ((a +:+ String o0 op' +:+ v) +:+ ")")
    by (now rewrite !app_assoc_str).
  assert (Hpo : PyStr.contains "(" (a +:+ String o0 op' +:+ v) = false).
  { rewrite !contains_char_app, Ho.
    rewrite !plain_no_special by (assumption || now right). reflexivity. }
  assert (Hpc : PyStr.contains ")" (a +:+ String o0 op' +:+ v) = false).
  { rewrite !contains_char_app, Hc.
    rewrite !plain_no_special by (assumption || now right). reflexivity. }
  destruct a as [|x a'].
  - rewrite app_empty_l in *. rewrite app_cons in *.
    eapply scan_clause; eassumption.
  - rewrite app_cons in *. cbn [plain] in Ha.
    apply andb_true_iff in Ha as [Hx _].
    destruct (plain_char_first x Hx) as [Hxw Hxc].
    eapply scan_clause; eassumption.
Qed.

End TextOfFilters.

Section ScanOfTexts.

Variable m : option string -> option string -> string -> bool -> string.

Lemma graft_spec_all (children : list FilterTree) :
  Forall (fun t =>
            forall h i n, heap_wf h -> h !! i = Some n ->
              heap_wf (graft t h i)
              /\ length h < length (graft t h i)
              /\ (forall j, j < length h -> j <> i ->
                    graft t h i !! j = h !! j)
              /\ graft t h i !! i
                 = Some {| tag := tag n; parent := parent n;
                           assertion := assertion n;
                           elements := elements n ++ [length h] |}
              /\ represents (graft t h i) (length h) t) children.
Proof. apply Forall_forall. intros t _. apply graft_spec. Qed.

(** The operands of a conjunction, one after the other, under the node
    of the conjunction. *)
Lemma scan_operands (sf : string) (r : nat) (filters : list Filter) :
  Forall (scans_to_tree m) filters ->
  forall (pos : nat) (post : string) (st : ScannerState) (sk jc : bool)
         (h : heap) (nr : FilterNode),
    PyStr.drop pos sf = concat_texts m filters +:+ post ->
    st = SEARCH_OPEN \/ st = SEARCH_OPEN_OR_CLOSE ->
    heap_wf h ->
    h !! r = Some nr ->
    tag nr = AND ->
    scan sf (concat_texts m filters) pos
      {| state := st; store := h; current_node := Some r; start_pos := None;
         skip_white_space := sk; just_closed := jc |}
    = Ok match filters with
         | [] =>
             {| state := st; store := h; current_node := Some r;
                start_pos := None; skip_white_space := sk;
                just_closed := jc |}
         | _ :: _ =>
             {| state := SEARCH_OPEN_OR_CLOSE;
                store := fold_left (fun h' c => graft c h' r)
                           (List.map filter_tree filters) h;
                current_node := Some r; start_pos := None;
                skip_white_space := true; just_closed := true |}
         end.
Proof.
  induction filters as [|f fs IHfs]; intros IH pos post st sk jc h nr
    Hdrop Hst Hwf Hr Htag; [reflexivity|].
  apply Forall_cons in IH as [IHf IHrest].
  cbn [concat_texts fold_right] in Hdrop |- *.
  fold (concat_texts m fs) in Hdrop |- *.
  rewrite app_assoc_str in Hdrop. rewrite scan_app.
  rewrite (IHf sf pos (concat_texts m fs +:+ post) st sk jc h r nr)
    by (try assumption; congruence).
  cbn [mbind result_bind].
  destruct (graft_spec (filter_tree f) h r nr Hwf Hr) as (Hwf' & _).
  destruct (graft_keeps (filter_tree f) h r r nr nr Hwf Hr Hr)
    as (nr' & Hr' & Htag' & _).
  rewrite (IHfs IHrest _ post SEARCH_OPEN_OR_CLOSE true true _ nr');
    try assumption; try congruence; try (now right).
  - destruct fs; reflexivity.
  - now apply drop_past.
Qed.

Lemma scans_to_tree_all (f : Filter) :
  comes_back f = true -> scans_to_tree m f.
Proof.
  induction f as [fs IH|fs IH|g IH|f Hna Hno Hnn] using Filter_ind_nested;
    intros Hcb.
  - (* a conjunction *)
    intros sf pos post st sk jc h i n Hdrop Hst Hwf Hn Hnot.
    rewrite text_and in Hdrop |- *. rewrite !app_cons in Hdrop.
    pose proof (drop_succ _ _ _ _ Hdrop) as Hdrop1.
    pose proof (drop_succ _ _ _ _ Hdrop1) as Hdrop2.
    rewrite app_assoc_str in Hdrop2.
    cbn [scan]. rewrite scan_char_open by assumption.
    cbn [mbind result_bind].
    rewrite (scan_char_operator sf h i n sk (S pos) "&" AND)
      by (auto || assumption).
    cbn [mbind result_bind]. rewrite scan_app.
    destruct (push_spec h i n (new_FilterNode AND None) Hn)
      as (_ & Hlen1 & Hr1 & Hi1 & Hsame1).
    pose proof (push_wf h i n (new_FilterNode AND None) Hwf eq_refl Hn)
      as Hwf1.
    assert (IH' : Forall (scans_to_tree m) fs).
    { cbn [comes_back] in Hcb. destruct fs as [|f0 fs0]; [discriminate|].
      rewrite Forall_forall in IH |- *. intros f Hin. apply IH; [assumption|].
      rewrite forallb_forall in Hcb. apply Hcb. now apply list_elem_of_In. }
    rewrite (scan_operands sf (length h) fs IH' (S (S pos)) (")" +:+ post)
               SEARCH_OPEN sk false _ _ Hdrop2 ltac:(now left) Hwf1 Hr1
               eq_refl).
    cbn [mbind result_bind].
    destruct fs as [|f0 fs0]; [discriminate Hcb|].
    destruct (graft_children (length h) (List.map filter_tree (f0 :: fs0))
                (graft_spec_all _) _ _ Hwf1 Hr1)
      as (_ & _ & _ & idxs & Hr' & _).
    cbn [scan]. rewrite (scan_char_ascend _ _ _ _ _ _ Hr').
    reflexivity.
  - discriminate Hcb.
  - (* a negation *)
    intros sf pos post st sk jc h i n Hdrop Hst Hwf Hn Hnot.
    rewrite text_not in Hdrop |- *. rewrite !app_cons in Hdrop.
    pose proof (drop_succ _ _ _ _ Hdrop) as Hdrop1.
    pose proof (drop_succ _ _ _ _ Hdrop1) as Hdrop2.
    rewrite app_assoc_str in Hdrop2.
    cbn [scan]. rewrite scan_char_open by assumption.
    cbn [mbind result_bind].
    rewrite (scan_char_operator sf h i n sk (S pos) "!" NOT)
      by (auto || assumption).
    cbn [mbind result_bind]. rewrite scan_app.
    destruct (push_spec h i n (new_FilterNode NOT None) Hn)
      as (_ & Hlen1 & Hr1 & Hi1 & Hsame1).
    pose proof (push_wf h i n (new_FilterNode NOT None) Hwf eq_refl Hn)
      as Hwf1.
    rewrite (IH Hcb sf (S (S pos)) (")" +:+ post) SEARCH_OPEN sk false _ _ _
               Hdrop2 ltac:(now left) Hwf1 Hr1 ltac:(reflexivity)).
    cbn [mbind result_bind].
    destruct (graft_keeps (filter_tree g) _ _ _ _ _ Hwf1 Hr1 Hr1)
      as (nr' & Hr' & _ & Hpar & _).
    cbn [scan]. rewrite (scan_char_ascend _ _ _ _ _ _ Hr'). rewrite Hpar.
    reflexivity.
  - (* a match *)
    intros sf pos post st sk jc h i n Hdrop Hst Hwf Hn Hnot.
    destruct f as [fs|fs|g|a v|a subs|a v|a v|a|a v|rule a v dn];
      try discriminate Hcb;
      try (exfalso; eapply Hna; reflexivity);
      try (exfalso; eapply Hnn; reflexivity);
      cbn [comes_back] in Hcb;
      try (apply andb_true_iff in Hcb as [Ha Hv]);
      cbn [filter_to_string ava_to_dict attribute value] in Hdrop |- *;
      cbn [filter_tree graft fold_left];
      repeat rewrite app_assoc_str in Hdrop;
      repeat rewrite app_assoc_str.
    + apply (scan_plain_clause sf pos post a v "=" "" st sk jc h i n);
        try assumption; try reflexivity.
      now apply evaluate_match_plain_equal.
    + apply (scan_plain_clause sf pos post a v ">" "=" st sk jc h i n);
        try assumption; try reflexivity.
      now apply evaluate_match_plain_greater.
    + apply (scan_plain_clause sf pos post a v "<" "=" st sk jc h i n);
        try assumption; try reflexivity.
      now apply evaluate_match_plain_less.
    + apply (scan_plain_clause sf pos post a "" "=" "*" st sk jc h i n);
        try assumption; try reflexivity.
      rewrite app_empty_r. now apply evaluate_match_plain_present.
Qed.

End ScanOfTexts.

(** ** From the text of a filter back to the filter *)

Section BackFromText.

Variable m : option string -> option string -> string -> bool -> string.

Lemma count_plain (c : ascii) (s : string) :
  plain s = true -> char_in c "()&|!=<>~:*\" = true ->
  PyStr.count (String c "") s = 0.
Proof.
  intros Hs Hc. apply count_char_absent, plain_no_special; auto.
Qed.

(** The text has as many opening as closing parentheses: one pair for
    each node. *)
Lemma text_balanced (f : Filter) :
  comes_back f = true ->
  PyStr.count "(" (filter_to_string m f)
  = PyStr.count ")" (filter_to_string m f).
Proof.
  induction f as [fs IH|fs IH|g IH|f Hna Hno Hnn] using Filter_ind_nested;
    intros Hcb.
  - rewrite text_and, !count_char_cons, !count_char_app.
    change (PyStr.count "(" ")") with 0. change (PyStr.count ")" ")") with 1.
    cbn [Ascii.eqb Bool.eqb].
    assert (Hsum : PyStr.count "(" (concat_texts m fs)
                   = PyStr.count ")" (concat_texts m fs)).
    { cbn [comes_back] in Hcb.
      assert (Hall : forallb comes_back fs = true)
        by (destruct fs; [discriminate|exact Hcb]).
      clear Hcb. induction fs as [|f fs IHfs]; [reflexivity|].
      apply Forall_cons in IH as [IHf IHrest].
      cbn in Hall. apply andb_true_iff in Hall as [Hf Hfs].
      cbn [concat_texts fold_right]. fold (concat_texts m fs).
      rewrite !count_char_app, (IHf Hf), (IHfs IHrest Hfs). reflexivity. }
    rewrite Hsum. cbn. lia.
  - discriminate.
  - rewrite text_not, !count_char_cons, !count_char_app, (IH Hcb).
    change (PyStr.count "(" ")") with 0. change (PyStr.count ")" ")") with 1.
    cbn. lia.
  - destruct f as [fs|fs|g|a v|a subs|a v|a v|a|a v|rule a v dn];
      try discriminate Hcb;
      try (exfalso; eapply Hna; reflexivity);
      try (exfalso; eapply Hnn; reflexivity);
      cbn [comes_back] in Hcb;
      try (apply andb_true_iff in Hcb as [Ha Hv]);
      cbn [filter_to_string ava_to_dict attribute value];
      rewrite !count_char_app.
    + rewrite !(count_plain _ a), !(count_plain _ v)
        by (assumption || reflexivity).
      reflexivity.
    + rewrite !(count_plain _ a), !(count_plain _ v)
        by (assumption || reflexivity).
      reflexivity.
    + rewrite !(count_plain _ a), !(count_plain _ v)
        by (assumption || reflexivity).
      reflexivity.
    + rewrite !(count_plain _ a) by (assumption || reflexivity).
      reflexivity.
Qed.

Lemma text_in_parentheses (f : Filter) :
  comes_back f = true ->
  exists body, filter_to_string m f = "(" +:+ body +:+ ")".
Proof.
  intros Hcb.
  destruct f as [fs|fs|g|a v|a subs|a v|a v|a|a v|rule a v dn];
    try discriminate Hcb.
  - exists ("&" +:+ concat_texts m fs). rewrite text_and. reflexivity.
  - exists ("!" +:+ filter_to_string m g). rewrite text_not. reflexivity.
  - cbn [filter_to_string]. rewrite app_assoc_str. eauto.
  - cbn [filter_to_string]. rewrite app_assoc_str. eauto.
  - cbn [filter_to_string]. rewrite app_assoc_str. eauto.
  - cbn [filter_to_string]. rewrite app_assoc_str. eauto.
Qed.

(** The tree of a filter compiles to the filter. *)
Lemma compile_filter_tree (f : Filter) :
  comes_back f = true -> compile_filter (filter_tree f) = Ok f.
Proof.
  induction f as [fs IH|fs IH|g IH|f Hna Hno Hnn] using Filter_ind_nested;
    intros Hcb.
  - cbn [filter_tree compile_filter].
    assert (Hall : forallb comes_back fs = true)
      by (cbn [comes_back] in Hcb; destruct fs; [discriminate|exact Hcb]).
    clear Hcb.
    match goal with
    | |- ?compile_all _ ≫= _ = _ =>
        assert (Hfs : compile_all (List.map filter_tree fs) = Ok fs)
    end.
    { induction fs as [|f fs IHfs]; [reflexivity|].
      apply Forall_cons in IH as [IHf IHrest].
      cbn in Hall. apply andb_true_iff in Hall as [Hf Hfs].
      cbn [List.map]. rewrite (IHf Hf). cbn [mbind result_bind].
      rewrite (IHfs IHrest Hfs). reflexivity. }
    rewrite Hfs. reflexivity.
  - discriminate.
  - cbn [filter_tree compile_filter]. cbn [comes_back] in Hcb.
    rewrite (IH Hcb). reflexivity.
  - destruct f as [fs|fs|g|a v|a subs|a v|a v|a|a v|rule a v dn];
      try discriminate Hcb;
      try (exfalso; eapply Hna; reflexivity);
      try (exfalso; eapply Hnn; reflexivity);
      reflexivity.
Qed.

(** The text of a filter of [comes_back] parses to the tree of the
    filter under [ROOT]. *)
Lemma parse_filter_text (f : Filter) :
  comes_back f = true ->
  parse_filter (filter_to_string m f)
  = Ok (Tree ROOT None [filter_tree f]).
Proof.
  intros Hcb. unfold parse_filter.
  destruct (text_in_parentheses f Hcb) as [body Hbody].
  assert (Hstrip : PyStr.strip (filter_to_string m f) = filter_to_string m f).
  { rewrite Hbody. apply strip_parenthesized. }
  rewrite Hstrip.
  assert (Hpre : PyStr.truthy (filter_to_string m f)
                 && (PyStr.count "(" (filter_to_string m f)
                     =? PyStr.count ")" (filter_to_string m f))
                 && PyStr.startswith "(" (filter_to_string m f)
                 && PyStr.endswith ")" (filter_to_string m f) = true).
  { rewrite (text_balanced f Hcb), Nat.eqb_refl, Hbody.
    rewrite <- (app_assoc_str "(" body ")"), endswith_app.
    reflexivity. }
  rewrite Hpre.
  assert (Hwf0 : heap_wf [new_FilterNode ROOT None]).
  { intros i n Hi. destruct i; [|discriminate]. injection Hi as <-.
    constructor. }
  pose proof (scans_to_tree_all m f Hcb (filter_to_string m f) 0 ""
                SEARCH_OPEN_OR_CLOSE true false [new_FilterNode ROOT None] 0
                (new_FilterNode ROOT None)) as Hscan.
  rewrite app_empty_r in Hscan.
  specialize (Hscan eq_refl ltac:(now right) Hwf0 eq_refl
                ltac:(discriminate)).
  change {| state := SEARCH_OPEN_OR_CLOSE;
            store := [new_FilterNode ROOT None];
            current_node := Some 0; start_pos := None;
            skip_white_space := true; just_closed := false |}
    with initial_scan in Hscan.
  rewrite Hscan. cbn [mbind result_bind store].
  destruct (graft_spec (filter_tree f) [new_FilterNode ROOT None] 0
              (new_FilterNode ROOT None) Hwf0 eq_refl)
    as (Hwf' & Hlen' & _ & Hroot' & Hrep).
  set (h' := graft (filter_tree f) [new_FilterNode ROOT None] 0) in *.
  unfold deref, root_ref. rewrite Hroot'. cbn [mbind result_bind].
  cbn [elements new_FilterNode app length Nat.eqb negb].
  assert (Hrep0 : represents h' 0 (Tree ROOT None [filter_tree f])).
  { apply (represents_node h' 0 _ [filter_tree f] Hroot').
    cbn. constructor; [exact Hrep|constructor]. }
  destruct (tree_of_wf h' Hwf' (length h') 0 ltac:(lia) ltac:(lia))
    as [t Ht].
  rewrite Ht. f_equal. eapply represents_tree_of; eassumption.
Qed.

(** The round trip on the filters of [comes_back]: conjunctions with at
    least one operand, negations, and equality, ordering and presence
    matches on plain text.  The text that [filter_to_string] writes for
    such a compiled filter is accepted by [build_filter], which compiles
    it to the same filter. *)
Theorem build_filter_of_text (f : Filter) :
  comes_back f = true ->
  build_filter (filter_to_string m f) = Ok f.
Proof.
  intros Hcb. unfold build_filter.
  rewrite (parse_filter_text f Hcb). cbn.
  now apply compile_filter_tree.
Qed.

End BackFromText.

Lemma build_filter_of_text_witness :
  build_filter "(&(cn=Bob)(!(uid>=1000))(sn=*))"
  = Ok (F_and [F_equalityMatch "cn" "Bob";
               F_notFilter (F_greaterOrEqual "uid" "1000");
               F_present "sn"]).
Proof.
  apply (build_filter_of_text (fun _ _ _ _ => "")
           (F_and [F_equalityMatch "cn" "Bob";
                   F_notFilter (F_greaterOrEqual "uid" "1000");
                   F_present "sn"])).
  reflexivity.
Defined.

(** ** The text of a disjunction *)

Lemma append_first_is_not (h h' : heap) (self : option nat)
    (node : FilterNode) (r : nat) :
  first_is_not h -> append h self node = Ok (h', r) -> first_is_not h'.
Proof.
  intros [(root & rest & H0 & Hel) (n1 & H1 & Ht)] H.
  apply append_inv in H
    as (i & n & -> & Hn & -> & Hlt & Hlen & Hr & Hself & Ho).
  assert (Hkeep : forall j x, h !! j = Some x ->
                    exists x', h' !! j = Some x' /\ tag x' = tag x
                               /\ exists more, elements x'
                                               = elements x ++ more).
  { intros j x Hj. destruct (decide (j = i)) as [->|Hji].
    - rewrite Hn in Hj. injection Hj as <-. eexists. split; [exact Hself|].
      split; [reflexivity|]. now exists [length h].
    - exists x. rewrite Ho; [|assumption|apply lookup_lt_Some in Hj; lia].
      split; [assumption|]. split; [reflexivity|]. exists [].
      now rewrite app_nil_r. }
  split.
  - destruct (Hkeep 0 root H0) as (root' & H0' & _ & more & Hmore).
    exists root', (rest ++ more). split; [assumption|].
    rewrite Hmore, Hel. reflexivity.
  - destruct (Hkeep 1 n1 H1) as (n1' & H1' & Ht' & _).
    exists n1'. split; [assumption|congruence].
Qed.

Lemma scan_char_first_is_not (sf : string) (s s' : Scan) (pos : nat)
    (c : ascii) :
  first_is_not (store s) -> scan_char sf s pos c = Ok s' ->
  first_is_not (store s').
Proof.
  intros Hq H. unfold scan_char in H.
  repeat match type of H with
         | (if ?b then _ else _) = _ => destruct b
         end;
    try discriminate H.
  - inversion H; subst. assumption.
  - inversion H; subst. assumption.
  - bind_inv H. destruct a as [h r]. inversion H; subst; clear H. cbn.
    eapply append_first_is_not; eassumption.
  - bind_inv H. destruct a as [? n]. inversion H; subst; clear H. assumption.
  - bind_inv H. inversion H; subst; clear H. cbn.
    destruct (pos_truthy (start_pos s)).
    + bind_inv Ha. destruct a0 as [? n].
      destruct (bool_decide (tag n = NOT) && (0 <? length (elements n)));
        [discriminate|].
      bind_inv Ha. bind_inv Ha. destruct a1 as [h ?].
      inversion Ha; subst; clear Ha.
      eapply append_first_is_not; eassumption.
    + inversion Ha; subst. assumption.
  - inversion H; subst. assumption.
Qed.

Lemma scan_first_is_not (sf rest : string) (pos : nat) (s s' : Scan) :
  first_is_not (store s) -> scan sf rest pos s = Ok s' ->
  first_is_not (store s').
Proof.
  revert pos s. induction rest as [|c rest IH]; intros pos s Hq H.
  - inversion H; subst. assumption.
  - cbn [scan] in H. bind_inv H.
    eapply IH; [|eassumption]. eapply scan_char_first_is_not; eassumption.
Qed.

(** A text that begins with an opening parenthesis and [!] compiles, if
    at all, to a negation. *)
Lemma build_filter_not_text (body : string) (compiled : Filter) :
  build_filter (String "(" (String "!" (body +:+ ")"))) = Ok compiled ->
  exists inner, compiled = F_notFilter inner.
Proof.
  unfold build_filter, parse_filter. intros H.
  change (String "(" (String "!" (body +:+ ")")))
    with ("(" +:+ ("!" +:+ body) +:+ ")") in H.
  rewrite strip_parenthesized in H.
  change ("(" +:+ ("!" +:+ body) +:+ ")")
    with (String "("%char (String "!"%char (body +:+ ")"))) in H.
  set (sf := String "("%char (String "!"%char (body +:+ ")"))) in *.
  bind_inv H. rename a into root, Ha into Hparse.
  destruct (_ && _) in Hparse; [|discriminate].
  bind_inv Hparse. rename a into s, Ha into Hscan.
  assert (Hq : first_is_not (store s)).
  { unfold sf in Hscan at 2. cbn [scan] in Hscan.
    change (scan_char sf initial_scan 0 "(")
      with (Ok {| state := SEARCH_MATCH_OR_CONTROL;
                  store := [new_FilterNode ROOT None];
                  current_node := Some 0; start_pos := None;
                  skip_white_space := true; just_closed := false |})
      in Hscan.
    cbn [mbind result_bind] in Hscan.
    change (scan_char sf
              {| state := SEARCH_MATCH_OR_CONTROL;
                 store := [new_FilterNode ROOT None];
                 current_node := Some 0; start_pos := None;
                 skip_white_space := true; just_closed := false |} 1 "!")
      with (Ok {| state := SEARCH_OPEN;
                  store := [ {| tag := ROOT; parent := None;
                                assertion := None; elements := [1] |};
                             {| tag := NOT; parent := Some 0;
                                assertion := None; elements := [] |} ];
                  current_node := Some 1; start_pos := None;
                  skip_white_space := true; just_closed := false |})
      in Hscan.
    cbn [mbind result_bind] in Hscan.
    eapply scan_first_is_not; [|exact Hscan]. cbn. split.
    - eexists _, []. split; reflexivity.
    - eexists. split; reflexivity. }
  destruct Hq as [(root0 & rest & H0 & Hel) (n1 & H1 & Ht)].
  bind_inv Hparse. destruct a as [? rootn]. unfold deref, root_ref in Ha.
  rewrite H0 in Ha. injection Ha as <- <-.
  destruct (negb _) eqn:Hone; [discriminate|].
  apply negb_false_iff, Nat.eqb_eq in Hone. rewrite Hel in Hone.
  destruct rest; [|discriminate].
  destruct (tree_of _ _ _) as [t|] eqn:Ht0; [|discriminate].
  injection Hparse as <-.
  destruct (length (store s)) as [|fuel]; [discriminate|].
  cbn [tree_of] in Ht0. unfold root_ref in Ht0.
  rewrite H0 in Ht0. cbn in Ht0. rewrite Hel in Ht0.
  cbn in Ht0.
  destruct (tree_of fuel (store s) 1) as [child|] eqn:Hchild; [|discriminate].
  cbn in Ht0. injection Ht0 as <-.
  destruct fuel as [|fuel]; [discriminate|].
  cbn [tree_of] in Hchild. rewrite H1 in Hchild. cbn in Hchild.
  destruct (mapM _ _) as [children|]; [|discriminate].
  cbn in Hchild. injection Hchild as <-.
  cbn in H. rewrite Ht in H. cbn [compile_filter] in H.
  destruct children as [|c cs]; [discriminate|].
  bind_inv H. injection H as <-. eauto.
Qed.

(** No disjunction comes back: [filter_to_string] writes [!] for it, so
    the text either is refused or compiles to a negation. *)
Theorem disjunction_never_back
    (m : option string -> option string -> string -> bool -> string)
    (filters : list Filter) :
  build_filter (filter_to_string m (F_or filters)) <> Ok (F_or filters).
Proof.
  intros H.
  assert (Htext : exists body,
             filter_to_string m (F_or filters)
             = String "(" (String "!" (body +:+ ")"))).
  { cbn [filter_to_string]. rewrite !app_assoc_str. eexists.
    rewrite app_cons, app_empty_l, app_cons, app_empty_l. reflexivity. }
  destruct Htext as [body Hbody]. rewrite Hbody in H.
  apply build_filter_not_text in H as [inner Hinner]. discriminate.
Qed.

(** ** The exceptions of the parser *)

Lemma raises_only_bind {A B} (P : exn -> Prop) (r : result A)
    (f : A -> result B) :
  raises_only P r -> (forall a, r = Ok a -> raises_only P (f a)) ->
  raises_only P (r ≫= f).
Proof.
  intros Hr Hf e. destruct r as [a|e']; cbn.
  - now apply Hf.
  - intros H. apply Hr. now inversion H.
Qed.

Lemma raises_only_Ok {A} (P : exn -> Prop) (a : A) : raises_only P (Ok a).
Proof. intros e H. discriminate. Qed.

Lemma parse_exception_ldap (msg : string) :
  msg ∈ ["invalid filter"; "malformed filter";
         "missing boolean operator in filter";
         "Not clause in filter cannot be multiple";
         "invalid matching assertion"; "invalid extensible filter"] ->
  forall A, raises_only parse_exception (@Raise A (LDAPException msg)).
Proof.
  intros Hin A e H. injection H as <-. left. eauto.
Qed.

Ltac ldap_message :=
  apply parse_exception_ldap; repeat (first [apply list_elem_of_here | apply list_elem_of_further]).

Lemma extensible_parts_raises (l : list string) :
  l <> [] -> raises_only parse_exception (extensible_parts l).
Proof.
  intros Hl. unfold extensible_parts, invalid_extensible.
  destruct l as [|e0 l]; [congruence|].
  repeat match goal with
         | |- raises_only _ (Ok _) => apply raises_only_Ok
         | |- raises_only _ (Raise (LDAPException _)) => ldap_message
         | |- raises_only _ (if ?b then _ else _) => destruct b
         | |- raises_only _ (match ?x with _ => _ end) => destruct x
         end.
Qed.

Lemma unpack3_raises {A} (l : list A) :
  raises_only parse_exception (PySeq.unpack3 l).
Proof.
  unfold PySeq.unpack3. intros e H. right. left.
  destruct l as [|a [|b [|c [|d l]]]]; try discriminate H;
    destruct (_ <? 3); injection H as <-; eauto.
Qed.

Lemma first_nonempty {A} (l : list A) :
  l <> [] -> exists x, PySeq.first l = Ok x.
Proof. destruct l; [congruence|eauto]. Qed.

Lemma last_nonempty {A} (l : list A) :
  l <> [] -> exists x, PySeq.last l = Ok x.
Proof.
  intros Hl. unfold PySeq.last. destruct (List.rev l) eqn:E; [|eauto].
  apply (f_equal (@List.rev A)) in E. rewrite List.rev_involutive in E.
  cbn in E. congruence.
Qed.

Lemma evaluate_match_raises (clause : string) :
  raises_only parse_exception (evaluate_match clause).
Proof.
  unfold evaluate_match.
  destruct (PyStr.contains "~=" _).
  { apply raises_only_bind; [apply unpack3_raises|].
    intros [[? ?] ?] _. apply raises_only_Ok. }
  destruct (PyStr.contains ">=" _).
  { destruct (PyStr.partition _ _) as [[? ?] ?]. apply raises_only_Ok. }
  destruct (PyStr.contains "<=" _).
  { destruct (PyStr.partition _ _) as [[? ?] ?]. apply raises_only_Ok. }
  destruct (PyStr.contains ":=" _).
  { destruct (PyStr.partition _ _) as [[l ?] ?].
    apply raises_only_bind.
    - apply extensible_parts_raises. apply split_from_nonempty.
    - intros [[? ?] ?] _. destruct (_ && _); [|apply raises_only_Ok].
      unfold invalid_extensible. ldap_message. }
  destruct (PyStr.endswith "=*" _); [apply raises_only_Ok|].
  destruct (_ && _).
  { destruct (PyStr.partition _ _) as [[? ?] r].
    destruct (first_nonempty (PyStr.split "*" r)
                (split_from_nonempty _ _ _)) as [x ->].
    destruct (last_nonempty (PyStr.split "*" r)
                (split_from_nonempty _ _ _)) as [y ->].
    apply raises_only_Ok. }
  destruct (PyStr.contains "=" _).
  { destruct (PyStr.partition _ _) as [[? ?] ?]. apply raises_only_Ok. }
  ldap_message.
Qed.

Lemma deref_raises (h : heap) (r : option nat) (attribute : string) :
  raises_only parse_exception (deref h r attribute).
Proof.
  unfold deref. intros e H. right. right.
  destruct r as [i|]; [destruct (h !! i)|]; try discriminate H;
    injection H as <-; eauto.
Qed.

Lemma append_raises (h : heap) (self : option nat) (node : FilterNode) :
  raises_only parse_exception (append h self node).
Proof.
  unfold append. apply raises_only_bind; [apply deref_raises|].
  intros [? ?] _. apply raises_only_Ok.
Qed.

Lemma scan_char_raises (sf : string) (s : Scan) (pos : nat) (c : ascii) :
  raises_only parse_exception (scan_char sf s pos c).
Proof.
  unfold scan_char.
  repeat first
    [ apply raises_only_Ok
    | apply deref_raises | apply append_raises | apply evaluate_match_raises
    | apply raises_only_bind; [|intros ? _]
    | match goal with
      | |- raises_only _ (Raise (LDAPException _)) => ldap_message
      | |- raises_only _ (if ?b then _ else _) => destruct b
      | |- raises_only _ (let '(_, _) := ?p in _) => destruct p
      | |- raises_only _ (match ?x with _ => _ end) => destruct x
      end ].
Qed.

Lemma scan_raises (sf rest : string) (pos : nat) (s : Scan) :
  raises_only parse_exception (scan sf rest pos s).
Proof.
  revert pos s. induction rest as [|c rest IH]; intros pos s; cbn [scan].
  - apply raises_only_Ok.
  - apply raises_only_bind; [apply scan_char_raises|]. intros s' _. apply IH.
Qed.

(** What can leave [parse_filter] and [evaluate_match]: one of the six
    errors of the filter grammar, a [ValueError] or an [AttributeError];
    never an [IndexError], a [KeyError] or a [TypeError]. *)
Theorem parse_filter_exceptions (text : string) (e : exn) :
  parse_filter text = Raise e \/ evaluate_match text = Raise e ->
  parse_exception e.
Proof.
  intros [H|H]; [|exact (evaluate_match_raises _ _ H)].
  revert e H. change (raises_only parse_exception (parse_filter text)).
  unfold parse_filter. destruct (_ && _); [|ldap_message].
  apply raises_only_bind; [apply scan_raises|]. intros s Hscan.
  apply raises_only_bind; [apply deref_raises|]. intros [? root] _.
  destruct (negb _); [ldap_message|].
  destruct (scan_tree_of _ _ Hscan) as [t ->]. apply raises_only_Ok.
Qed.

Lemma parse_filter_exceptions_witness :
  parse_exception (LDAPException "malformed filter").
Proof.
  apply (parse_filter_exceptions "()"). left. vm_compute. reflexivity.
Defined.

(** ** The extensible match *)

Lemma partition_colon_eq (a r : string) :
  PyStr.contains ":=" a = false ->
  PyStr.partition ":=" (a +:+ ":=" +:+ r) = (a, ":=", r).
Proof.
  induction a as [|x a IH]; intros H.
  - rewrite app_empty_l. reflexivity.
  - rewrite app_cons. cbn [PyStr.partition].
    cbn [PyStr.contains] in H. apply orb_false_iff in H as [Hx Ha].
    assert (Hs : PyStr.startswith ":=" (String x (a +:+ ":=" +:+ r)) = false).
    { destruct a as [|y a].
      - rewrite app_empty_l.
        change (":=" +:+ r) with (String ":" (String "=" r)).
        cbn [PyStr.startswith].
        destruct (Ascii.eqb ":" x); reflexivity.
      - rewrite app_cons. cbn [PyStr.startswith] in Hx |- *.
        destruct (Ascii.eqb ":" x); [|reflexivity].
        destruct (Ascii.eqb "=" y); [discriminate|reflexivity]. }
    rewrite Hs, (IH Ha). reflexivity.
Qed.

Lemma split_char_none (c : ascii) (s : string) :
  PyStr.contains (String c "") s = false -> PyStr.split (String c "") s = [s].
Proof.
  unfold PyStr.split. induction s as [|x s IH]; intros H; [reflexivity|].
  rewrite contains_char_cons in H. apply orb_false_iff in H as [Hx Hs].
  cbn [PyStr.split_from PyStr.startswith]. rewrite Hx.
  now rewrite (IH Hs).
Qed.

Lemma split_char_app (c : ascii) (a rest : string) :
  PyStr.contains (String c "") a = false ->
  PyStr.split (String c "") (a +:+ String c rest)
  = a :: PyStr.split (String c "") rest.
Proof.
  unfold PyStr.split. induction a as [|x a IH]; intros H.
  - rewrite app_empty_l. cbn [PyStr.split_from PyStr.startswith].
    rewrite Ascii.eqb_refl. reflexivity.
  - rewrite contains_char_cons in H. apply orb_false_iff in H as [Hx Ha].
    rewrite app_cons. cbn [PyStr.split_from PyStr.startswith]. rewrite Hx.
    now rewrite (IH Ha).
Qed.

Lemma truthy_decide (s : string) :
  PyStr.truthy s = negb (bool_decide (s = "")).
Proof. destruct s; reflexivity. Qed.

(** The extensible match, [attr[:dn][:matchingRule]:=value]: with the text
    before the first [:=] written as an attribute, an optional flag that
    reads [dn] and an optional rule that does not, the leaf has the
    attribute trimmed (none when empty), the flag, the rule normalized and
    trimmed (none when empty) and the value normalized; without attribute
    and without rule the clause is refused. *)
Theorem evaluate_match_extensible
    (clause attr right_part : string) (flag rule : option string) :
  PyStr.contains "~=" (PyStr.strip clause) = false ->
  PyStr.contains ">=" (PyStr.strip clause) = false ->
  PyStr.contains "<=" (PyStr.strip clause) = false ->
  PyStr.strip clause = extensible_left attr flag rule +:+ ":=" +:+ right_part ->
  PyStr.contains ":=" (extensible_left attr flag rule) = false ->
  PyStr.contains ":" attr = false ->
  (forall d, flag = Some d -> PyStr.contains ":" d = false /\ is_dn d = true) ->
  (forall r, rule = Some r ->
     PyStr.contains ":" r = false /\ (flag = None -> is_dn r = false)) ->
  evaluate_match clause
  = if decide (attr = "" /\ rule_of_text rule = None)
    then Raise (LDAPException "invalid extensible filter")
    else Ok (new_FilterNode MATCH_EXTENSIBLE
               (Some (ExtensibleAssertion
                        (if decide (attr = "") then None
                         else Some (PyStr.strip attr))
                        (validate_assertion_value right_part)
                        (rule_of_text rule)
                        (match flag with Some _ => Some true | None => None end)))).
Proof.
  intros H1 H2 H3 Hm Hleft Hattr Hflag Hrule. unfold evaluate_match.
  rewrite H1, H2, H3.
  assert (Hc : PyStr.contains ":=" (PyStr.strip clause) = true).
  { rewrite Hm. apply contains_app_r, contains_app_l. reflexivity. }
  rewrite Hc, Hm, (partition_colon_eq _ _ Hleft).
  assert (Hsplit : PyStr.split ":" (extensible_left attr flag rule)
                   = attr :: from_option (fun d => [d]) [] flag
                          ++ from_option (fun r => [r]) [] rule).
  { unfold extensible_left.
    destruct flag as [d|], rule as [r|]; cbn [from_option app].
    - destruct (Hflag d eq_refl) as [Hd _], (Hrule r eq_refl) as [Hr _].
      change (attr +:+ (":" +:+ d) +:+ (":" +:+ r))
        with (attr +:+ String ":" (d +:+ String ":" r)).
      now rewrite !split_char_app, split_char_none.
    - destruct (Hflag d eq_refl) as [Hd _].
      rewrite app_empty_r.
      change (attr +:+ (":" +:+ d)) with (attr +:+ String ":" d).
      now rewrite split_char_app, split_char_none.
    - destruct (Hrule r eq_refl) as [Hr _].
      change (attr +:+ "" +:+ (":" +:+ r)) with (attr +:+ String ":" r).
      now rewrite split_char_app, split_char_none.
    - rewrite !app_empty_r. now apply split_char_none. }
  rewrite Hsplit. unfold extensible_parts, invalid_extensible, rule_of_text.
  destruct flag as [d|], rule as [r|]; cbn [from_option app length Nat.leb];
    try (destruct (Hflag d eq_refl) as [_ Hd]; rewrite ?Hd);
    try (destruct (Hrule r eq_refl) as [_ Hr]);
    try (rewrite (Hr eq_refl));
    cbn [negb mbind option_bind];
    destruct (String.eqb_spec attr "") as [->|Hne];
    cbn [mbind result_bind option_truthy strip_if negb andb];
    rewrite ?truthy_decide;
    repeat (case_decide || case_bool_decide);
    cbn [negb andb]; try reflexivity; try tauto; try congruence.
  all: exfalso; match goal with H : _ /\ _ |- _ => destruct H; discriminate end.
Qed.

Lemma evaluate_match_extensible_witness :
  evaluate_match "cn:dn:2.5.13.5:=Bob"
  = Ok (new_FilterNode MATCH_EXTENSIBLE
          (Some (ExtensibleAssertion (Some "cn") "Bob" (Some "2.5.13.5")
                   (Some true)))).
Proof.
  apply (evaluate_match_extensible "cn:dn:2.5.13.5:=Bob" "cn" "Bob"
           (Some "dn") (Some "2.5.13.5")); try reflexivity.
  - intros d [= <-]. split; reflexivity.
  - intros r [= <-]. split; [reflexivity|discriminate].
Defined.

(** ** The first check of the parser *)

Lemma scan_char_avoids_invalid (sf : string) (s : Scan) (pos : nat)
    (c : ascii) :
  avoids (LDAPException "invalid filter") (scan_char sf s pos c).
Proof.
  unfold scan_char, append, deref, evaluate_match, PySeq.unpack3,
    PySeq.first, PySeq.last, extensible_parts, invalid_extensible.
  repeat first
    [ apply avoids_bind; [|intros ?]
    | match goal with
      | |- avoids _ (Ok _) => discriminate
      | |- avoids _ (Raise _) => discriminate
      | |- avoids _ (if ?b then _ else _) => destruct b
      | |- avoids _ (let '(_, _) := ?p in _) => destruct p
      | |- avoids _ (match ?x with _ => _ end) => destruct x
      end ].
Qed.

Lemma scan_avoids_invalid (sf rest : string) (pos : nat) (s : Scan) :
  avoids (LDAPException "invalid filter") (scan sf rest pos s).
Proof.
  revert pos s. induction rest as [|c rest IH]; intros pos s; cbn [scan].
  - discriminate.
  - apply avoids_bind; [apply scan_char_avoids_invalid|]. intros s'. apply IH.
Qed.

(** ['invalid filter'] is the answer of the first check and of nothing
    else: it is raised exactly when the trimmed text is empty, has not as
    many [(] as [)], does not begin with [(] or does not end with [)]. *)
Theorem parse_filter_invalid_iff (search_filter : string) :
  parse_filter search_filter = Raise (LDAPException "invalid filter")
  <-> PyStr.truthy (PyStr.strip search_filter)
      && (PyStr.count "(" (PyStr.strip search_filter)
          =? PyStr.count ")" (PyStr.strip search_filter))
      && PyStr.startswith "(" (PyStr.strip search_filter)
      && PyStr.endswith ")" (PyStr.strip search_filter) = false.
Proof.
  unfold parse_filter. destruct (_ && _ && _ && _); split;
    try reflexivity; try discriminate.
  intros H. exfalso. revert H.
  apply avoids_bind; [apply scan_avoids_invalid|]. intros s.
  unfold deref.
  repeat first
    [ apply avoids_bind; [|intros ?]
    | match goal with
      | |- avoids _ (Ok _) => discriminate
      | |- avoids _ (Raise _) => discriminate
      | |- avoids _ (if ?b then _ else _) => destruct b
      | |- avoids _ (let '(_, _) := ?p in _) => destruct p
      | |- avoids _ (match ?x with _ => _ end) => destruct x
      end ].
Qed.

(** ** The text of an approximate match *)

Lemma split_from_none (c0 : ascii) (p s : string) :
  PyStr.contains (String c0 "") s = false ->
  PyStr.split_from (String c0 p) 0 s = [s].
Proof.
  induction s as [|x s IH]; intros H; [reflexivity|].
  rewrite contains_char_cons in H. apply orb_false_iff in H as [Hx Hs].
  cbn [PyStr.split_from PyStr.startswith]. rewrite Hx.
  now rewrite (IH Hs).
Qed.

Lemma split_two (c0 c1 : ascii) (a v : string) :
  PyStr.contains (String c0 "") a = false ->
  PyStr.contains (String c0 "") v = false ->
  PyStr.split (String c0 (String c1 "")) (a +:+ String c0 (String c1 v))
  = [a; v].
Proof.
  intros Ha Hv. unfold PyStr.split. induction a as [|x a IH].
  - rewrite app_empty_l. cbn [PyStr.split_from PyStr.startswith].
    rewrite !Ascii.eqb_refl.
    change (String.length (String c0 (String c1 "")) - 1) with 1.
    cbn [PyStr.split_from]. now rewrite split_from_none.
  - rewrite contains_char_cons in Ha. apply orb_false_iff in Ha as [Hx Ha].
    rewrite app_cons. cbn [PyStr.split_from PyStr.startswith]. rewrite Hx.
    now rewrite (IH Ha).
Qed.

(** An approximate match does not come back: the text that
    [filter_to_string] writes for it holds the operator once, which
    [evaluate_match] cannot unpack. *)
Theorem approximate_match_never_back
    (m : option string -> option string -> string -> bool -> string)
    (a v : string) :
  plain a = true -> plain v = true ->
  filter_to_string m (F_approxMatch a v) = "(" +:+ a +:+ "~=" +:+ v +:+ ")"
  /\ build_filter (filter_to_string m (F_approxMatch a v))
     = Raise (ValueError "not enough values to unpack (expected 3, got 2)").
Proof.
  intros Ha Hv.
  assert (Htext : filter_to_string m (F_approxMatch a v)
                  = "(" +:+ (a +:+ "~=" +:+ v) +:+ ")").
  { cbn [filter_to_string ava_to_dict attribute value].
    now rewrite !app_assoc_str. }
  split; [rewrite Htext; now rewrite !app_assoc_str|].
  rewrite Htext.
  assert (Hclause : exists c0 rest,
             a +:+ "~=" +:+ v = String c0 rest
             /\ char_in c0 PyStr.whitespace = false
             /\ char_in c0 "&!|" = false).
  { destruct a as [|x a'].
    - exists "~"%char, ("=" +:+ v). repeat split; reflexivity.
    - exists x, (a' +:+ "~=" +:+ v). split; [reflexivity|].
      cbn [plain] in Ha. apply andb_true_iff in Ha as [Hx _].
      now apply plain_char_first. }
  destruct Hclause as (c0 & rest & Hcl & Hws & Hctl).
  assert (Ho : PyStr.contains "(" (a +:+ "~=" +:+ v) = false)
    by (apply (clause_without "(" "" a "~=" v); assumption || reflexivity).
  assert (Hc : PyStr.contains ")" (a +:+ "~=" +:+ v) = false)
    by (apply (clause_without ")" "" a "~=" v); assumption || reflexivity).
  assert (Hleaf : evaluate_match (a +:+ "~=" +:+ v)
                  = Raise (ValueError
                             "not enough values to unpack (expected 3, got 2)")).
  { unfold evaluate_match.
    rewrite (clause_strip a "~=" v Ha Hv) by operator_no_space.
    assert (Hop : PyStr.contains "~=" (a +:+ "~=" +:+ v) = true).
    { apply contains_app_r, contains_app_l. reflexivity. }
    rewrite Hop.
    change (a +:+ "~=" +:+ v) with (a +:+ String "~" (String "=" v)).
    rewrite split_two by (apply plain_no_special; [assumption|now right]).
    reflexivity. }
  unfold build_filter. rewrite Hcl in Ho, Hc, Hleaf |- *.
  rewrite (parse_filter_clause c0 rest Hws Hctl Ho Hc), Hleaf. reflexivity.
Qed.

Lemma approximate_match_never_back_witness :
  filter_to_string (fun _ _ _ _ => "") (F_approxMatch "cn" "Bob")
  = "(" +:+ "cn" +:+ "~=" +:+ "Bob" +:+ ")"
  /\ build_filter (filter_to_string (fun _ _ _ _ => "")
                     (F_approxMatch "cn" "Bob"))
     = Raise (ValueError "not enough values to unpack (expected 3, got 2)").
Proof.
  apply (approximate_match_never_back (fun _ _ _ _ => "") "cn" "Bob");
    reflexivity.
Defined.

(** ** The text of a substring filter *)

Lemma text_component_spec (s : string) :
  text_component s = true -> plain s = true /\ PyStr.truthy s = true.
Proof. unfold text_component. intros H. now apply andb_true_iff in H. Qed.

Lemma not_endswith_star (t : string) : PyStr.endswith "*" (t +:+ "=") = false.
Proof.
  destruct (PyStr.endswith "*" (t +:+ "=")) eqn:E; [|reflexivity].
  exfalso. apply endswith_split in E as [a Ha]. revert a Ha.
  induction t as [|x t IH]; intros a Ha.
  - rewrite app_empty_l in Ha. destruct a as [|y a]; [discriminate|].
    rewrite app_cons in Ha. injection Ha as _ Ha. destruct a; discriminate.
  - rewrite app_cons in Ha. destruct a as [|y a].
    + rewrite app_empty_l in Ha. injection Ha as _ Ha. destruct t; discriminate.
    + rewrite app_cons in Ha. injection Ha as _ Ha. exact (IH a Ha).
Qed.

Lemma endswith_app2 (suf a b : string) :
  PyStr.endswith suf (a +:+ b +:+ suf) = true.
Proof. rewrite <- app_assoc_str. apply endswith_app. Qed.

Lemma fold_anys (any : list string) (t : string) :
  forallb text_component any = true ->
  PyStr.endswith "*" t = true ->
  fold_left substring_to_string (List.map Any any) t = t +:+ anys_text any.
Proof.
  revert t. induction any as [|x xs IH]; intros t Hall Ht.
  - cbn. now rewrite app_empty_r.
  - cbn [forallb] in Hall. apply andb_true_iff in Hall as [Hx Hxs].
    apply text_component_spec in Hx as [_ Hx].
    cbn [List.map fold_left substring_to_string anys_text fold_right].
    rewrite Hx, Ht. rewrite IH by (assumption || apply endswith_app || apply endswith_app2).
    fold (anys_text xs). now rewrite !app_assoc_str.
Qed.

Lemma fold_substrings (t : string) (initial : option string)
    (any : list string) (final : option string) :
  from_option text_component true initial = true ->
  forallb text_component any = true ->
  from_option text_component true final = true ->
  fold_left substring_to_string (compile_substrings initial any final)
    (t +:+ "=")
  = t +:+ "=" +:+ substrings_text initial any final.
Proof.
  intros Hi Hany Hf. unfold compile_substrings, substrings_text.
  rewrite !fold_left_app.
  assert (Hfin : forall u,
             fold_left substring_to_string
               (if option_truthy final then [Final (default "" final)] else [])
               u
             = u +:+ from_option (fun s => "*" +:+ s) "" final).
  { intros u. destruct final as [s|]; cbn [from_option option_truthy id].
    - apply text_component_spec in Hf as [_ Hs]. rewrite Hs.
      cbn [fold_left substring_to_string]. now rewrite Hs.
    - cbn. now rewrite app_empty_r. }
  rewrite Hfin. destruct initial as [s|]; cbn [from_option option_truthy id].
  - cbn [from_option] in Hi. apply text_component_spec in Hi as [_ Hs].
    rewrite Hs. cbn [fold_left substring_to_string]. rewrite Hs.
    rewrite fold_anys by (assumption || apply endswith_app || apply endswith_app2).
    now rewrite !app_assoc_str.
  - cbn [fold_left]. destruct any as [|x xs].
    + cbn [List.map fold_left]. now rewrite !app_assoc_str.
    + cbn [forallb] in Hany. apply andb_true_iff in Hany as [Hx Hxs].
      apply text_component_spec in Hx as [_ Hx].
      cbn [List.map fold_left substring_to_string].
      rewrite Hx, not_endswith_star.
      rewrite fold_anys by (assumption || apply endswith_app || apply endswith_app2).
      now rewrite !app_assoc_str.
Qed.

Lemma split_anys (any : list string) (tail : string) :
  forallb text_component any = true ->
  PyStr.split "*" (anys_text any +:+ tail) = any ++ PyStr.split "*" tail.
Proof.
  induction any as [|x xs IH]; intros Hall; [reflexivity|].
  cbn [forallb] in Hall. apply andb_true_iff in Hall as [Hx Hxs].
  apply text_component_spec in Hx as [Hx _].
  cbn [anys_text fold_right]. fold (anys_text xs).
  rewrite !app_assoc_str.
  change (x +:+ "*" +:+ anys_text xs +:+ tail)
    with (x +:+ String "*" (anys_text xs +:+ tail)).
  rewrite split_char_app by (apply plain_no_special; [assumption|now right]).
  now rewrite (IH Hxs).
Qed.

Lemma filter_components (any : list string) :
  forallb text_component any = true -> List.filter PyStr.truthy any = any.
Proof.
  induction any as [|x xs IH]; intros Hall; [reflexivity|].
  cbn [forallb] in Hall. apply andb_true_iff in Hall as [Hx Hxs].
  apply text_component_spec in Hx as [_ Hx].
  cbn [List.filter]. now rewrite Hx, (IH Hxs).
Qed.

Lemma validate_components (any : list string) :
  forallb text_component any = true ->
  List.map validate_assertion_value any = any.
Proof.
  induction any as [|x xs IH]; intros Hall; [reflexivity|].
  cbn [forallb] in Hall. apply andb_true_iff in Hall as [Hx Hxs].
  apply text_component_spec in Hx as [Hx _].
  cbn [List.map]. now rewrite (plain_validate x Hx), (IH Hxs).
Qed.

Lemma PySeq_last_snoc {A} (l : list A) (y : A) : PySeq.last (l ++ [y]) = Ok y.
Proof. unfold PySeq.last. now rewrite List.rev_app_distr. Qed.

Lemma interior_snoc {A} (x : A) (mid : list A) (y : A) :
  PySeq.interior (x :: mid ++ [y]) = mid.
Proof.
  unfold PySeq.interior. cbn [length List.skipn].
  rewrite length_app. cbn [length].
  replace (S (length mid + 1) - 1 - 1) with (length mid) by lia.
  apply take_app_length.
Qed.

(** The segments between the stars of the text: the first is the initial
    component, the last the final one, and those between are the [any]
    components and at most one empty segment. *)
Lemma split_substrings (initial : option string) (any : list string)
    (final : option string) :
  from_option text_component true initial = true ->
  forallb text_component any = true ->
  from_option text_component true final = true ->
  compile_substrings initial any final <> [] ->
  exists mid,
    PyStr.split "*" (substrings_text initial any final)
    = default "" initial :: mid ++ [default "" final]
    /\ List.filter PyStr.truthy mid = any.
Proof.
  intros Hi Hany Hf Hne. unfold substrings_text.
  assert (Hfin : forall l : list string,
             exists extra,
               l ++ PyStr.split "*" (from_option (fun s => "*" +:+ s) "" final)
               = (l ++ extra) ++ [default "" final]
               /\ List.filter PyStr.truthy extra = []).
  { intros l. destruct final as [s|]; cbn [from_option id].
    - apply text_component_spec in Hf as [Hs _].
      change ("*" +:+ s) with ("" +:+ String "*" s).
      rewrite split_char_app by reflexivity.
      rewrite split_char_none
        by (apply plain_no_special; [assumption|now right]).
      exists [""]. split; [now rewrite <- app_assoc|reflexivity].
    - exists []. split; [now rewrite app_nil_r|reflexivity]. }
  destruct initial as [s|]; cbn [from_option id].
  - cbn [from_option] in Hi. apply text_component_spec in Hi as [Hs _].
    change (s +:+ "*" +:+ anys_text any
              +:+ from_option (fun s0 => "*" +:+ s0) "" final)
      with (s +:+ String "*"
                    (anys_text any
                       +:+ from_option (fun s0 => "*" +:+ s0) "" final)).
    rewrite split_char_app by (apply plain_no_special; [assumption|now right]).
    rewrite split_anys by assumption.
    destruct (Hfin any) as (extra & -> & Hextra).
    exists (any ++ extra). split; [reflexivity|].
    rewrite List.filter_app, Hextra, app_nil_r. now apply filter_components.
  - destruct any as [|x xs].
    + destruct final as [s|]; cbn [from_option id].
      * apply text_component_spec in Hf as [Hs _].
        change ("*" +:+ s) with ("" +:+ String "*" s).
        rewrite split_char_app by reflexivity.
        rewrite split_char_none
          by (apply plain_no_special; [assumption|now right]).
        now exists [].
      * exfalso. apply Hne. reflexivity.
    + cbn [forallb] in Hany. apply andb_true_iff in Hany as [Hx Hxs].
      pose proof (filter_components (x :: xs)) as Hkeep.
      cbn [forallb] in Hkeep. rewrite Hx, Hxs in Hkeep.
      specialize (Hkeep eq_refl).
      apply text_component_spec in Hx as [Hx _].
      change ("*" +:+ x +:+ "*" +:+ anys_text xs
                +:+ from_option (fun s0 => "*" +:+ s0) "" final)
        with ("" +:+ String "*"
                       (x +:+ String "*"
                          (anys_text xs
                             +:+ from_option (fun s0 => "*" +:+ s0) "" final))).
      rewrite split_char_app by reflexivity.
      rewrite split_char_app
        by (apply plain_no_special; [assumption|now right]).
      rewrite split_anys by assumption.
      destruct (Hfin (x :: xs)) as (extra & Heq & Hextra).
      cbn [app] in Heq. rewrite Heq.
      exists ((x :: xs) ++ extra). split; [reflexivity|].
      now rewrite List.filter_app, Hextra, app_nil_r.
Qed.

Lemma substrings_text_without (c : ascii) (initial : option string)
    (any : list string) (final : option string) :
  from_option text_component true initial = true ->
  forallb text_component any = true ->
  from_option text_component true final = true ->
  PyStr.isspace c = true \/ char_in c "()&|!=<>~:\" = true ->
  PyStr.contains (String c "") (substrings_text initial any final) = false.
Proof.
  intros Hi Hany Hf Hc.
  assert (Hstar : Ascii.eqb c "*" = false).
  { destruct (Ascii.eqb_spec c "*") as [->|]; [|reflexivity].
    destruct Hc as [Hc|Hc]; discriminate Hc. }
  assert (Hc' : PyStr.isspace c = true \/ char_in c "()&|!=<>~:*\" = true).
  { destruct Hc as [Hc|Hc]; [now left|right].
    unfold char_in in *. rewrite !contains_char_cons in *.
    repeat match type of Hc with
           | _ || _ = true => apply orb_true_iff in Hc as [->|Hc]
           end; rewrite ?orb_true_r; try reflexivity; discriminate. }
  assert (Hcomp : forall s, text_component s = true ->
                    PyStr.contains (String c "") s = false).
  { intros s Hs. apply text_component_spec in Hs as [Hs _].
    now apply plain_no_special. }
  assert (Hanys : forall l, forallb text_component l = true ->
                    PyStr.contains (String c "") (anys_text l) = false).
  { induction l as [|x xs IH]; intros Hall; [reflexivity|].
    cbn [forallb] in Hall. apply andb_true_iff in Hall as [Hx Hxs].
    cbn [anys_text fold_right]. fold (anys_text xs).
    rewrite !contains_char_app, (Hcomp x Hx), (IH Hxs), contains_char_cons.
    now rewrite Hstar. }
  assert (Hfin : PyStr.contains (String c "")
                   (from_option (fun s => "*" +:+ s) "" final) = false).
  { destruct final as [s|]; cbn [from_option]; [|reflexivity].
    change ("*" +:+ s) with (String "*" s).
    now rewrite contains_char_cons, Hstar, (Hcomp s Hf). }
  unfold substrings_text. destruct initial as [s|].
  - rewrite !contains_char_app, (Hcomp s Hi), (Hanys any Hany), Hfin.
    rewrite contains_char_cons, Hstar. reflexivity.
  - destruct any as [|x xs]; [exact Hfin|].
    cbn [forallb] in Hany. apply andb_true_iff in Hany as [Hx Hxs].
    change ("*" +:+ x +:+ "*" +:+ anys_text xs
              +:+ from_option (fun s0 => "*" +:+ s0) "" final)
      with (String "*" (x +:+ "*" +:+ anys_text xs
              +:+ from_option (fun s0 => "*" +:+ s0) "" final)).
    rewrite contains_char_cons, Hstar.
    rewrite !contains_char_app, (Hcomp x Hx), (Hanys xs Hxs), Hfin.
    rewrite contains_char_cons, Hstar. reflexivity.
Qed.

Lemma endswith_eq_star (attr body : string) :
  PyStr.contains "=" attr = false ->
  PyStr.contains "=" body = false ->
  PyStr.endswith "=*" (attr +:+ "=" +:+ body) = true ->
  body = "*".
Proof.
  intros Hattr Hbody. induction attr as [|x attr IH]; intros H.
  - rewrite app_empty_l in H. change ("=" +:+ body) with (String "=" body) in H.
    cbn [PyStr.endswith] in H. apply orb_true_iff in H as [H|H].
    + apply String.eqb_eq in H. now injection H.
    + apply endswith_contains, contains_head in H. congruence.
  - rewrite contains_char_cons in Hattr.
    apply orb_false_iff in Hattr as [Hx Hattr].
    rewrite app_cons in H. cbn [PyStr.endswith] in H.
    apply orb_true_iff in H as [H|H]; [|exact (IH Hattr H)].
    apply String.eqb_eq in H. injection H as -> _.
    rewrite Ascii.eqb_refl in Hx. discriminate.
Qed.

Lemma substrings_text_not_star (initial : option string) (any : list string)
    (final : option string) :
  from_option text_component true initial = true ->
  forallb text_component any = true ->
  from_option text_component true final = true ->
  substrings_text initial any final <> "*".
Proof.
  intros Hi Hany Hf. unfold substrings_text.
  destruct initial as [s|].
  - apply text_component_spec in Hi as [Hp Ht].
    destruct s as [|c s]; [discriminate|].
    rewrite app_cons. intros H. injection H as -> H.
    cbn [plain] in Hp. discriminate.
  - destruct any as [|x xs].
    + destruct final as [s|]; cbn [from_option]; [|discriminate].
      apply text_component_spec in Hf as [_ Ht].
      destruct s; discriminate.
    + cbn [forallb] in Hany. apply andb_true_iff in Hany as [Hx _].
      apply text_component_spec in Hx as [_ Ht].
      destruct x; discriminate.
Qed.

(** [evaluate_match] on the clause of a substring filter. *)
Lemma evaluate_match_substrings (attr : string) (initial : option string)
    (any : list string) (final : option string) :
  plain attr = true ->
  from_option text_component true initial = true ->
  forallb text_component any = true ->
  from_option text_component true final = true ->
  compile_substrings initial any final <> [] ->
  evaluate_match (attr +:+ "=" +:+ substrings_text initial any final)
  = Ok (new_FilterNode MATCH_SUBSTRING
          (Some (SubstringAssertion attr initial any final))).
Proof.
  intros Hattr Hi Hany Hf Hne.
  set (body := substrings_text initial any final).
  assert (Hbody : forall c,
             PyStr.isspace c = true \/ char_in c "()&|!=<>~:\" = true ->
             PyStr.contains (String c "") body = false)
    by (intros c Hc; now apply substrings_text_without).
  assert (Hclause : forall c,
             PyStr.isspace c = true \/ char_in c "()&|!<>~:\" = true ->
             PyStr.contains (String c "") (attr +:+ "=" +:+ body) = false).
  { intros c Hc. rewrite !contains_char_app.
    rewrite (plain_no_special attr c Hattr), Hbody.
    - rewrite contains_char_cons.
      destruct (Ascii.eqb_spec c "=") as [->|]; [|reflexivity].
      destruct Hc as [Hc|Hc]; discriminate Hc.
    - destruct Hc as [Hc|Hc]; [now left|right].
      unfold char_in in *. rewrite !contains_char_cons in *.
      repeat match type of Hc with
             | _ || _ = true => apply orb_true_iff in Hc as [->|Hc]
             end; rewrite ?orb_true_r; try reflexivity; discriminate.
    - destruct Hc as [Hc|Hc]; [now left|right].
      unfold char_in in *. rewrite !contains_char_cons in *.
      repeat match type of Hc with
             | _ || _ = true => apply orb_true_iff in Hc as [->|Hc]
             end; rewrite ?orb_true_r; try reflexivity; discriminate. }
  assert (Hno : forall c p,
             char_in c "()&|!<>~:\" = true ->
             PyStr.contains (String c p) (attr +:+ "=" +:+ body) = false).
  { intros c p Hc.
    destruct (PyStr.contains (String c p) _) eqn:E; [|reflexivity].
    apply contains_head in E. rewrite Hclause in E; [discriminate|now right]. }
  unfold evaluate_match.
  rewrite (strip_no_space (attr +:+ "=" +:+ body))
    by (intros c Hc; apply Hclause; now left).
  rewrite !Hno by reflexivity.
  destruct (PyStr.endswith "=*" (attr +:+ "=" +:+ body)) eqn:E.
  { exfalso. apply endswith_eq_star in E.
    - now apply (substrings_text_not_star initial any final).
    - apply plain_no_special; [assumption|now right].
    - apply Hbody. now right. }
  assert (Heq : PyStr.contains "=" (attr +:+ "=" +:+ body) = true).
  { apply contains_app_r, contains_app_l. reflexivity. }
  destruct (split_substrings initial any final Hi Hany Hf Hne)
    as (mid & Hsplit & Hmid).
  assert (Hstar : PyStr.contains "*" (attr +:+ "=" +:+ body) = true).
  { destruct (PyStr.contains "*" (attr +:+ "=" +:+ body)) eqn:Es;
      [reflexivity|].
    rewrite !contains_char_app in Es.
    apply orb_false_iff in Es as [_ Es]. apply orb_false_iff in Es as [_ Es].
    fold body in Hsplit. rewrite (split_char_none "*" body Es) in Hsplit.
    destruct mid; discriminate Hsplit. }
  rewrite Heq, Hstar. cbn [andb].
  rewrite (partition_after "=" "" attr body)
    by (apply plain_no_special; [assumption|now right]).
  fold body in Hsplit. rewrite Hsplit.
  cbn [PySeq.first mbind result_bind].
  rewrite (app_comm_cons mid _ (default "" initial)), PySeq_last_snoc.
  cbn [mbind result_bind]. rewrite <- app_comm_cons, interior_snoc, Hmid.
  rewrite (validate_components any Hany).
  assert (Hopt : forall o, from_option text_component true o = true ->
                   validate_if (default "" o) = o).
  { intros [s|] Ho; [|reflexivity]. cbn [from_option id].
    apply text_component_spec in Ho as [Hp Ht].
    unfold validate_if. now rewrite Ht, (plain_validate s Hp). }
  now rewrite (Hopt initial Hi), (Hopt final Hf).
Qed.

(** A substring filter comes back: with a plain attribute and components
    that are plain and not empty, at least one of them, the text that
    [filter_to_string] writes is accepted by [build_filter] and compiles to
    the same filter. *)
Theorem substring_filter_back
    (m : option string -> option string -> string -> bool -> string)
    (attr : string) (initial : option string) (any : list string)
    (final : option string) :
  plain attr = true ->
  from_option text_component true initial = true ->
  forallb text_component any = true ->
  from_option text_component true final = true ->
  compile_substrings initial any final <> [] ->
  filter_to_string m
    (F_substringFilter attr (compile_substrings initial any final))
  = "(" +:+ attr +:+ "=" +:+ substrings_text initial any final +:+ ")"
  /\ build_filter
       (filter_to_string m
          (F_substringFilter attr (compile_substrings initial any final)))
     = Ok (F_substringFilter attr (compile_substrings initial any final)).
Proof.
  intros Hattr Hi Hany Hf Hne.
  set (body := substrings_text initial any final).
  assert (Htext : filter_to_string m
                    (F_substringFilter attr
                       (compile_substrings initial any final))
                  = "(" +:+ (attr +:+ "=" +:+ body) +:+ ")").
  { cbn [filter_to_string].
    pose proof (fold_substrings ("(" +:+ attr) initial any final Hi Hany Hf)
      as Hfold.
    rewrite app_assoc_str in Hfold. rewrite Hfold.
    fold body. now rewrite !app_assoc_str. }
  split; [rewrite Htext; now rewrite !app_assoc_str|].
  rewrite Htext.
  assert (Hclause : exists c0 rest,
             attr +:+ "=" +:+ body = String c0 rest
             /\ char_in c0 PyStr.whitespace = false
             /\ char_in c0 "&!|" = false).
  { destruct attr as [|x attr'].
    - exists "="%char, body. repeat split; reflexivity.
    - exists x, (attr' +:+ "=" +:+ body). split; [reflexivity|].
      cbn [plain] in Hattr. apply andb_true_iff in Hattr as [Hx _].
      now apply plain_char_first. }
  destruct Hclause as (c0 & rest & Hcl & Hws & Hctl).
  assert (Hpar : forall c, char_in c "()" = true ->
                   PyStr.contains (String c "") (attr +:+ "=" +:+ body)
                   = false).
  { intros c Hc.
    assert (Hc' : char_in c "()&|!=<>~:\" = true /\ Ascii.eqb c "=" = false).
    { unfold char_in in *. rewrite !contains_char_cons in *.
      repeat match type of Hc with
             | _ || _ = true => apply orb_true_iff in Hc as [Hc|Hc]
             end; try discriminate Hc;
        apply Ascii.eqb_eq in Hc; subst c; split; reflexivity. }
    destruct Hc' as [Hc1 Hc2].
    pose proof (substrings_text_without c initial any final Hi Hany Hf
                  ltac:(now right)) as Hb.
    fold body in Hb.
    rewrite !contains_char_app, contains_char_cons, Hc2, Hb.
    rewrite (plain_no_special attr c Hattr); [reflexivity|right].
    unfold char_in in *. rewrite !contains_char_cons in *.
    repeat match type of Hc with
           | _ || _ = true => apply orb_true_iff in Hc as [->|Hc]
           end; rewrite ?orb_true_r; try reflexivity; discriminate. }
  pose proof (Hpar "("%char eq_refl) as Ho.
  pose proof (Hpar ")"%char eq_refl) as Hc.
  pose proof (evaluate_match_substrings attr initial any final
                Hattr Hi Hany Hf Hne) as Hleaf.
  fold body in Hleaf.
  unfold build_filter. rewrite Hcl in Ho, Hc, Hleaf |- *.
  rewrite (parse_filter_clause c0 rest Hws Hctl Ho Hc), Hleaf.
  reflexivity.
Qed.

Lemma substring_filter_back_witness :
  filter_to_string (fun _ _ _ _ => "")
    (F_substringFilter "cn" (compile_substrings (Some "a") ["b"; "c"] (Some "d")))
  = "(" +:+ "cn" +:+ "=" +:+ "a*b*c**d" +:+ ")"
  /\ build_filter
       (filter_to_string (fun _ _ _ _ => "")
          (F_substringFilter "cn"
             (compile_substrings (Some "a") ["b"; "c"] (Some "d"))))
     = Ok (F_substringFilter "cn"
             (compile_substrings (Some "a") ["b"; "c"] (Some "d"))).
Proof.
  apply (substring_filter_back (fun _ _ _ _ => "") "cn" (Some "a")
           ["b"; "c"] (Some "d")); try reflexivity.
  discriminate.
Defined.
